(** * Verification of the input layer of verif ([verif/input.py])

    The module is Python 2.7 code.  Its floating-point values are IEEE
    binary64 doubles, modelled with the Standard Library's [spec_float]
    (precision 53, maximal exponent 1024), whose operations are the
    correctly rounded IEEE operations.  String handling, Python's [float()]
    parser, the [%g] and [%d] formatters, the hash of a float and the layout
    of a CPython 2.7 [set] are written out, because the program's observable
    results (token names, coordinate orders) depend on them. *)

From Stdlib Require Import ZArith String Ascii List Bool Lia SpecFloat.
From Stdlib Require Import Permutation.
Import ListNotations.
Open Scope Z_scope.

(* ================================================================= *)
(** ** Python runtime: results, exceptions, floats *)

Module Py.

(** Exceptions a call can raise.  [VerifError] is [verif.util.error],
    which aborts the load. *)
Inductive exn :=
| IndexError
| ValueError
| OverflowError
| AttributeError
| IOError
| KeyError
| VerifError (msg : string).

Inductive result (A : Type) :=
| Ok (a : A)
| Raise (e : exn).
Arguments Ok {A} a.
Arguments Raise {A} e.

Definition bind {A B} (r : result A) (k : A -> result B) : result B :=
  match r with Ok a => k a | Raise e => Raise e end.

Notation "x <- r ;; k" := (bind r (fun x => k))
  (at level 61, r at next level, right associativity).

(** Python [float] (binary64). *)
Definition float := spec_float.
Definition prec : Z := 53.
Definition emax : Z := 1024.

Definition nan : float := S754_nan.
Definition fzero : float := S754_zero false.

Definition of_Z (n : Z) : float := binary_normalize prec emax n 0 false.

Definition fadd := SFadd prec emax.
Definition fsub := SFsub prec emax.
Definition fmul := SFmul prec emax.
Definition fdiv := SFdiv prec emax.
Definition fabs := SFabs.

(** [a == b], [a < b], [a <= b], [a > b], [a >= b] on floats: IEEE
    comparisons, false whenever a NaN is involved. *)
Definition feq (a b : float) : bool := SFeqb a b.
Definition flt (a b : float) : bool := SFltb a b.
Definition fle (a b : float) : bool := SFleb a b.
Definition fgt (a b : float) : bool := SFltb b a.
Definition fge (a b : float) : bool := SFleb b a.

(** [np.isnan] *)
Definition isnan (a : float) : bool :=
  match a with S754_nan => true | _ => false end.

(** ** Float objects

    A Python float is an object: two floats with the same value can be
    different objects, and [float()] returns a new object at each call.
    Where a float is stored in a [set] or in a [dict] key, its identity
    can decide a lookup, so it is kept with its value.  [NpNan] is the
    single object [np.nan]; [IntZero] is the int [0] of the defaults
    [date = 0], [offset = 0] and [currLat = 0] (small ints are shared);
    [Made r site j] is the object returned by a [float()] call of the text
    decoder's reading loop, in data row [r], at the call site [site]
    (position [j] within a loop). *)
Inductive ident :=
| NpNan
| IntZero
| Made (r : nat) (site : string) (j : nat).

Definition ident_eqb (a b : ident) : bool :=
  match a, b with
  | NpNan, NpNan => true
  | IntZero, IntZero => true
  | Made r s j, Made r' s' j' => Nat.eqb r r' && String.eqb s s' && Nat.eqb j j'
  | _, _ => false
  end.

Record fobj := mkObj { fval : float; fid : ident }.

Definition np_nan : fobj := mkObj nan NpNan.
Definition int_zero : fobj := mkObj fzero IntZero.

(** Equality used by [dict] and [set] lookups and by tuple comparison:
    [PyObject_RichCompareBool(a, b, Py_EQ)] is [a is b or a == b].  An
    object is [==] to itself unless it is NaN, so this is [==], or, for two
    NaNs, being the same object. *)
Definition key_eq (a b : fobj) : bool :=
  feq (fval a) (fval b) ||
  (isnan (fval a) && isnan (fval b) && ident_eqb (fid a) (fid b)).

(** ** [float(s)] for a Python 2.7 [str] *)

Definition is_space (c : ascii) : bool :=
  match nat_of_ascii c with
  | 32 | 9 | 10 | 11 | 12 | 13 => true
  | _ => false
  end%nat.

Definition is_digit (c : ascii) : bool :=
  (48 <=? nat_of_ascii c)%nat && (nat_of_ascii c <=? 57)%nat.

Definition digit_val (c : ascii) : Z := Z.of_nat (nat_of_ascii c) - 48.

Fixpoint strip_left (s : string) : string :=
  match s with
  | String c r => if is_space c then strip_left r else s
  | EmptyString => EmptyString
  end.

Fixpoint rev_str (s : string) (acc : string) : string :=
  match s with
  | String c r => rev_str r (String c acc)
  | EmptyString => acc
  end.

(** [s.strip()] *)
Definition strip (s : string) : string :=
  rev_str (strip_left (rev_str (strip_left s) EmptyString)) EmptyString.

Definition lower (c : ascii) : ascii :=
  let n := nat_of_ascii c in
  if ((65 <=? n) && (n <=? 90))%nat then ascii_of_nat (n + 32) else c.

Fixpoint lower_str (s : string) : string :=
  match s with
  | String c r => String (lower c) (lower_str r)
  | EmptyString => EmptyString
  end.

(** Leading run of digits: (value, number of digits, rest). *)
Fixpoint take_digits (s : string) (acc : Z) (n : Z) : Z * Z * string :=
  match s with
  | String c r =>
      if is_digit c then take_digits r (10 * acc + digit_val c) (n + 1)
      else (acc, n, s)
  | EmptyString => (acc, n, s)
  end.

(** The correctly rounded double nearest to [(-1)^neg * m * 10^e]. *)
Definition round_decimal (neg : bool) (m e : Z) : float :=
  if m =? 0 then S754_zero neg
  else if 0 <=? e then
    binary_normalize prec emax ((if neg then -1 else 1) * m * 10 ^ e) 0 neg
  else
    fdiv (S754_finite neg (Z.to_pos m) 0) (S754_finite false (Z.to_pos (10 ^ (- e))) 0).

(** Exponent part: [e] or [E], optional sign, at least one digit. *)
Definition parse_exponent (s : string) : option (Z * string) :=
  match s with
  | String c r =>
      if (c =? "e")%char || (c =? "E")%char then
        let '(sg, r') :=
          match r with
          | String "+" r' => (1, r')
          | String "-" r' => (-1, r')
          | _ => (1, r)
          end in
        let '(v, n, r'') := take_digits r' 0 0 in
        if n =? 0 then None else Some (sg * v, r'')
      else Some (0, s)
  | EmptyString => Some (0, s)
  end.

(** Unsigned body: [inf], [infinity], [nan] (any case) or a decimal. *)
Definition parse_body (neg : bool) (s : string) : option float :=
  let l := lower_str s in
  if String.eqb l "inf" || String.eqb l "infinity" then Some (S754_infinity neg)
  else if String.eqb l "nan" then Some S754_nan
  else
    let '(ip, ni, r1) := take_digits s 0 0 in
    let '(fp, nf, r2) :=
      match r1 with
      | String "." r => take_digits r ip 0
      | _ => (ip, 0, r1)
      end in
    if (ni + nf =? 0) then None
    else
      match parse_exponent r2 with
      | Some (ex, EmptyString) => Some (round_decimal neg fp (ex - nf))
      | _ => None
      end.

(** [float(s)]; [None] is the [ValueError]. *)
Definition float_of_string (s : string) : option float :=
  match strip s with
  | String "-" r => parse_body true r
  | String "+" r => parse_body false r
  | t => parse_body false t
  end.

Definition py_float (s : string) : result float :=
  match float_of_string s with Some f => Ok f | None => Raise ValueError end.

(** The double written by the literal [s] (for stating sample inputs). *)
Definition lit (s : string) : float :=
  match float_of_string s with Some f => f | None => nan end.

(** [verif.util.error] is not part of the sources. *)
(** Modelled from the spec: [verif.util.error] reports the message and never
    returns: the load is aborted. *)
Definition util_error {A} (msg : string) : result A := Raise (VerifError msg).

(** ** [hash(x)] for a float ([_Py_HashDouble] of CPython 2.7, 64-bit
    [long]) *)

Definition two64 : Z := 2 ^ 64.

(** Reinterpret an integer as a C [long] (two's complement, 64 bits). *)
Definition to_long (x : Z) : Z :=
  let u := x mod two64 in if u <? 2 ^ 63 then u else u - two64.

(** [long_hash] of a nonzero Python long of magnitude [a] and sign [neg]:
    the digit loop leaves [x] in [1, ULONG_MAX], congruent to [a] modulo
    [ULONG_MAX]. *)
Definition long_hash (neg : bool) (a : Z) : Z :=
  let ulong_max := two64 - 1 in
  let r := a mod ulong_max in
  let x := if (r =? 0) && negb (a =? 0) then ulong_max else r in
  let x := if neg then (two64 - x) mod two64 else x in
  let x := if x =? ulong_max then ulong_max - 1 else x in
  to_long x.

Definition hash_float (v : float) : Z :=
  match v with
  | S754_nan => 0
  | S754_infinity neg => if neg then -271828 else 314159
  | S754_zero _ => 0
  | S754_finite neg m e =>
      let sg := if neg then -1 else 1 in
      let mz := Z.pos m in
      if (0 <=? e) || (mz mod 2 ^ (- e) =? 0) then
        (* integral value *)
        let n := if 0 <=? e then mz * 2 ^ e else mz / 2 ^ (- e) in
        if 2 ^ 62 <? n then long_hash neg n
        else let x := sg * n in if x =? -1 then -2 else x
      else
        (* frexp: v = f * 2^expo with 1/2 <= |f| < 1 *)
        let d := Zdigits2 mz in
        let expo := d + e in
        let hi := if d <=? 31 then Z.shiftl mz (31 - d) else Z.shiftr mz (d - 31) in
        let lo := if d <=? 31 then 0
                  else let low := mz mod 2 ^ (d - 31) in
                       if d <=? 62 then Z.shiftl low (62 - d) else Z.shiftr low (d - 62) in
        let x := to_long (sg * hi + sg * lo + expo * 2 ^ 15) in
        if x =? -1 then -2 else x
  end.

(** ** String helpers *)

Definition char_at (s : string) (i : nat) : result ascii :=
  match String.get i s with Some c => Ok c | None => Raise IndexError end.

(** [s.replace(old, new)]: all non-overlapping occurrences, left to right
    ([old] non-empty). *)
Fixpoint replace_aux (old new : string) (skip : nat) (s : string) : string :=
  match s with
  | EmptyString => EmptyString
  | String c r =>
      match skip with
      | S k => replace_aux old new k r
      | O =>
          if String.prefix old s
          then new ++ replace_aux old new (String.length old - 1) r
          else String c (replace_aux old new 0 r)
      end
  end.

Definition replace (old new s : string) : string :=
  if String.eqb old "" then s else replace_aux old new 0 s.

Definition digit_char (d : Z) : ascii := ascii_of_nat (Z.to_nat (48 + d)).

(** Decimal digits of a natural number ([str(n)] for [n >= 0]). *)
Fixpoint digits_aux (fuel : nat) (n : Z) (acc : string) : string :=
  match fuel with
  | O => acc
  | S f =>
      let acc' := String (digit_char (n mod 10)) acc in
      if n <? 10 then acc' else digits_aux f (n / 10) acc'
  end.

Definition digits (n : Z) : string := digits_aux (Z.to_nat (Z.log2 n + 2)) n "".

(** [str(n)] for an integer. *)
Definition str_Z (n : Z) : string :=
  if n <? 0 then String "-" (digits (- n)) else digits n.

Fixpoint zeros (n : nat) : string :=
  match n with O => "" | S k => String "0" (zeros k) end.

(** Drop trailing '0' characters. *)
Definition strip_trailing_zeros (s : string) : string :=
  let fix go (r : string) : string :=
      match r with
      | String "0" t => go t
      | _ => r
      end in
  rev_str (go (rev_str s "")) "".

(** ** [%d] and [%g] formatting of a float *)

(** Value of a finite float as a fraction [num/den] of its magnitude. *)
Definition frac_of (m : positive) (e : Z) : Z * Z :=
  if 0 <=? e then (Z.pos m * 2 ^ e, 1) else (Z.pos m, 2 ^ (- e)).

(** [int(x)]: truncation toward zero; NaN raises [ValueError], infinities
    raise [OverflowError]. *)
Definition py_int (v : float) : result Z :=
  match v with
  | S754_nan => Raise ValueError
  | S754_infinity _ => Raise OverflowError
  | S754_zero _ => Ok 0
  | S754_finite neg m e =>
      let '(num, den) := frac_of m e in
      Ok ((if neg then -1 else 1) * (num / den))
  end.

(** ["%d" % v] *)
Definition fmt_d (v : float) : result string :=
  n <- py_int v ;; Ok (str_Z n).

(** Round-half-even of [num/den] to an integer ([num, den > 0]). *)
Definition round_half_even (num den : Z) : Z :=
  let q := num / den in
  let r := num mod den in
  match Z.compare (2 * r) den with
  | Lt => q
  | Gt => q + 1
  | Eq => if Z.even q then q else q + 1
  end.

(** [num/den] compared to [10^k]. *)
Definition cmp_pow10 (num den k : Z) : comparison :=
  if 0 <=? k then Z.compare num (den * 10 ^ k)
  else Z.compare (num * 10 ^ (- k)) den.

Definition ndigits (n : Z) : Z := Z.of_nat (String.length (digits n)).

(** Decimal exponent [X] with [10^X <= num/den < 10^(X+1)]. *)
Definition dec_exponent (num den : Z) : Z :=
  let x0 := ndigits num - ndigits den in
  match cmp_pow10 num den x0 with Lt => x0 - 1 | _ => x0 end.

(** Six significant digits: [(M, X)] with [10^5 <= M < 10^6] and
    [num/den ~ M * 10^(X-5)], rounded half-even. *)
Definition sig6 (num den : Z) : Z * Z :=
  let x := dec_exponent num den in
  let mant := if 0 <=? 5 - x then round_half_even (num * 10 ^ (5 - x)) den
              else round_half_even num (den * 10 ^ (x - 5)) in
  if mant =? 10 ^ 6 then (10 ^ 5, x + 1) else (mant, x).

Definition fmt_exp (x : Z) : string :=
  let sgn := if x <? 0 then "-"%string else "+"%string in
  let d := digits (Z.abs x) in
  sgn ++ (if Z.abs x <? 10 then String "0" d else d).

(** ["%g" % v]: precision 6, trailing zeros removed. *)
Definition fmt_g (v : float) : string :=
  match v with
  | S754_nan => "nan"
  | S754_infinity neg => if neg then "-inf" else "inf"
  | S754_zero neg => if neg then "-0" else "0"
  | S754_finite neg m e =>
      let '(num, den) := frac_of m e in
      let '(mant, x) := sig6 num den in
      let ds := digits mant in
      let body :=
        if (x <? -4) || (6 <=? x) then
          let first := String.substring 0 1 ds in
          let rest := strip_trailing_zeros (String.substring 1 5 ds) in
          ((if String.eqb rest "" then first else first ++ "." ++ rest)
            ++ "e" ++ fmt_exp x)%string
        else if 0 <=? x then
          let ip := String.substring 0 (Z.to_nat (x + 1)) ds in
          let fp := strip_trailing_zeros (String.substring (Z.to_nat (x + 1)) 6 ds) in
          if String.eqb fp "" then ip else (ip ++ "." ++ fp)%string
        else
          ("0." ++ zeros (Z.to_nat (- x - 1)) ++ strip_trailing_zeros ds)%string in
      if neg then ("-" ++ body)%string else body
  end.

End Py.

(* ================================================================= *)
(** ** The COMPS naming codec ([Comps._comps_to_verif_*] and
    [Comps._verif_to_comps_*], input.py lines 200-251) *)

Module Codec.
Import Py.

(** [verif.util.is_number] is not part of the sources. *)
(** Modelled from the spec: [verif.util.is_number], the "string-is-numeric"
    utility: a string is numeric when [float()] accepts it. *)
Definition is_number (s : string) : bool :=
  match float_of_string s with Some _ => true | None => false end.

(** [if len(variable_name) >= 2 or variable_name[0] == c]: the index is only
    evaluated for strings shorter than 2, and raises on the empty string. *)
Definition guard (c : ascii) (variable_name : string) : result bool :=
  if (2 <=? String.length variable_name)%nat then Ok true
  else hd <- char_at variable_name 0 ;; Ok (Ascii.eqb hd c).

(** [_comps_to_verif_threshold].  The [assert] on [np.where(variable_name ==
    ".")] always holds (a scalar test gives a one-element tuple) and is
    omitted. *)
Definition comps_to_verif_threshold (variable_name : string) : result (option float) :=
  g <- guard "p" variable_name ;;
  if g then
    let v := replace "m" "-" variable_name in
    let v := replace "p0" "0." v in
    let v := replace "p" "" v in
    if is_number v then Ok (float_of_string v) else Ok None
  else Ok None.

(** [_comps_to_verif_quantile] *)
Definition comps_to_verif_quantile (variable_name : string) : result (option float) :=
  g <- guard "q" variable_name ;;
  if g then
    let v := replace "q0" "0." variable_name in
    let v := replace "q" "" v in
    if is_number v then
      match float_of_string v with
      | Some f =>
          let temp := fdiv f (of_Z 100) in
          if fge temp fzero && fle temp (of_Z 1) then Ok (Some temp) else Ok None
      | None => Ok None
      end
    else Ok None
  else Ok None.

(** [_verif_to_comps_threshold] *)
Definition verif_to_comps_threshold (threshold : float) : result string :=
  v <- (if feq threshold fzero then Ok "0"%string
        else if flt (fabs threshold) (of_Z 1) then Ok (replace "." "" (fmt_g threshold))
        else fmt_d threshold) ;;
  let v := replace "-" "m" v in
  Ok ("p" ++ v)%string.

(** [_verif_to_comps_quantile]; [None] is Python's [None]. *)
Definition verif_to_comps_quantile (quantile : float) : option string :=
  if flt quantile fzero || fgt quantile (of_Z 1) then None
  else
    let v := if feq quantile fzero then "0"%string
             else replace "." "" (fmt_g (fmul quantile (of_Z 100))) in
    Some ("q" ++ v)%string.

(** [Comps._get_quantiles]: the decoded names of the file's variables (in
    the file's iteration order) that are not dimension names. *)
Fixpoint comps_get_quantiles (dimension_names vars : list string) : result (list float) :=
  match vars with
  | [] => Ok []
  | var :: r =>
      if existsb (String.eqb var) dimension_names
      then comps_get_quantiles dimension_names r
      else q <- comps_to_verif_quantile var ;;
           rest <- comps_get_quantiles dimension_names r ;;
           Ok (match q with Some x => x :: rest | None => rest end)
  end.

(** Decoding the encoded threshold gives back [t]. *)
Definition threshold_roundtrips (t : float) : bool :=
  match verif_to_comps_threshold t with
  | Ok name =>
      match comps_to_verif_threshold name with
      | Ok (Some t') => feq t' t
      | _ => false
      end
  | Raise _ => false
  end.

Definition quantile_roundtrips (q : float) : bool :=
  match verif_to_comps_quantile q with
  | Some name =>
      match comps_to_verif_quantile name with
      | Ok (Some q') => feq q' q
      | _ => false
      end
  | None => false
  end.

Definition threshold_sample : list float :=
  map lit ["-2"; "-0.5"; "0"; "0.3"; "5"]%string.
Definition quantile_sample : list float :=
  map lit ["0"; "0.3"; "0.5"; "1"]%string.

End Codec.

(* ================================================================= *)
(** ** Files and format detection ([get_input], [Comps.is_valid],
    [NetcdfCf.is_valid], [Text.is_valid]) *)

Module Detect.
Import Py.

(** What a path holds: a NetCDF file, seen through its global attributes
    (name, string value), or any other file, seen as its lines. *)
Inductive content :=
| NetCDF (attrs : list (string * string))
| Plain (lines : list string).

(** The file system: the content at a path, [None] if nothing is there. *)
Definition fs := string -> option content.

(** [os.path.exists] *)
Definition exists_path (fsys : fs) (filename : string) : bool :=
  match fsys filename with Some _ => true | None => false end.

(** [netcdf(filename, 'r')]: opens NetCDF files, raises on anything else. *)
Definition netcdf_open (fsys : fs) (filename : string)
  : result (list (string * string)) :=
  match fsys filename with
  | Some (NetCDF attrs) => Ok attrs
  | _ => Raise IOError
  end.

(** [hasattr(file, name)] and [file.name] on global attributes. *)
Definition hasattr (attrs : list (string * string)) (name : string) : bool :=
  existsb (fun kv => String.eqb (fst kv) name) attrs.

Definition getattr (attrs : list (string * string)) (name : string) : result string :=
  match find (fun kv => String.eqb (fst kv) name) attrs with
  | Some kv => Ok (snd kv)
  | None => Raise AttributeError
  end.

(** Body of the [try] block of [Comps.is_valid]: the flag [valid] is
    computed (reading [file.Convension] when [file.Convensions] exists) and
    then not used; the block returns [True]. *)
Definition comps_is_valid_try (fsys : fs) (filename : string) : result bool :=
  file <- netcdf_open fsys filename ;;
  valid <- (if hasattr file "Convensions"
            then (c <- getattr file "Convension" ;;
                  Ok (String.eqb c "comps"))
            else Ok false) ;;
  Ok true.

(** [Comps.is_valid]: the bare [except] turns any exception into [False]. *)
Definition comps_is_valid (fsys : fs) (filename : string) : bool :=
  match comps_is_valid_try fsys filename with
  | Ok b => b
  | Raise _ => false
  end.

(** [NetcdfCf.is_valid] *)
Definition netcdfcf_is_valid (fsys : fs) (filename : string) : bool :=
  match netcdf_open fsys filename with
  | Raise _ => false
  | Ok file =>
      hasattr file "Conventions" &&
      match getattr file "Conventions" with
      | Ok c => String.eqb c "verif_1.0.0"
      | Raise _ => false
      end
  end.

(** [Text.is_valid] *)
Definition text_is_valid (fsys : fs) (filename : string) : bool := true.

Inductive decoder := DNetcdfCf | DComps | DText.

Definition is_valid (d : decoder) : fs -> string -> bool :=
  match d with
  | DNetcdfCf => netcdfcf_is_valid
  | DComps => comps_is_valid
  | DText => text_is_valid
  end.

Definition priority : list decoder := [DNetcdfCf; DComps; DText].

Section GetInput.
(** The decoders' constructors, producing the loaded input or raising. *)
Context {Input : Type}.
Variable construct : decoder -> string -> result Input.

(** [get_input], returning also the decoders whose [is_valid] was called,
    in call order. *)
Definition get_input (fsys : fs) (filename : string) : list decoder * result Input :=
  if negb (exists_path fsys filename) then
    ([], util_error ("File '" ++ filename ++ "' does not exist"))
  else if netcdfcf_is_valid fsys filename then
    ([DNetcdfCf], construct DNetcdfCf filename)
  else if comps_is_valid fsys filename then
    ([DNetcdfCf; DComps], construct DComps filename)
  else if text_is_valid fsys filename then
    ([DNetcdfCf; DComps; DText], construct DText filename)
  else
    ([DNetcdfCf; DComps; DText],
     util_error ("File '" ++ filename ++ "' is not a valid input file")).

End GetInput.

End Detect.

(* ================================================================= *)
(** ** CPython 2.7 [set] ([Objects/setobject.c]) *)

Module PySet.
Import Py.

Section SetOps.
Context {A : Type}.
(** [hash(x)] and [x == y] of the elements; equal elements have equal
    hashes. *)
Variable hash : A -> Z.
Variable eq : A -> A -> bool.

(** A set that only ever grows is determined by its distinct elements in
    the order they were first added: [s.add(x)] keeps the stored element
    when an equal one is present (the probe sequence reaches it, since equal
    elements have equal hashes), and stores [x] otherwise. *)
Definition t := list A.

Definition empty : t := [].

Definition add (x : A) (s : t) : t :=
  if existsb (fun y => eq y x) s then s else s ++ [x].

(** The hash table: slots holding an element and its stored hash. *)
Definition table := list (option (A * Z)).

Definition minsize : nat := 8.

Fixpoint nones (n : nat) : table :=
  match n with O => [] | S k => None :: nones k end.

(** Open addressing: [i = hash & mask], then
    [i = (i << 2) + i + perturb + 1; perturb >>= 5] until an empty slot.
    Within 13 steps [perturb] is 0, after which [i -> 5i+1] visits every
    slot, so [2 * size + 20] steps are enough. *)
Fixpoint probe (fuel : nat) (tb : table) (mask i perturb : Z) : option nat :=
  match fuel with
  | O => None
  | S f =>
      let j := Z.to_nat (Z.land i mask) in
      match nth_error tb j with
      | Some None => Some j
      | _ => probe f tb mask ((Z.shiftl i 2 + i + perturb + 1) mod two64)
                   (Z.shiftr perturb 5)
      end
  end.

Fixpoint set_nth (tb : table) (j : nat) (v : option (A * Z)) : table :=
  match tb, j with
  | [], _ => []
  | _ :: r, O => v :: r
  | e :: r, S k => e :: set_nth r k v
  end.

(** [set_insert_clean]: place an element known to be absent.  The append
    branch is never taken: the table always keeps an empty slot. *)
Definition insert_clean (tb : table) (x : A) (h : Z) : table :=
  let mask := Z.of_nat (length tb) - 1 in
  match probe (2 * length tb + 20) tb mask (Z.land h mask) (h mod two64) with
  | Some j => set_nth tb j (Some (x, h))
  | None => tb ++ [Some (x, h)]
  end.

Fixpoint entries (tb : table) : list (A * Z) :=
  match tb with
  | [] => []
  | None :: r => entries r
  | Some e :: r => e :: entries r
  end.

(** [set_table_resize(so, minused)]: smallest power of two above
    [minused] (from 8), active entries re-inserted in slot order. *)
Fixpoint newsize (fuel : nat) (n minused : nat) : nat :=
  match fuel with
  | O => n
  | S f => if (n <=? minused)%nat then newsize f (2 * n) minused else n
  end.

Definition resize (tb : table) (minused : nat) : table :=
  fold_left (fun acc e => insert_clean acc (fst e) (snd e)) (entries tb)
            (nones (newsize minused minsize minused)).

(** [set_add_key] for an element not yet present: insert, then resize when
    [fill * 3 >= (mask + 1) * 2]. *)
Definition insert_new (tb : table) (x : A) : table :=
  let tb' := insert_clean tb x (hash x) in
  let used := length (entries tb') in
  if (length tb * 2 <=? used * 3)%nat
  then resize tb' (if 50000 <? Z.of_nat used then used * 2 else used * 4)
  else tb'.

Definition build (s : t) : table := fold_left insert_new s (nones minsize).

(** [list(s)]: the elements in slot order. *)
Definition to_list (s : t) : list A := map fst (entries (build s)).

End SetOps.
End PySet.

(* ================================================================= *)
(** ** The text decoder ([Text.__init__], input.py lines 350-560) *)

Module Text.
Import Py.

(** [verif.location.Location] objects; [loc_obj] is the object's
    identity (the number of Locations created before it).  The
    coordinates are the objects the Location was built from, since they
    become items of the sparse keys.  The id is kept as its value: the
    Location equality and hash below and the deferred id assignment use
    only its value. *)
Record location := mkLocation {
  loc_obj : nat;
  loc_id : float;
  loc_lat : fobj;
  loc_lon : fobj;
  loc_elev : fobj
}.

(** [verif.location.Location]'s [__eq__] and [__hash__] are not part of the
    sources. *)
(** Modelled from the spec: a Location is identified by its identifier
    (locations are "unique by identifier"): two Locations are equal when
    they are the same object or their ids are equal, and a Location hashes
    as its id. *)
Definition location_eq (a b : location) : bool :=
  Nat.eqb (loc_obj a) (loc_obj b) || feq (loc_id a) (loc_id b).

Definition location_hash (a : location) : Z := hash_float (loc_id a).

(** ** Containers *)

(** A tuple of float objects, compared item by item with [key_eq]. *)
Definition key := list fobj.

Fixpoint key_eqb (k1 k2 : key) : bool :=
  match k1, k2 with
  | [], [] => true
  | a :: r1, b :: r2 => key_eq a b && key_eqb r1 r2
  | _, _ => false
  end.

Section Dict.
Context {K V : Type}.
Variable keq : K -> K -> bool.

(** [d[k]] / [k in d] *)
Fixpoint dget (k : K) (d : list (K * V)) : option V :=
  match d with
  | [] => None
  | (k', v) :: r => if keq k' k then Some v else dget k r
  end.

(** [d[k] = v]: an existing key keeps its place and stored key object. *)
Fixpoint dset (k : K) (v : V) (d : list (K * V)) : list (K * V) :=
  match d with
  | [] => [(k, v)]
  | (k', v') :: r => if keq k' k then (k', v) :: r else (k', v') :: dset k v r
  end.

End Dict.

(** A set of float objects; a float hashes as its value. *)
Definition fadd_set (x : fobj) (s : list fobj) : list fobj := PySet.add key_eq x s.
Definition fset_list (s : list fobj) : list fobj :=
  PySet.to_list (fun x => hash_float (fval x)) s.
Definition loc_add (l : location) (s : list location) : list location :=
  PySet.add location_eq l s.
Definition loc_list (s : list location) : list location :=
  PySet.to_list location_hash s.

Definition list_get {A} (l : list A) (i : nat) : result A :=
  match nth_error l i with Some a => Ok a | None => Raise IndexError end.

(** [str.split()] *)
Fixpoint split_aux (s cur : string) (acc : list string) : list string :=
  let flush := if String.eqb cur "" then acc else rev_str cur "" :: acc in
  match s with
  | EmptyString => rev flush
  | String c r => if is_space c then split_aux r "" flush else split_aux r (String c cur) acc
  end.

Definition split (s : string) : list string := split_aux s "" [].

(** [' '.join(l)] *)
Fixpoint join (l : list string) : string :=
  match l with
  | [] => ""
  | [a] => a
  | a :: r => (a ++ " " ++ join r)%string
  end.

(** [s[1:]] *)
Definition tail_str (s : string) : string :=
  String.substring 1 (String.length s - 1) s.

(** [a is not b] for two results of [len()]: CPython caches the int
    objects up to 256, larger ints are distinct objects. *)
Definition int_is_not (a b : nat) : bool := negb (Nat.eqb a b && (a <? 257)%nat).

(** [verif.util.warning] is not part of the sources. *)
(** Modelled from the spec: [verif.util.warning] logs its message and
    returns.  A warning is kept as the values its message is formatted
    from. *)
Inductive warning :=
| IgnoredLine (line : string)
| ConflictingLocation (curr stored : float * float * float).

(** ** Parsing state *)

(** An assignment [d[key] = v] to one of the sparse tables, named by the
    dict: the data row it was made in, the dict, the key and the value. *)
Definition write := (nat * string * key * float)%type.

Record tstate := mkState {
  s_units : string;
  s_variable : string;
  s_dates : list fobj;
  s_offsets : list fobj;
  s_locations : list location;
  s_quantiles : list fobj;
  s_thresholds : list fobj;
  s_obs : list (key * float);
  s_fcst : list (key * float);
  s_cdf : list (key * float);
  s_pit : list (key * float);
  s_x : list (key * float);
  s_indices : list (string * nat);
  s_header : option (list string);
  s_date : fobj;
  s_offset : fobj;
  s_location_info : list (fobj * location);
  s_shown : bool;
  s_warnings : list warning;
  s_stdout : list (float * float * float);
  s_next_obj : nat;
  (** the number of data rows read: the objects [float()] makes in the
      next data row are numbered by it *)
  s_row : nat;
  (** ghost: rows meeting the conflict test, reported or not *)
  s_conflicts : nat;
  (** ghost: the objects passed to [self._dates.add] and
      [self._offsets.add], in call order *)
  s_seen_dates : list fobj;
  s_seen_offsets : list fobj;
  (** ghost: the Location [locationInfo[id]] of each data row, in order *)
  s_seen_locs : list location;
  (** ghost: the assignments to the sparse tables, in program order *)
  s_log : list write
}.

Definition init : tstate :=
  mkState "Unknown units" "Unknown" [] [] [] [] [] [] [] [] [] [] [] None
          int_zero int_zero [] false [] [] 0 0 0 [] [] [] [].

(** [self._clean(value)]: [float(value)], with -999 turned into NaN. *)
Definition clean (value : string) : result float :=
  f <- py_float value ;;
  Ok (if feq f (of_Z (-999)) then nan else f).

(** The same call as an object: [float(value)] is the new object [me],
    and -999 is replaced by the object [np.nan]. *)
Definition clean_obj (me : ident) (value : string) : result fobj :=
  f <- py_float value ;;
  Ok (if feq f (of_Z (-999)) then np_nan else mkObj f me).

Definition field (idx : list (string * nat)) (row : list string) (name : string)
  : result float :=
  match dget String.eqb name idx with
  | Some i => v <- list_get row i ;; clean v
  | None => Raise IndexError
  end.

(** [row[indices[name]]] cleaned if [name in indices], else [default]; in
    data row [r]. *)
Definition field_or (idx : list (string * nat)) (r : nat) (row : list string)
  (name : string) (default : fobj) : result fobj :=
  match dget String.eqb name idx with
  | Some i => v <- list_get row i ;; clean_obj (Made r name 0) v
  | None => Ok default
  end.

Definition first_char_is (c : ascii) (att : string) : bool :=
  match String.get 0 att with Some c' => Ascii.eqb c c' | None => false end.

(** [_get_quantile_fields] and [_get_threshold_fields] *)
Definition quantile_fields (header : list string) : list string :=
  filter (first_char_is "q") header.
Definition threshold_fields (header : list string) : list string :=
  filter (fun att => first_char_is "p" att && negb (String.eqb att "pit")) header.

(** Header parsing: every branch of the [if] chain does [indices[att] = i]. *)
Definition header_indices (header : list string) : list (string * nat) :=
  fold_left (fun acc ia => dset String.eqb (snd ia) (fst ia) acc)
            (combine (seq 0 (length header)) header) [].

(** The loop over the quantile (or threshold) columns of data row [r],
    writing the dict [tname] ("x" or "cdf"); [j] counts the iterations. *)
Fixpoint level_loop (idx : list (string * nat)) (row : list string) (r : nat)
  (tname : string) (j : nat) (k5 : key) (fields : list string)
  (levels : list fobj) (tab : list (key * float)) (log : list write)
  : result (list fobj * list (key * float) * list write) :=
  match fields with
  | [] => Ok (levels, tab, log)
  | fld :: rest =>
      lv <- py_float (tail_str fld) ;;
      let level := mkObj lv (Made r tname j) in
      let levels := fadd_set level levels in
      let k := k5 ++ [level] in
      v <- field idx row fld ;;
      level_loop idx row r tname (S j) k5 rest levels (dset key_eqb k v tab)
                 (log ++ [(r, tname, k, v)])
  end.

Definition tol_latlon : float := lit "0.0001".
Definition tol_elev : float := lit "0.001".

(** The conflict test of input.py line 455. *)
Definition conflicts (currLat currLon currElev lat lon elev : float) : bool :=
  (negb (isnan currLat) && fgt (fabs (fsub currLat lat)) tol_latlon) ||
  (negb (isnan currLon) && fgt (fabs (fsub currLon lon)) tol_latlon) ||
  (negb (isnan currElev) && fgt (fabs (fsub currElev elev)) tol_elev).

(** The location resolution of lines 440-468: the new registration data
    (locations set, [locationInfo], next object identity) and the new
    warning state (flag, warnings, printed lines, ghost counter). *)
Definition resolve_location (st : tstate) (id currLat currLon currElev : fobj)
  : list location * list (fobj * location) * nat
    * (bool * list warning * list (float * float * float) * nat) :=
  let known := if isnan (fval id) then None else dget key_eq id (s_location_info st) in
  match known with
  | Some stored =>
      let lat := fval (loc_lat stored) in
      let lon := fval (loc_lon stored) in
      let elev := fval (loc_elev stored) in
      let cLat := fval currLat in
      let cLon := fval currLon in
      let cElev := fval currElev in
      let c := conflicts cLat cLon cElev lat lon elev in
      let ghost := (s_conflicts st + (if c then 1 else 0))%nat in
      if negb (s_shown st) && c then
        (s_locations st, s_location_info st, s_next_obj st,
         (true,
          s_warnings st ++ [ConflictingLocation (cLat, cLon, cElev) (lat, lon, elev)],
          s_stdout st ++ [(fsub cLat lat, fsub cLon lon, fsub cElev elev)],
          ghost))
      else
        (s_locations st, s_location_info st, s_next_obj st,
         (s_shown st, s_warnings st, s_stdout st, ghost))
  | None =>
      let cl := if isnan (fval currLat) then int_zero else currLat in
      let cn := if isnan (fval currLon) then int_zero else currLon in
      let ce := if isnan (fval currElev) then int_zero else currElev in
      let location := mkLocation (s_next_obj st) (fval id) cl cn ce in
      (loc_add location (s_locations st),
       dset key_eq id location (s_location_info st),
       S (s_next_obj st),
       (s_shown st, s_warnings st, s_stdout st, s_conflicts st))
  end.

(** A data row (lines 425-489). *)
Definition data_row (st : tstate) (header : list string) (rowstr : string)
  (row : list string) : result tstate :=
  let idx := s_indices st in
  let r := s_row st in
  _ <- (if int_is_not (length row) (length header)
        then util_error ("Incorrect number of columns (expecting "
                         ++ str_Z (Z.of_nat (length header)) ++ ") in row '"
                         ++ strip rowstr ++ "'")%string
        else Ok tt) ;;
  date <- field_or idx r row "date" (s_date st) ;;
  let dates := fadd_set date (s_dates st) in
  offset <- field_or idx r row "offset" (s_offset st) ;;
  let offsets := fadd_set offset (s_offsets st) in
  id <- field_or idx r row "id" np_nan ;;
  currLat <- field_or idx r row "lat" np_nan ;;
  currLon <- field_or idx r row "lon" np_nan ;;
  currElev <- field_or idx r row "elev" np_nan ;;
  let '(locs, info, nobj, (shown, warns, out, ghost)) :=
      resolve_location st id currLat currLon currElev in
  loc <- (match dget key_eq id info with Some l => Ok l | None => Raise IndexError end) ;;
  let k5 := [date; offset; loc_lat loc; loc_lon loc; loc_elev loc] in
  o <- field idx row "obs" ;;
  f <- field idx row "fcst" ;;
  let log := s_log st ++ [(r, "obs"%string, k5, o); (r, "fcst"%string, k5, f)] in
  pl <- (if existsb (fun kv => String.eqb (fst kv) "pit") idx
         then (p <- field idx row "pit" ;;
               Ok (dset key_eqb k5 p (s_pit st), log ++ [(r, "pit"%string, k5, p)]))
         else Ok (s_pit st, log)) ;;
  qx <- level_loop idx row r "x" 0 k5 (quantile_fields header) (s_quantiles st) (s_x st)
          (snd pl) ;;
  let '(qs, xs, log) := qx in
  tc <- level_loop idx row r "cdf" 0 k5 (threshold_fields header) (s_thresholds st) (s_cdf st)
          log ;;
  let '(ts, cdfs, log) := tc in
  Ok (mkState (s_units st) (s_variable st) dates offsets locs qs ts
              (dset key_eqb k5 o (s_obs st)) (dset key_eqb k5 f (s_fcst st))
              cdfs (fst pl) xs idx (s_header st) date offset info shown
              warns out nobj (S r) ghost
              (s_seen_dates st ++ [date]) (s_seen_offsets st ++ [offset])
              (s_seen_locs st ++ [loc]) log).

Definition in_indices (idx : list (string * nat)) (col : string) : bool :=
  match dget String.eqb col idx with Some _ => true | None => false end.

(** One line of the file (lines 386-489). *)
Definition process_line (filename : string) (st : tstate) (rowstr : string)
  : result tstate :=
  c <- char_at rowstr 0 ;;
  if Ascii.eqb c "#" then
    let curr := split (tail_str rowstr) in
    w <- list_get curr 0 ;;
    if String.eqb w "variable:" then
      Ok (mkState (s_units st) (join (tl curr)) (s_dates st) (s_offsets st)
            (s_locations st) (s_quantiles st) (s_thresholds st) (s_obs st) (s_fcst st)
            (s_cdf st) (s_pit st) (s_x st) (s_indices st) (s_header st) (s_date st)
            (s_offset st) (s_location_info st) (s_shown st) (s_warnings st)
            (s_stdout st) (s_next_obj st) (s_row st) (s_conflicts st)
            (s_seen_dates st) (s_seen_offsets st) (s_seen_locs st) (s_log st))
    else if String.eqb w "units:" then
      u <- list_get curr 1 ;;
      Ok (mkState u (s_variable st) (s_dates st) (s_offsets st)
            (s_locations st) (s_quantiles st) (s_thresholds st) (s_obs st) (s_fcst st)
            (s_cdf st) (s_pit st) (s_x st) (s_indices st) (s_header st) (s_date st)
            (s_offset st) (s_location_info st) (s_shown st) (s_warnings st)
            (s_stdout st) (s_next_obj st) (s_row st) (s_conflicts st)
            (s_seen_dates st) (s_seen_offsets st) (s_seen_locs st) (s_log st))
    else
      Ok (mkState (s_units st) (s_variable st) (s_dates st) (s_offsets st)
            (s_locations st) (s_quantiles st) (s_thresholds st) (s_obs st) (s_fcst st)
            (s_cdf st) (s_pit st) (s_x st) (s_indices st) (s_header st) (s_date st)
            (s_offset st) (s_location_info st) (s_shown st)
            (s_warnings st ++ [IgnoredLine (strip rowstr)])
            (s_stdout st) (s_next_obj st) (s_row st) (s_conflicts st)
            (s_seen_dates st) (s_seen_offsets st) (s_seen_locs st) (s_log st))
  else
    let row := split rowstr in
    match s_header st with
    | None =>
        let idx := header_indices row in
        _ <- (if in_indices idx "obs" then Ok tt
              else util_error ("Could not parse " ++ filename ++ ": Missing column 'obs'")%string) ;;
        _ <- (if in_indices idx "fcst" then Ok tt
              else util_error ("Could not parse " ++ filename ++ ": Missing column 'fcst'")%string) ;;
        Ok (mkState (s_units st) (s_variable st) (s_dates st) (s_offsets st)
              (s_locations st) (s_quantiles st) (s_thresholds st) (s_obs st) (s_fcst st)
              (s_cdf st) (s_pit st) (s_x st) idx (Some row) (s_date st)
              (s_offset st) (s_location_info st) (s_shown st) (s_warnings st)
              (s_stdout st) (s_next_obj st) (s_row st) (s_conflicts st)
              (s_seen_dates st) (s_seen_offsets st) (s_seen_locs st) (s_log st))
    | Some header => data_row st header rowstr row
    end.

(** The reading loop [for rowstr in file]; a line is what the file
    iteration yields (with its newline, non-empty). *)
Fixpoint parse_lines (filename : string) (st : tstate) (lines : list string)
  : result tstate :=
  match lines with
  | [] => Ok st
  | l :: r => st' <- process_line filename st l ;; parse_lines filename st' r
  end.

(** ** Dense assembly and deferred ids (lines 493-560) *)

(** The cell stays NaN unless [key in tab]. *)
Definition lookup_or_nan (tab : list (key * float)) (k : key) : float :=
  match dget key_eqb k tab with Some v => v | None => nan end.

Definition dense3 (tab : list (key * float)) (dates offsets : list fobj)
  (locs : list location) : list (list (list float)) :=
  map (fun d => map (fun o => map (fun l =>
         lookup_or_nan tab [d; o; loc_lat l; loc_lon l; loc_elev l]) locs) offsets) dates.

Definition dense4 (tab : list (key * float)) (dates offsets : list fobj)
  (locs : list location) (levels : list fobj) : list (list (list (list float))) :=
  map (fun d => map (fun o => map (fun l => map (fun q =>
         lookup_or_nan tab [d; o; loc_lat l; loc_lon l; loc_elev l; q]) levels)
       locs) offsets) dates.

(** [maxLocationId] loop *)
Fixpoint max_location_id (locs : list location) (m : float) : float :=
  match locs with
  | [] => m
  | l :: r =>
      max_location_id r
        (if isnan m then loc_id l else if fgt (loc_id l) m then loc_id l else m)
  end.

(** Assignment loop: the Location objects are updated in place. *)
Fixpoint assign_ids (locs : list location) (counter : float) : list location :=
  match locs with
  | [] => []
  | l :: r =>
      if isnan (loc_id l)
      then mkLocation (loc_obj l) counter (loc_lat l) (loc_lon l) (loc_elev l)
             :: assign_ids r (fadd counter (of_Z 1))
      else l :: assign_ids r counter
  end.

Definition deferred_ids (locs : list location) : list location :=
  let m := max_location_id locs nan in
  let counter := if negb (isnan m) then fadd m (of_Z 1) else fzero in
  assign_ids locs counter.

(** The attributes of a [Text] input.  [np.array] of a list of floats
    keeps their values. *)
Record snapshot := mkSnapshot {
  dates : list float;
  offsets : list float;
  locations : list location;
  thresholds : list float;
  quantiles : list float;
  obs : list (list (list float));
  deterministic : list (list (list float));
  pit : option (list (list (list float)));
  threshold_scores : list (list (list (list float)));
  quantile_scores : list (list (list (list float)));
  variable : string * string
}.

Definition finish (st : tstate) : snapshot :=
  let ds := fset_list (s_dates st) in
  let os := fset_list (s_offsets st) in
  let ls := loc_list (s_locations st) in
  let qs := fset_list (s_quantiles st) in
  let ts := fset_list (s_thresholds st) in
  mkSnapshot (map fval ds) (map fval os) (deferred_ids ls) (map fval ts) (map fval qs)
    (dense3 (s_obs st) ds os ls) (dense3 (s_fcst st) ds os ls)
    (match s_pit st with [] => None | _ => Some (dense3 (s_pit st) ds os ls) end)
    (dense4 (s_cdf st) ds os ls ts) (dense4 (s_x st) ds os ls qs)
    (s_variable st, s_units st).

(** [Text(filename)] on a file with these lines. *)
Definition load (filename : string) (lines : list string) : result snapshot :=
  st <- parse_lines filename init lines ;; Ok (finish st).

(** The state with other sparse tables (obs, fcst, cdf, pit, x) and
    another log of assignments. *)
Definition with_tables (st : tstate)
  (o f c p x : list (key * float)) (log : list write) : tstate :=
  mkState (s_units st) (s_variable st) (s_dates st) (s_offsets st)
    (s_locations st) (s_quantiles st) (s_thresholds st) o f c p x
    (s_indices st) (s_header st) (s_date st) (s_offset st)
    (s_location_info st) (s_shown st) (s_warnings st) (s_stdout st)
    (s_next_obj st) (s_row st) (s_conflicts st) (s_seen_dates st) (s_seen_offsets st)
    (s_seen_locs st) log.

(** Number of conflict warnings among the emitted warnings. *)
Definition count_conflict_warnings (ws : list warning) : nat :=
  length (filter (fun w => match w with ConflictingLocation _ _ => true | _ => false end) ws).

End Text.

(* ================================================================= *)
(** ** The NetCDF-CF decoder's quantiles ([NetcdfCf._get_quantiles],
    input.py lines 322-323) *)

Module NetcdfCf.
Import Py.

(** The variables of the opened file, by name, as the arrays they hold. *)
Definition variables := list (string * list float).

(** [self._file.variables[name]] *)
Definition variable (vars : variables) (name : string) : result (list float) :=
  match find (fun kv => String.eqb (fst kv) name) vars with
  | Some kv => Ok (snd kv)
  | None => Raise KeyError
  end.

(** [verif.util.clean] is not part of the sources. *)
(** Modelled from the spec: the numeric-cleaning utility maps the sentinel
    -999 to not-a-number and passes every other value through unchanged. *)
Definition util_clean (a : list float) : list float :=
  map (fun x => if feq x (of_Z (-999)) then nan else x) a.

(** [_get_quantiles]: [verif.util.clean(self._file.variables["quantiles"])];
    [__init__] stores it as [self.quantiles]. *)
Definition get_quantiles (vars : variables) : result (list float) :=
  q <- variable vars "quantiles" ;; Ok (util_clean q).

End NetcdfCf.

(* ================================================================= *)
(** ** Dataset names ([Input.name], [Input.shortname], input.py lines
    62-74) *)

Module InputNames.
Import Py.

(** [s.rfind(c)] for a one-character [c]: the index of the last
    occurrence, or -1. *)
Fixpoint rfind_from (c : ascii) (s : string) (i found : Z) : Z :=
  match s with
  | EmptyString => found
  | String c' r => rfind_from c r (i + 1) (if Ascii.eqb c c' then i else found)
  end.

Definition rfind (c : ascii) (s : string) : Z := rfind_from c s 0 (-1).

(** A slice bound [i] of [s[i:]] or [s[:i]] for a string of length [n]:
    a negative bound counts from the end, then the bound is clamped to
    [[0, n]]. *)
Definition slice_bound (i : Z) (n : nat) : nat :=
  let n' := Z.of_nat n in
  Z.to_nat (if i <? 0 then Z.max 0 (n' + i) else Z.min i n').

(** [s[i:]] and [s[:i]] *)
Definition slice_from (s : string) (i : Z) : string :=
  let b := slice_bound i (String.length s) in
  String.substring b (String.length s - b) s.

Definition slice_to (s : string) (i : Z) : string :=
  String.substring 0 (slice_bound i (String.length s)) s.

(** [Input.name]: [fullname[fullname.rfind('/') + 1:]] *)
Definition input_name (fullname : string) : string :=
  slice_from fullname (rfind "/" fullname + 1).

(** [Input.shortname]: [name[:name.rfind('.')]] *)
Definition input_shortname (fullname : string) : string :=
  let nm := input_name fullname in
  slice_to nm (rfind "." nm).

End InputNames.

(* ================================================================= *)
(** ** Auxiliary definitions for stating properties *)

Module FloatRank.
Import Py.

(** [SFcompare] on non-NaN floats is the lexicographic order of a rank:
    class, then exponent, then mantissa (both negated for negative
    numbers). *)
Definition lexcmp (a b : Z * Z * Z) : comparison :=
  let '(a1, a2, a3) := a in
  let '(b1, b2, b3) := b in
  match Z.compare a1 b1 with
  | Eq => match Z.compare a2 b2 with Eq => Z.compare a3 b3 | c => c end
  | c => c
  end.

Definition rank (f : float) : Z * Z * Z :=
  match f with
  | S754_infinity true => (0, 0, 0)
  | S754_finite true m e => (1, - e, - Z.pos m)
  | S754_zero _ => (2, 0, 0)
  | S754_finite false m e => (3, e, Z.pos m)
  | S754_infinity false => (4, 0, 0)
  | S754_nan => (5, 0, 0)
  end.

End FloatRank.

Module Samples.
Import Py Detect.

(** A file system with one plain text file. *)
Definition fs_example : fs :=
  fun p => if String.eqb p "data.txt" then Some (Plain ["obs fcst"%string]) else None.

End Samples.

Module Views.
Import Py Text.

(** No element is equal to another one as a set element ([key_eq]): the
    objects are pairwise distinct. *)
Definition distinct_values (l : list fobj) : Prop :=
  NoDup l /\ forall a b, In a l -> In b l -> key_eq a b = true -> a = b.

(** The set [s] holds the objects [seen] added to it: pairwise distinct,
    drawn from [seen], and covering every object of [seen] up to
    [key_eq]. *)
Definition set_of (s seen : list fobj) : Prop :=
  distinct_values s /\ (forall x, In x s -> In x seen) /\
  (forall x, In x seen -> exists y, In y s /\ key_eq x y = true).

(** The sparse key [(date, offset, lat, lon, elev)] of a row at a location. *)
Definition row_key (date offset : fobj) (loc : location) : key :=
  [date; offset; loc_lat loc; loc_lon loc; loc_elev loc].

(** Cells of the dense arrays: [a[i][j][k]] and [a[i][j][k][t]]. *)
Definition cell3 (a : list (list (list float))) (i j k : nat) : option float :=
  match nth_error a i with
  | Some r => match nth_error r j with Some c => nth_error c k | None => None end
  | None => None
  end.

Definition cell4 (a : list (list (list (list float)))) (i j k t : nat) : option float :=
  match nth_error a i with
  | Some r => match nth_error r j with
              | Some c => match nth_error c k with Some v => nth_error v t | None => None end
              | None => None end
  | None => None
  end.

(** The value of the last assignment to the dict [tname] under a key
    equal to [k] in the log, or [acc] when there is none. *)
Fixpoint last_write (tname : string) (k : key) (log : list write) (acc : option float)
  : option float :=
  match log with
  | [] => acc
  | (_, t, k', v) :: rest =>
      last_write tname k rest (if String.eqb t tname && key_eqb k' k then Some v else acc)
  end.

(** What a dense cell of the dict [tname] with key [k] holds: the last
    value assigned under [k], or NaN. *)
Definition logged (tname : string) (k : key) (log : list write) : float :=
  match last_write tname k log None with Some v => v | None => nan end.

(** The name and the data row of an assignment of the log. *)
Definition w_row (w : write) : nat := fst (fst (fst w)).
Definition w_table (w : write) : string := snd (fst (fst w)).

Definition w_key (w : write) : key := snd (fst w).

(** The ghost lists have one entry per data row, and every assignment of
    the log was made in one of the rows read, under a key that starts with
    that row's date, offset and Location coordinates. *)
Definition rows_inv (st : tstate) : Prop :=
  length (s_seen_dates st) = s_row st /\ length (s_seen_offsets st) = s_row st /\
  length (s_seen_locs st) = s_row st /\
  forall w, In w (s_log st) -> exists d o l rest,
    nth_error (s_seen_dates st) (w_row w) = Some d /\
    nth_error (s_seen_offsets st) (w_row w) = Some o /\
    nth_error (s_seen_locs st) (w_row w) = Some l /\
    w_key w = row_key d o l ++ rest.

(** No data row read has the sparse key [(d, o, lat, lon, elev)] of the
    location [l]: the combination is absent from the input rows. *)
Definition row_absent (st : tstate) (d o : fobj) (l : location) : Prop :=
  forall r d' o' l', nth_error (s_seen_dates st) r = Some d' ->
    nth_error (s_seen_offsets st) r = Some o' -> nth_error (s_seen_locs st) r = Some l' ->
    key_eqb (row_key d' o' l') (row_key d o l) = false.

(** A table agrees with the log: each key holds the last value assigned
    to the dict [t] under an equal key. *)
Definition agrees (t : string) (tab : list (key * float)) (log : list write) : Prop :=
  forall k, dget key_eqb k tab = last_write t k log None.

(** The five sparse tables of the state agree with its log. *)
Definition tables_agree (st : tstate) : Prop :=
  agrees "obs" (s_obs st) (s_log st) /\ agrees "fcst" (s_fcst st) (s_log st) /\
  agrees "pit" (s_pit st) (s_log st) /\ agrees "x" (s_x st) (s_log st) /\
  agrees "cdf" (s_cdf st) (s_log st).

(** Shapes [(n, m, p)] and [(n, m, p, q)] of nested lists. *)
Definition shape3 (a : list (list (list float))) (n m p : nat) : Prop :=
  length a = n /\ Forall (fun r => length r = m /\ Forall (fun c => length c = p) r) a.

Definition shape4 (a : list (list (list (list float)))) (n m p q : nat) : Prop :=
  length a = n /\
  Forall (fun r => length r = m /\
    Forall (fun c => length c = p /\ Forall (fun v => length v = q) c) r) a.

(** Locations whose id is still the sentinel, and whether any has an id. *)
Definition count_unassigned (l : list location) : nat :=
  length (filter (fun l => isnan (loc_id l)) l).

Definition has_assigned (l : list location) : bool :=
  existsb (fun l => negb (isnan (loc_id l))) l.

(** The computation raised [verif.util.error]. *)
Definition raises_verif_error {A} (r : result A) : bool :=
  match r with Raise (VerifError _) => true | _ => false end.

(** A character occurs in a string. *)
Definition has_char (c : ascii) (s : string) : Prop := In c (list_ascii_of_string s).

(** A comment line of a text file starts with [#]. *)
Definition is_comment (l : string) : bool :=
  match l with String c _ => Ascii.eqb c "#" | EmptyString => false end.

(** The fields of the first line that is not a comment: the header. *)
Fixpoint first_header (lines : list string) : option (list string) :=
  match lines with
  | [] => None
  | l :: r => if is_comment l then first_header r else Some (split l)
  end.

(** The number of data lines: lines that are not comments, after the
    header line ([header_seen] tells whether it came already). *)
Fixpoint data_lines (header_seen : bool) (lines : list string) : nat :=
  match lines with
  | [] => O
  | l :: r =>
      if is_comment l then data_lines header_seen r
      else if header_seen then S (data_lines true r) else data_lines true r
  end.

(** A level column ([q...], or [p...] other than [pit]) whose name does
    not end in a number. *)
Definition bad_level_column (header : list string) (fld : string) : Prop :=
  (In fld (quantile_fields header) \/ In fld (threshold_fields header)) /\
  float_of_string (tail_str fld) = None.

(** The registration invariant of the text decoder: every location of
    the set has an object identity below the next one, coordinates that
    are numbers, and, when its id is a number, is the value stored under
    its id in [locationInfo]; the object identities are distinct. *)
Definition loc_inv (locs : list location) (info : list (fobj * location)) (next : nat) : Prop :=
  (forall l, In l locs ->
     (loc_obj l < next)%nat /\
     isnan (fval (loc_lat l)) = false /\ isnan (fval (loc_lon l)) = false /\
     isnan (fval (loc_elev l)) = false /\
     (isnan (loc_id l) = false -> forall i, fval i = loc_id l -> dget key_eq i info = Some l)) /\
  NoDup (map loc_obj locs).

(** The invariant of the reading loop: before the header nothing was
    read; after it the indices are those of the header, which has the
    required columns, and the defaults, the pit table, the location count
    and the rows read agree with the header's columns. *)
Definition text_inv (st : tstate) : Prop :=
  loc_inv (s_locations st) (s_location_info st) (s_next_obj st) /\
  (s_seen_dates st = [] ->
     s_dates st = [] /\ s_offsets st = [] /\ s_locations st = [] /\ s_pit st = []) /\
  match s_header st with
  | None => s_seen_dates st = [] /\ s_date st = int_zero /\ s_offset st = int_zero
  | Some h =>
      s_indices st = header_indices h /\
      In "obs"%string h /\ In "fcst"%string h /\
      (~ In "date"%string h -> s_date st = int_zero /\ forall d, In d (s_dates st) -> d = int_zero) /\
      (~ In "offset"%string h -> s_offset st = int_zero /\ forall o, In o (s_offsets st) -> o = int_zero) /\
      (~ In "pit"%string h -> s_pit st = []) /\
      (In "pit"%string h -> s_seen_dates st <> [] -> s_pit st <> []) /\
      (~ In "id"%string h -> length (s_locations st) = length (s_seen_dates st)) /\
      (forall fld, bad_level_column h fld -> s_seen_dates st = [])
  end.

(** The words after [key] in the last comment line whose first word is
    [key] ([acc] when there is none). *)
Fixpoint last_words (key : string) (lines : list string) (acc : option (list string))
  : option (list string) :=
  match lines with
  | [] => acc
  | l :: r =>
      last_words key r
        (if is_comment l then
           match split (tail_str l) with
           | w :: ws => if String.eqb w key then Some ws else acc
           | [] => acc
           end
         else acc)
  end.

(** The variable name given by the words of a [variable:] comment, and the
    units given by those of a [units:] comment, with the defaults of
    [Text.__init__]. *)
Definition variable_view (acc : option (list string)) : string :=
  match acc with Some ws => join ws | None => "Unknown"%string end.
Definition units_view (acc : option (list string)) : string :=
  match acc with Some (u :: _) => u | _ => "Unknown units"%string end.

End Views.

Module TextSamples.
Import Py Text.

Definition nl : string := String (ascii_of_nat 10) "".

(** The lines of a file, each with its newline. *)
Definition lines_of (ls : list string) : list string := map (fun s => (s ++ nl)%string) ls.

(** A header of 257 columns and a row of 257 fields. *)
Definition wide_header : string :=
  join ("obs"%string :: "fcst"%string :: map (fun n => ("c" ++ str_Z (Z.of_nat n))%string) (seq 3 255)).
Definition wide_row : string := join (repeat "1"%string 257).
Definition sample_wide : list string := lines_of [wide_header; wide_row].

Definition sample_bad_value : list string := lines_of ["obs fcst"; "abc 1"]%string.

(** Two locations with ids 1 and 2 and the default coordinates. *)
Definition sample_shared_coords : list string :=
  lines_of ["date id obs fcst"; "1 1 5 5"; "2 2 6 6"]%string.

(** Five rows without an id column: five locations. *)
Definition sample_no_ids : list string :=
  lines_of ["obs fcst"; "1 1"; "2 2"; "3 3"; "4 4"; "5 5"]%string.

(** A percentile column [q50]. *)
Definition sample_quantile : list string := lines_of ["obs fcst q50"; "1 1 2"]%string.

(** Dates in decreasing order. *)
Definition sample_dates : list string := lines_of ["date obs fcst"; "2 1 1"; "1 1 1"]%string.

(** Three rows of location 1, the last two with conflicting latitudes. *)
Definition sample_conflicts : list string :=
  lines_of ["id lat obs fcst"; "1 0 1 1"; "1 5 2 2"; "1 6 3 3"]%string.

(** Two rows whose date is the text [nan]. *)
Definition sample_nan_dates : list string :=
  lines_of ["date obs fcst"; "nan 1 1"; "nan 2 2"]%string.

(** Two rows with the same date, offset and location. *)
Definition sample_duplicate : list string := lines_of ["date obs fcst"; "1 1 1"; "1 2 2"]%string.

(** Two rows with the same key and a quantile column [qnan]. *)
Definition sample_nan_level : list string :=
  lines_of ["date obs fcst qnan"; "1 1 1 7"; "1 2 2 8"]%string.

Definition empty_snapshot : snapshot :=
  mkSnapshot [] [] [] [] [] [] [] None [] [] (""%string, ""%string).

Definition snapshot_of (r : result snapshot) : snapshot :=
  match r with Ok s => s | Raise _ => empty_snapshot end.

Definition state_of (r : result tstate) : tstate :=
  match r with Ok st => st | Raise _ => init end.

Definition header_of (st : tstate) : list string :=
  match s_header st with Some h => h | None => [] end.

(** The parser state after the first [n] lines of [ls]. *)
Definition prefix_state (ls : list string) (n : nat) : tstate :=
  state_of (parse_lines "f" init (firstn n ls)).

(** Line [n] of [ls] as a data row, read in the state after the lines
    before it. *)
Definition row_line (ls : list string) (n : nat) : string := nth n ls ""%string.

Definition row_state (ls : list string) (n : nat) : tstate :=
  let st := prefix_state ls n in
  state_of (data_row st (header_of st) (row_line ls n) (split (row_line ls n))).

Definition registered (st : tstate) (i : fobj) : location :=
  match dget key_eq i (s_location_info st) with
  | Some l => l
  | None => mkLocation 0 nan np_nan np_nan np_nan
  end.

(** Metadata comments: a two-word variable name and two-word units. *)
Definition sample_meta : list string :=
  lines_of ["# variable: Air temperature"; "# units: m s-1"; "obs fcst"; "1 1"]%string.

(** A [pit] column. *)
Definition sample_pit : list string := lines_of ["obs fcst pit"; "1 1 0.5"]%string.

(** A percentile column whose level is not a number, and no rows. *)
Definition sample_bad_level : list string := lines_of ["obs fcst qx"]%string.

End TextSamples.

(* ================================================================= *)
(** * Properties *)

(* ----------------------------------------------------------------- *)
(** ** The naming codec *)

Module CodecFacts.
Import Py Codec.

(** C1 (code_bug).  Round trip of the COMPS codec on the spec's samples:
    every sample quantile and the thresholds -2, 0, 0.3, 5 come back, but
    -0.5 is encoded as [pm05], which decodes to -5: the decoder turns [m]
    into [-] before it looks for [p0], so [p-05] never has its decimal point
    restored. *)
Theorem codec_roundtrip_threshold_m05_fails :
  verif_to_comps_threshold (lit "-0.5") = Ok "pm05"%string /\
  comps_to_verif_threshold "pm05" = Ok (Some (lit "-5")) /\
  map threshold_roundtrips threshold_sample = [true; false; true; true; true] /\
  map quantile_roundtrips quantile_sample = [true; true; true; true].
Proof. repeat split; vm_compute; reflexivity. Qed.

End CodecFacts.

(* ----------------------------------------------------------------- *)
(** ** Format detection *)

Module DetectFacts.
Import Py Detect.

(** C2 (code_bug).  [Comps.is_valid] accepts exactly the readable NetCDF
    files that either have no [Convensions] attribute or have a
    [Convension] attribute, whatever its value: it returns [True] after
    computing [valid], and only the [AttributeError] of reading the missing
    [Convension] attribute makes it return [False]. *)
Theorem comps_is_valid_characterization :
  forall (fsys : fs) (filename : string),
    comps_is_valid fsys filename = true <->
    exists attrs, fsys filename = Some (NetCDF attrs) /\
      (hasattr attrs "Convensions" = false \/ hasattr attrs "Convension" = true).
Proof.
  intros fsys filename.
  unfold comps_is_valid, comps_is_valid_try, netcdf_open.
  destruct (fsys filename) as [[attrs|lines]|]; simpl.
  - unfold getattr, hasattr.
    destruct (existsb (fun kv => String.eqb (fst kv) "Convensions") attrs) eqn:H1;
      simpl.
    + destruct (find (fun kv => String.eqb (fst kv) "Convension") attrs) as [kv|] eqn:H2;
        simpl.
      * split; [intros _|auto]. exists attrs. split; [reflexivity|right].
        apply existsb_exists. apply find_some in H2. exists kv. exact H2.
      * split; [discriminate|]. intros [a [Ha [Hc|Hc]]]; inversion Ha; subst.
        { congruence. }
        { apply existsb_exists in Hc. destruct Hc as [kv [Hin Heq]].
          apply (find_none _ _ H2) in Hin. congruence. }
    + split; [intros _|auto]. exists attrs. auto.
  - split; [discriminate|]. intros [a [Ha _]]. discriminate.
  - split; [discriminate|]. intros [a [Ha _]]. discriminate.
Qed.

(** C3.  [get_input] on a missing path fails with the file-not-found error
    and calls no [is_valid]; on an existing path it calls the [is_valid]
    predicates in the order [NetcdfCf, Comps, Text] up to the first that
    accepts and returns that decoder's construction; [Text.is_valid] always
    accepts, so the "not a valid input file" branch is never reached. *)
Theorem get_input_dispatch :
  forall {Input : Type} (construct : decoder -> string -> result Input)
         (fsys : fs) (filename : string),
    (fsys filename = None ->
     get_input construct fsys filename =
       ([], Raise (VerifError ("File '" ++ filename ++ "' does not exist")))) /\
    (fsys filename <> None ->
     exists n d,
       (n < 3)%nat /\ nth_error priority n = Some d /\
       is_valid d fsys filename = true /\
       (forall k d', (k < n)%nat -> nth_error priority k = Some d' ->
                     is_valid d' fsys filename = false) /\
       get_input construct fsys filename = (firstn (S n) priority, construct d filename)) /\
    (forall fs' f', text_is_valid fs' f' = true).
Proof.
  intros Input construct fsys filename. split; [|split].
  - intros H. unfold get_input, exists_path. rewrite H. reflexivity.
  - intros H. unfold get_input, exists_path.
    destruct (fsys filename) eqn:E; [|congruence]. simpl.
    destruct (netcdfcf_is_valid fsys filename) eqn:V1.
    + exists 0%nat, DNetcdfCf. repeat split; auto. intros k d' Hk; lia.
    + destruct (comps_is_valid fsys filename) eqn:V2.
      * exists 1%nat, DComps. repeat split; auto.
        intros k d' Hk Hn. destruct k as [|k]; [|lia].
        inversion Hn; subst. exact V1.
      * exists 2%nat, DText. repeat split; auto.
        intros k d' Hk Hn. destruct k as [|[|k]]; [| |lia];
          inversion Hn; subst; assumption.
  - reflexivity.
Qed.

End DetectFacts.

Module DetectWitness.
Import Py Detect Samples.

Lemma get_input_dispatch_witness :
  get_input (fun d _ => Ok d) fs_example "missing.nc" =
    ([], Raise (VerifError ("File '" ++ "missing.nc" ++ "' does not exist"))) /\
  (exists n d,
     (n < 3)%nat /\ nth_error priority n = Some d /\
     is_valid d fs_example "data.txt" = true /\
     (forall k d', (k < n)%nat -> nth_error priority k = Some d' ->
                   is_valid d' fs_example "data.txt" = false) /\
     get_input (fun d _ => Ok d) fs_example "data.txt" =
       (firstn (S n) priority, Ok d)).
Proof.
  split.
  - apply (proj1 (DetectFacts.get_input_dispatch (fun d _ => Ok d) fs_example "missing.nc")).
    reflexivity.
  - apply (proj1 (proj2 (DetectFacts.get_input_dispatch (fun d _ => Ok d) fs_example "data.txt"))).
    vm_compute. discriminate.
Defined.

End DetectWitness.

(* ----------------------------------------------------------------- *)
(** ** Order and equality of floats *)

Module FloatFacts.
Import Py FloatRank.

Lemma neg_compare (x y : Z) : Z.compare (- x) (- y) = CompOpp (Z.compare x y).
Proof. rewrite Z.compare_opp. apply Z.compare_antisym. Qed.

Lemma compare_rank (f g : float) :
  isnan f = false -> isnan g = false ->
  SFcompare f g = Some (lexcmp (rank f) (rank g)).
Proof.
  intros Hf Hg.
  destruct f as [sf|sf| |sf mf ef]; try discriminate;
  destruct g as [sg|sg| |sg mg eg]; try discriminate;
  try destruct sf; try destruct sg; simpl; try reflexivity;
  rewrite ?neg_compare; destruct (Z.compare ef eg); reflexivity.
Qed.

Ltac lex_cases :=
  repeat match goal with
  | |- context [Z.compare ?x ?y] => destruct (Z.compare_spec x y)
  | H : context [Z.compare ?x ?y] |- _ => destruct (Z.compare_spec x y)
  end.

Lemma lexcmp_eq (a b : Z * Z * Z) : lexcmp a b = Eq <-> a = b.
Proof.
  destruct a as [[a1 a2] a3], b as [[b1 b2] b3]; simpl.
  split.
  - intros H. lex_cases; subst; congruence.
  - intros H. inversion H; subst. rewrite !Z.compare_refl. reflexivity.
Qed.

Lemma lexcmp_antisym (a b : Z * Z * Z) : lexcmp b a = CompOpp (lexcmp a b).
Proof.
  destruct a as [[a1 a2] a3], b as [[b1 b2] b3]; simpl.
  destruct (Z.compare_spec a1 b1), (Z.compare_spec b1 a1); try lia;
  destruct (Z.compare_spec a2 b2), (Z.compare_spec b2 a2); try lia;
  destruct (Z.compare_spec a3 b3), (Z.compare_spec b3 a3); try lia;
  reflexivity.
Qed.

Lemma lexcmp_le_lt (a b c : Z * Z * Z) :
  lexcmp a b <> Gt -> lexcmp b c = Lt -> lexcmp a c = Lt.
Proof.
  destruct a as [[a1 a2] a3], b as [[b1 b2] b3], c as [[c1 c2] c3]; simpl.
  intros H1 H2.
  destruct (Z.compare_spec a1 b1); destruct (Z.compare_spec b1 c1);
  try congruence;
  destruct (Z.compare_spec a1 c1); try congruence; try lia;
  destruct (Z.compare_spec a2 b2); destruct (Z.compare_spec b2 c2);
  try congruence;
  destruct (Z.compare_spec a2 c2); try congruence; try lia;
  destruct (Z.compare_spec a3 b3); destruct (Z.compare_spec b3 c3);
  try congruence;
  destruct (Z.compare_spec a3 c3); try congruence; try lia.
Qed.

(** [==] on floats compares ranks; NaN equals nothing. *)
Lemma feq_rank (a b : float) :
  feq a b = true <-> isnan a = false /\ isnan b = false /\ rank a = rank b.
Proof.
  destruct (isnan a) eqn:Ha.
  { destruct a; try discriminate. split; [discriminate|intuition discriminate]. }
  destruct (isnan b) eqn:Hb.
  { destruct b; try discriminate. destruct a; try discriminate;
      split; try discriminate; intuition discriminate. }
  unfold feq, SFeqb. rewrite compare_rank by assumption.
  rewrite <- lexcmp_eq.
  destruct (lexcmp (rank a) (rank b)); intuition discriminate.
Qed.

Lemma ident_eqb_eq (a b : ident) : ident_eqb a b = true <-> a = b.
Proof.
  destruct a as [| |r s j], b as [| |r' s' j']; simpl; try (intuition discriminate).
  rewrite !andb_true_iff, !Nat.eqb_eq, String.eqb_eq.
  split; [intros [[-> ->] ->]; reflexivity|intros H; inversion H; auto].
Qed.

(** [key_eq] is an equivalence: two NaN objects are equal when they are
    the same object, two numbers when they have the same rank. *)
Lemma key_eq_rank (a b : fobj) :
  key_eq a b = true <->
  (isnan (fval a) = true /\ isnan (fval b) = true /\ fid a = fid b) \/
  (isnan (fval a) = false /\ isnan (fval b) = false /\ rank (fval a) = rank (fval b)).
Proof.
  unfold key_eq. rewrite orb_true_iff, !andb_true_iff, feq_rank, ident_eqb_eq.
  destruct (isnan (fval a)), (isnan (fval b)); intuition congruence.
Qed.

Lemma key_eq_refl (a : fobj) : key_eq a a = true.
Proof.
  apply key_eq_rank. destruct (isnan (fval a)); [left|right]; auto.
Qed.

Lemma key_eq_sym (a b : fobj) : key_eq a b = key_eq b a.
Proof.
  destruct (key_eq a b) eqn:H; symmetry.
  - apply key_eq_rank in H. apply key_eq_rank. intuition.
  - destruct (key_eq b a) eqn:H'; [|reflexivity].
    apply key_eq_rank in H'. exfalso.
    assert (key_eq a b = true) by (apply key_eq_rank; intuition).
    congruence.
Qed.

Lemma key_eq_trans (a b c : fobj) :
  key_eq a b = true -> key_eq b c = true -> key_eq a c = true.
Proof.
  rewrite !key_eq_rank. intuition congruence.
Qed.

(** On a number, [key_eq] is [==] of the values. *)
Lemma key_eq_num (a b : fobj) :
  isnan (fval a) = false -> key_eq a b = feq (fval a) (fval b).
Proof.
  intros H. unfold key_eq. rewrite H. simpl. apply orb_false_r.
Qed.

(** [b > m], [a > m] false, no NaN: then [a > b] is false. *)
Lemma fgt_trans_false (a m b : float) :
  isnan a = false -> isnan m = false -> isnan b = false ->
  fgt a m = false -> fgt b m = true -> fgt a b = false.
Proof.
  intros Ha Hm Hb H1 H2. unfold fgt, SFltb in *.
  rewrite compare_rank in * by assumption.
  destruct (lexcmp (rank b) (rank a)) eqn:E; try reflexivity.
  exfalso.
  assert (Hma : lexcmp (rank m) (rank a) <> Lt)
    by (destruct (lexcmp (rank m) (rank a)); congruence).
  assert (Hmb : lexcmp (rank m) (rank b) = Lt)
    by (destruct (lexcmp (rank m) (rank b)); congruence).
  assert (Ham : lexcmp (rank a) (rank m) <> Gt).
  { rewrite lexcmp_antisym. destruct (lexcmp (rank m) (rank a)); simpl; congruence. }
  assert (Hab : lexcmp (rank a) (rank b) = Gt)
    by (rewrite lexcmp_antisym, E; reflexivity).
  pose proof (lexcmp_le_lt _ _ _ Ham Hmb). congruence.
Qed.

Lemma fgt_irrefl (a : float) : fgt a a = false.
Proof.
  unfold fgt, SFltb. destruct (isnan a) eqn:H.
  - destruct a; try discriminate. reflexivity.
  - rewrite compare_rank by assumption.
    assert (lexcmp (rank a) (rank a) = Eq) by (apply lexcmp_eq; reflexivity).
    rewrite H0. reflexivity.
Qed.

End FloatFacts.


(* ----------------------------------------------------------------- *)
(** ** Results, dictionaries and sets *)


Module ResultFacts.
Import Py.

Lemma bind_ok {A B} (r : result A) (k : A -> result B) (b : B) :
  bind r k = Ok b -> exists a, r = Ok a /\ k a = Ok b.
Proof. destruct r; simpl; [eauto|discriminate]. Qed.

End ResultFacts.

Ltac inv_ok H :=
  repeat match type of H with
  | Py.bind ?r ?k = Py.Ok _ =>
      let E := fresh "E" in
      destruct r eqn:E; cbn [Py.bind] in H; [|discriminate H]
  end.

Module DictFacts.
Import Py Text.

Section Dict.
Context {K V : Type}.
Variable keq : K -> K -> bool.
Hypothesis keq_refl : forall a, keq a a = true.
Hypothesis keq_sym : forall a b, keq a b = keq b a.
Hypothesis keq_trans : forall a b c, keq a b = true -> keq b c = true -> keq a c = true.

Lemma dget_dset_same (k kk : K) (v : V) (d : list (K * V)) :
  keq k kk = true -> dget keq k (dset keq kk v d) = Some v.
Proof.
  intros H. induction d as [|[k' v'] r IH]; simpl.
  - rewrite keq_sym, H. reflexivity.
  - destruct (keq k' kk) eqn:E1; simpl.
    + rewrite (keq_trans k' kk k E1 (eq_trans (keq_sym kk k) H)). reflexivity.
    + destruct (keq k' k) eqn:E2; [|exact IH].
      exfalso. assert (keq k' kk = true) by (eapply keq_trans; eauto). congruence.
Qed.

Lemma dget_dset_other (k kk : K) (v : V) (d : list (K * V)) :
  keq k kk = false -> dget keq k (dset keq kk v d) = dget keq k d.
Proof.
  intros H. induction d as [|[k' v'] r IH]; simpl.
  - rewrite keq_sym, H. reflexivity.
  - destruct (keq k' kk) eqn:E1; simpl.
    + destruct (keq k' k) eqn:E2; [|reflexivity].
      exfalso. assert (keq k kk = true).
      { eapply keq_trans; [rewrite keq_sym; exact E2|exact E1]. }
      congruence.
    + destruct (keq k' k); [reflexivity|exact IH].
Qed.

Lemma dget_compat (k1 k2 : K) (d : list (K * V)) :
  keq k1 k2 = true -> dget keq k1 d = dget keq k2 d.
Proof.
  intros H. induction d as [|[k' v'] r IH]; simpl; [reflexivity|].
  destruct (keq k' k1) eqn:E1, (keq k' k2) eqn:E2; auto.
  - assert (keq k' k2 = true) by (eapply keq_trans; eauto). congruence.
  - assert (keq k' k1 = true).
    { eapply keq_trans; [exact E2|rewrite keq_sym; exact H]. }
    congruence.
Qed.

End Dict.

Lemma key_eqb_refl (k : key) : key_eqb k k = true.
Proof. induction k; simpl; [reflexivity|]. rewrite FloatFacts.key_eq_refl. exact IHk. Qed.

Lemma key_eqb_sym (a b : key) : key_eqb a b = key_eqb b a.
Proof.
  revert b; induction a as [|x a IH]; destruct b as [|y b]; simpl; auto.
  rewrite FloatFacts.key_eq_sym, IH. reflexivity.
Qed.

Lemma key_eqb_trans (a b c : key) :
  key_eqb a b = true -> key_eqb b c = true -> key_eqb a c = true.
Proof.
  revert b c; induction a as [|x a IH]; destruct b as [|y b]; destruct c as [|z c];
    simpl; auto; try discriminate.
  intros H1 H2. apply andb_prop in H1, H2. destruct H1, H2.
  rewrite (FloatFacts.key_eq_trans x y z); auto. simpl. eauto.
Qed.

Lemma string_eqb_trans (a b c : string) :
  String.eqb a b = true -> String.eqb b c = true -> String.eqb a c = true.
Proof.
  rewrite !String.eqb_eq. congruence.
Qed.

Lemma string_eqb_refl' (a : string) : String.eqb a a = true.
Proof. apply String.eqb_refl. Qed.

End DictFacts.

Module PySetFacts.
Import Py PySet.

Section Perm.
Context {A : Type}.
Variable hash : A -> Z.

Lemma entries_app (t1 t2 : table (A:=A)) : entries (t1 ++ t2) = entries t1 ++ entries t2.
Proof. induction t1 as [|[e|] r IH]; simpl; [reflexivity| rewrite IH; reflexivity | exact IH]. Qed.

Lemma entries_nones n : entries (nones (A:=A) n) = [].
Proof. induction n; simpl; auto. Qed.

Lemma probe_empty fuel (tb : table (A:=A)) mask i p j :
  probe fuel tb mask i p = Some j -> nth_error tb j = Some None.
Proof.
  revert i p; induction fuel as [|f IH]; simpl; intros i p H; [discriminate|].
  destruct (nth_error tb (Z.to_nat (Z.land i mask))) as [[o|]|] eqn:E.
  - eapply IH; exact H.
  - inversion H; subst. exact E.
  - eapply IH; exact H.
Qed.

Lemma set_nth_perm (tb : table (A:=A)) j e :
  nth_error tb j = Some None -> Permutation (entries (set_nth tb j (Some e))) (e :: entries tb).
Proof.
  revert j; induction tb as [|x r IH]; intros j H; destruct j as [|j]; simpl in *;
    try discriminate.
  - inversion H; subst. reflexivity.
  - destruct x as [x|]; simpl.
    + rewrite (IH j H). apply perm_swap.
    + apply IH; exact H.
Qed.

Lemma insert_clean_perm (tb : table (A:=A)) x h :
  Permutation (entries (insert_clean tb x h)) ((x, h) :: entries tb).
Proof.
  unfold insert_clean.
  destruct (probe _ _ _ _ _) as [j|] eqn:E.
  - apply set_nth_perm. eapply probe_empty; exact E.
  - rewrite entries_app. simpl.
    symmetry. apply Permutation_cons_append.
Qed.

Lemma fold_insert_clean_perm (l : list (A * Z)) (acc : table (A:=A)) :
  Permutation (entries (fold_left (fun acc e => insert_clean acc (fst e) (snd e)) l acc))
              (l ++ entries acc).
Proof.
  revert acc; induction l as [|[x h] l IH]; intros acc; simpl; [reflexivity|].
  rewrite IH, insert_clean_perm. symmetry. apply Permutation_middle.
Qed.

Lemma resize_perm (tb : table (A:=A)) m :
  Permutation (entries (resize tb m)) (entries tb).
Proof.
  unfold resize. rewrite fold_insert_clean_perm, entries_nones, app_nil_r. reflexivity.
Qed.

Lemma insert_new_perm (tb : table (A:=A)) x :
  Permutation (entries (insert_new hash tb x)) ((x, hash x) :: entries tb).
Proof.
  unfold insert_new.
  destruct (_ <=? _)%nat.
  - rewrite resize_perm. apply insert_clean_perm.
  - apply insert_clean_perm.
Qed.

Lemma fold_insert_new_perm (l : list A) (tb : table (A:=A)) :
  Permutation (entries (fold_left (insert_new hash) l tb))
              (map (fun x => (x, hash x)) l ++ entries tb).
Proof.
  revert tb; induction l as [|x l IH]; intros tb; simpl; [reflexivity|].
  rewrite IH, insert_new_perm. symmetry. apply Permutation_middle.
Qed.

Lemma to_list_perm (s : list A) : Permutation (to_list hash s) s.
Proof.
  unfold to_list, build. rewrite fold_insert_new_perm, entries_nones, app_nil_r.
  rewrite map_map. simpl. rewrite map_id. reflexivity.
Qed.

End Perm.
End PySetFacts.

(* ----------------------------------------------------------------- *)
(** ** One line of a text file *)


Module RowFacts.
Import Py Text.

Lemma data_row_inv st header rowstr row st' :
  data_row st header rowstr row = Ok st' ->
  int_is_not (length row) (length header) = false /\
  exists date offset id cLat cLon cElev locs info nobj shown warns out ghost
         loc o f pits lp qs xs lq ts cdfs lt,
    field_or (s_indices st) (s_row st) row "date" (s_date st) = Ok date /\
    field_or (s_indices st) (s_row st) row "offset" (s_offset st) = Ok offset /\
    field_or (s_indices st) (s_row st) row "id" np_nan = Ok id /\
    field_or (s_indices st) (s_row st) row "lat" np_nan = Ok cLat /\
    field_or (s_indices st) (s_row st) row "lon" np_nan = Ok cLon /\
    field_or (s_indices st) (s_row st) row "elev" np_nan = Ok cElev /\
    resolve_location st id cLat cLon cElev = (locs, info, nobj, (shown, warns, out, ghost)) /\
    dget key_eq id info = Some loc /\
    field (s_indices st) row "obs" = Ok o /\
    field (s_indices st) row "fcst" = Ok f /\
    (if existsb (fun kv => String.eqb (fst kv) "pit") (s_indices st)
     then exists p, field (s_indices st) row "pit" = Ok p /\
            pits = dset key_eqb [date; offset; loc_lat loc; loc_lon loc; loc_elev loc] p (s_pit st) /\
            lp = s_log st ++ [(s_row st, "obs"%string, [date; offset; loc_lat loc; loc_lon loc; loc_elev loc], o);
                              (s_row st, "fcst"%string, [date; offset; loc_lat loc; loc_lon loc; loc_elev loc], f)]
                 ++ [(s_row st, "pit"%string, [date; offset; loc_lat loc; loc_lon loc; loc_elev loc], p)]
     else pits = s_pit st /\
          lp = s_log st ++ [(s_row st, "obs"%string, [date; offset; loc_lat loc; loc_lon loc; loc_elev loc], o);
                            (s_row st, "fcst"%string, [date; offset; loc_lat loc; loc_lon loc; loc_elev loc], f)]) /\
    level_loop (s_indices st) row (s_row st) "x" 0 [date; offset; loc_lat loc; loc_lon loc; loc_elev loc]
      (quantile_fields header) (s_quantiles st) (s_x st) lp = Ok (qs, xs, lq) /\
    level_loop (s_indices st) row (s_row st) "cdf" 0 [date; offset; loc_lat loc; loc_lon loc; loc_elev loc]
      (threshold_fields header) (s_thresholds st) (s_cdf st) lq = Ok (ts, cdfs, lt) /\
    st' = mkState (s_units st) (s_variable st) (fadd_set date (s_dates st))
            (fadd_set offset (s_offsets st)) locs qs ts
            (dset key_eqb [date; offset; loc_lat loc; loc_lon loc; loc_elev loc] o (s_obs st))
            (dset key_eqb [date; offset; loc_lat loc; loc_lon loc; loc_elev loc] f (s_fcst st))
            cdfs pits xs (s_indices st) (s_header st) date offset info shown
            warns out nobj (S (s_row st)) ghost
            (s_seen_dates st ++ [date]) (s_seen_offsets st ++ [offset])
            (s_seen_locs st ++ [loc]) lt.
Proof.
  intros H. unfold data_row in H.
  destruct (int_is_not _ _) eqn:Ear.
  { unfold util_error in H. cbn [bind] in H. discriminate H. }
  cbn [bind] in H.
  split; [reflexivity|].
  inv_ok H.
  destruct (resolve_location _ _ _ _ _) as [[[locs info] nobj] [[[shown warns] out] ghost]] eqn:Eres.
  cbn iota in H.
  destruct (dget key_eq _ info) as [loc|] eqn:Eloc; cbn [bind] in H; [|discriminate H].
  inv_ok H.
  destruct a7 as [pits lp]. destruct a8 as [[qs xs] lq].
  destruct (level_loop _ _ _ "cdf" _ _ _ _ _ _) as [[[ts cdfs] lt]|] eqn:Et; cbn [bind] in H;
    [|discriminate H].
  injection H as <-.
  exists a, a0, a1, a2, a3, a4, locs, info, nobj, shown, warns, out, ghost,
    loc, a5, a6, pits, lp, qs, xs, lq, ts, cdfs, lt.
  repeat (split; [first [reflexivity | eassumption]|]).
  split.
  - destruct (existsb _ _).
    + inv_ok E7. injection E7 as <- <-. eexists. rewrite <- app_assoc. eauto.
    + injection E7 as <- <-. auto.
  - repeat (split; [first [reflexivity | eassumption]|]). reflexivity.
Qed.

Lemma count_app (ws ws' : list warning) :
  count_conflict_warnings (ws ++ ws') =
  (count_conflict_warnings ws + count_conflict_warnings ws')%nat.
Proof. unfold count_conflict_warnings. rewrite filter_app, length_app. reflexivity. Qed.

(** A line of the file is a comment line, the header, or a data row. *)
Lemma process_line_cases fn st l st' :
  process_line fn st l = Ok st' ->
  (s_dates st' = s_dates st /\ s_offsets st' = s_offsets st /\
   s_seen_dates st' = s_seen_dates st /\ s_seen_offsets st' = s_seen_offsets st /\
   s_locations st' = s_locations st /\ s_location_info st' = s_location_info st /\
   s_quantiles st' = s_quantiles st /\ s_thresholds st' = s_thresholds st /\
   s_shown st' = s_shown st /\ s_conflicts st' = s_conflicts st /\
   count_conflict_warnings (s_warnings st') = count_conflict_warnings (s_warnings st) /\
   (s_header st' = s_header st \/ s_header st = None))
  \/ (exists header, s_header st = Some header /\ data_row st header l (split l) = Ok st').
Proof.
  intros H. unfold process_line in H. inv_ok H.
  destruct (Ascii.eqb a "#").
  - inv_ok H.
    destruct (String.eqb a0 "variable:"); [injection H as <-; left; simpl; tauto|].
    destruct (String.eqb a0 "units:").
    + inv_ok H. injection H as <-; left; simpl; tauto.
    + injection H as <-. left; simpl. rewrite count_app. simpl. rewrite Nat.add_0_r. tauto.
  - destruct (s_header st) as [header|] eqn:Eh.
    + right. exists header. auto.
    + inv_ok H.
      destruct (in_indices _ "obs"); unfold util_error in E0; [|discriminate E0].
      inv_ok H.
      destruct (in_indices _ "fcst"); unfold util_error in E1; [|discriminate E1].
      injection H as <-. left; simpl. tauto.
Qed.


Lemma load_inv fn lines s :
  load fn lines = Ok s -> exists st, parse_lines fn init lines = Ok st /\ s = finish st.
Proof. unfold load. intros H. inv_ok H. injection H as <-. eauto. Qed.
End RowFacts.

(* ----------------------------------------------------------------- *)
(** ** Coordinate sets *)


Module CoordFacts.
Import Py Text Views.


Lemma set_of_nil : set_of [] [].
Proof.
  split; [split; [constructor|intros a b []]|split; intros x []].
Qed.

Lemma fadd_set_of s seen x : set_of s seen -> set_of (fadd_set x s) (seen ++ [x]).
Proof.
  intros [[Hnd Hkey] [Hin Hcov]]. unfold fadd_set, PySet.add.
  destruct (existsb (fun y => key_eq y x) s) eqn:E.
  - apply existsb_exists in E. destruct E as [y [Hy Hyx]].
    split; [split; assumption|split].
    + intros z Hz. apply in_or_app. left. auto.
    + intros z Hz. apply in_app_or in Hz. destruct Hz as [Hz|[<-|[]]]; [auto|].
      exists y. split; [assumption|]. rewrite FloatFacts.key_eq_sym. exact Hyx.
  - assert (Hno : forall y, In y s -> key_eq y x = false).
    { intros y Hy. destruct (key_eq y x) eqn:Ey; [|reflexivity].
      assert (existsb (fun y => key_eq y x) s = true) by (apply existsb_exists; eauto).
      congruence. }
    split; [split|split].
    + apply NoDup_app; [assumption| |].
      * apply NoDup_cons; [intros []|constructor].
      * intros a Ha [<-|[]]. apply Hno in Ha. rewrite FloatFacts.key_eq_refl in Ha. discriminate.
    + intros a b Ha Hb Hab. apply in_app_or in Ha, Hb.
      destruct Ha as [Ha|[<-|[]]], Hb as [Hb|[<-|[]]]; auto.
      * apply Hno in Ha. congruence.
      * apply Hno in Hb. rewrite FloatFacts.key_eq_sym in Hab. congruence.
    + intros z Hz. apply in_app_or in Hz. apply in_or_app.
      destruct Hz as [Hz|[<-|[]]]; [left; auto|right; left; reflexivity].
    + intros z Hz. apply in_app_or in Hz. destruct Hz as [Hz|[<-|[]]].
      * destruct (Hcov z Hz) as [y [Hy Hzy]]. exists y. split; [apply in_or_app; left|]; auto.
      * exists x. split; [apply in_or_app; right; left; reflexivity|apply FloatFacts.key_eq_refl].
Qed.

Lemma distinct_perm l l' : Permutation l l' -> distinct_values l -> distinct_values l'.
Proof.
  intros P [Hnd Hk]. split.
  - eapply Permutation_NoDup; eauto.
  - intros a b Ha Hb. apply Hk; eapply Permutation_in; try (apply Permutation_sym; exact P);
    assumption.
Qed.

Lemma parse_lines_coords fn st lines st' :
  parse_lines fn st lines = Ok st' ->
  set_of (s_dates st) (s_seen_dates st) -> set_of (s_offsets st) (s_seen_offsets st) ->
  set_of (s_dates st') (s_seen_dates st') /\ set_of (s_offsets st') (s_seen_offsets st').
Proof.
  revert st; induction lines as [|l r IH]; intros st H Hd Ho; simpl in H.
  - injection H as <-. auto.
  - inv_ok H. apply (IH a H).
    + destruct (RowFacts.process_line_cases _ _ _ _ E) as [P|[h [_ D]]].
      * destruct P as (-> & _ & -> & _). exact Hd.
      * destruct (RowFacts.data_row_inv _ _ _ _ _ D) as [_ X].
        destruct X as (date & offset & ? & ? & ? & ? & ? & ? & ? & ? & ? & ? & ? & ? & ? & ? & ? & ? & ? & ? & ? & ? & ? & ? &
                       ? & ? & ? & ? & ? & ? & ? & ? & ? & ? & ? & ? & ? & R).
        subst a. simpl. apply fadd_set_of. exact Hd.
    + destruct (RowFacts.process_line_cases _ _ _ _ E) as [P|[h [_ D]]].
      * destruct P as (_ & -> & _ & -> & _). exact Ho.
      * destruct (RowFacts.data_row_inv _ _ _ _ _ D) as [_ X].
        destruct X as (date & offset & ? & ? & ? & ? & ? & ? & ? & ? & ? & ? & ? & ? & ? & ? & ? & ? & ? & ? & ? & ? & ? & ? &
                       ? & ? & ? & ? & ? & ? & ? & ? & ? & ? & ? & ? & ? & R).
        subst a. simpl. apply fadd_set_of. exact Ho.
Qed.

End CoordFacts.


(* ----------------------------------------------------------------- *)
(** ** Locations and conflicts *)


Module LocFacts.
Import Py Text.

Lemma resolve_warnings st id cLat cLon cElev locs info nobj shown warns out ghost :
  resolve_location st id cLat cLon cElev = (locs, info, nobj, (shown, warns, out, ghost)) ->
  s_shown st = (0 <? s_conflicts st)%nat ->
  count_conflict_warnings (s_warnings st) = (if s_shown st then 1 else 0)%nat ->
  shown = (0 <? ghost)%nat /\
  count_conflict_warnings warns = (if shown then 1 else 0)%nat.
Proof.
  intros H Hs Hc. unfold resolve_location in H.
  destruct (if isnan (fval id) then None else dget key_eq id (s_location_info st)) as [stored|].
  - destruct (conflicts _ _ _ _ _ _) eqn:C; destruct (s_shown st) eqn:S; simpl in H;
      injection H as <- <- <- <- <- <- <-; rewrite ?RowFacts.count_app, ?Hc;
      simpl; rewrite ?Nat.add_0_r; split; auto.
    + symmetry. apply Nat.ltb_lt. symmetry in Hs. apply Nat.ltb_lt in Hs. lia.
    + symmetry. apply Nat.ltb_lt. lia.
  - injection H as <- <- <- <- <- <- <-. auto.
Qed.

Lemma resolve_info_keep st id cLat cLon cElev locs info nobj rest (i : fobj) (L : location) :
  resolve_location st id cLat cLon cElev = (locs, info, nobj, rest) ->
  isnan (fval i) = false -> dget key_eq i (s_location_info st) = Some L ->
  dget key_eq i info = Some L.
Proof.
  intros H Hi HL. unfold resolve_location in H.
  destruct (isnan (fval id)) eqn:Hid.
  - injection H as _ <- _ _. rewrite DictFacts.dget_dset_other; auto.
    + exact FloatFacts.key_eq_sym.
    + apply FloatFacts.key_eq_trans.
    + destruct (key_eq i id) eqn:E; [|reflexivity].
      apply FloatFacts.key_eq_rank in E. destruct E as [[E _]|[_ [E _]]]; congruence.
  - destruct (dget key_eq id (s_location_info st)) as [stored|] eqn:Es.
    + destruct (negb (s_shown st) && _); injection H as _ <- _ _; exact HL.
    + injection H as _ <- _ _. rewrite DictFacts.dget_dset_other; auto.
      * exact FloatFacts.key_eq_sym.
      * apply FloatFacts.key_eq_trans.
      * destruct (key_eq i id) eqn:E; [|reflexivity].
        rewrite (DictFacts.dget_compat key_eq FloatFacts.key_eq_sym FloatFacts.key_eq_trans
                   _ _ _ E) in HL. congruence.
Qed.

Lemma resolve_known st id cLat cLon cElev locs info nobj rest (L : location) :
  resolve_location st id cLat cLon cElev = (locs, info, nobj, rest) ->
  isnan (fval id) = false -> dget key_eq id (s_location_info st) = Some L ->
  locs = s_locations st /\ info = s_location_info st.
Proof.
  intros H Hid HL. unfold resolve_location in H. rewrite Hid, HL in H.
  destruct (negb (s_shown st) && _); injection H as <- <- _ _; auto.
Qed.

Lemma parse_lines_warnings fn st lines st' :
  parse_lines fn st lines = Ok st' ->
  s_shown st = (0 <? s_conflicts st)%nat ->
  count_conflict_warnings (s_warnings st) = (if s_shown st then 1 else 0)%nat ->
  s_shown st' = (0 <? s_conflicts st')%nat /\
  count_conflict_warnings (s_warnings st') = (if s_shown st' then 1 else 0)%nat.
Proof.
  revert st; induction lines as [|l r IH]; intros st H Hs Hc; simpl in H.
  - injection H as <-. auto.
  - inv_ok H. apply (IH a H).
    + destruct (RowFacts.process_line_cases _ _ _ _ E) as [P|[h [_ D]]].
      * destruct P as (_ & _ & _ & _ & _ & _ & _ & _ & -> & -> & _). exact Hs.
      * destruct (RowFacts.data_row_inv _ _ _ _ _ D) as [_ X].
        destruct X as (? & ? & ? & ? & ? & ? & ? & ? & ? & ? & ? & ? & ? & ? & ? & ? & ? & ? & ? & ? & ? & ? & ? & ? &
                       ? & ? & ? & ? & ? & ? & Hr & ? & ? & ? & ? & ? & ? & R).
        subst a. simpl. eapply resolve_warnings; eauto.
    + destruct (RowFacts.process_line_cases _ _ _ _ E) as [P|[h [_ D]]].
      * destruct P as (_ & _ & _ & _ & _ & _ & _ & _ & -> & _ & -> & _). exact Hc.
      * destruct (RowFacts.data_row_inv _ _ _ _ _ D) as [_ X].
        destruct X as (? & ? & ? & ? & ? & ? & ? & ? & ? & ? & ? & ? & ? & ? & ? & ? & ? & ? & ? & ? & ? & ? & ? & ? &
                       ? & ? & ? & ? & ? & ? & Hr & ? & ? & ? & ? & ? & ? & R).
        subst a. simpl. eapply resolve_warnings; eauto.
Qed.

Lemma parse_lines_info_keep fn st lines st' (i : fobj) (L : location) :
  parse_lines fn st lines = Ok st' ->
  isnan (fval i) = false -> dget key_eq i (s_location_info st) = Some L ->
  dget key_eq i (s_location_info st') = Some L.
Proof.
  revert st; induction lines as [|l r IH]; intros st H Hi HL; simpl in H.
  - injection H as <-. auto.
  - inv_ok H. apply (IH a H Hi).
    destruct (RowFacts.process_line_cases _ _ _ _ E) as [P|[h [_ D]]].
    + destruct P as (_ & _ & _ & _ & _ & -> & _). exact HL.
    + destruct (RowFacts.data_row_inv _ _ _ _ _ D) as [_ X].
      destruct X as (? & ? & ? & ? & ? & ? & ? & ? & ? & ? & ? & ? & ? & ? & ? & ? & ? & ? & ? & ? & ? & ? & ? & ? &
                     ? & ? & ? & ? & ? & ? & Hr & ? & ? & ? & ? & ? & ? & R).
      subst a. simpl. eapply resolve_info_keep; eauto.
Qed.

End LocFacts.

(* ----------------------------------------------------------------- *)
(** ** Sparse tables *)


Module TableFacts.
Import Py Text Views.

Lemma kdget_same k kk v (t : list (key * float)) :
  key_eqb k kk = true -> dget key_eqb k (dset key_eqb kk v t) = Some v.
Proof. apply DictFacts.dget_dset_same; [exact DictFacts.key_eqb_sym|exact DictFacts.key_eqb_trans]. Qed.

Lemma kdget_other k kk v (t : list (key * float)) :
  key_eqb k kk = false -> dget key_eqb k (dset key_eqb kk v t) = dget key_eqb k t.
Proof. apply DictFacts.dget_dset_other; [exact DictFacts.key_eqb_sym|exact DictFacts.key_eqb_trans]. Qed.

Lemma dset_agree (P : key -> Prop) (t1 t2 : list (key * float)) kk v :
  (forall k, P k -> dget key_eqb k t1 = dget key_eqb k t2) ->
  forall k, (P k \/ key_eqb k kk = true) ->
  dget key_eqb k (dset key_eqb kk v t1) = dget key_eqb k (dset key_eqb kk v t2).
Proof.
  intros HP k Hk.
  destruct (key_eqb k kk) eqn:E.
  - rewrite !kdget_same by exact E. reflexivity.
  - rewrite !kdget_other by exact E.
    destruct Hk as [Hk|Hk]; [auto|discriminate].
Qed.

Lemma kdget_dset k kk v (t : list (key * float)) :
  dget key_eqb k (dset key_eqb kk v t) = if key_eqb kk k then Some v else dget key_eqb k t.
Proof.
  destruct (key_eqb kk k) eqn:E.
  - apply kdget_same. rewrite DictFacts.key_eqb_sym. exact E.
  - apply kdget_other. rewrite DictFacts.key_eqb_sym. exact E.
Qed.

Lemma last_write_app t k l1 l2 acc :
  last_write t k (l1 ++ l2) acc = last_write t k l2 (last_write t k l1 acc).
Proof.
  revert acc; induction l1 as [|[[[r t'] k'] v] l1 IH]; intros acc; simpl; auto.
Qed.

Lemma last_write_other t k l acc :
  Forall (fun w => w_table w <> t) l -> last_write t k l acc = acc.
Proof.
  revert acc; induction l as [|[[[r t'] k'] v] l IH]; intros acc H; simpl; auto.
  inversion H as [|? ? Hw Hl]; subst. unfold w_table in Hw. simpl in Hw.
  rewrite (proj2 (String.eqb_neq t' t) Hw). simpl. apply IH. exact Hl.
Qed.

Lemma last_write_snoc t k l r t' k' v :
  last_write t k (l ++ [(r, t', k', v)]) None =
  if String.eqb t' t && key_eqb k' k then Some v else last_write t k l None.
Proof. rewrite last_write_app. reflexivity. Qed.

Lemma agrees_set t tab log r k v :
  agrees t tab log -> agrees t (dset key_eqb k v tab) (log ++ [(r, t, k, v)]).
Proof.
  intros H k'. rewrite kdget_dset, last_write_snoc, String.eqb_refl. simpl.
  destruct (key_eqb k k'); [reflexivity|apply H].
Qed.

Lemma agrees_other t tab log ws :
  Forall (fun w => w_table w <> t) ws -> agrees t tab log -> agrees t tab (log ++ ws).
Proof.
  intros Hw H k. rewrite last_write_app, last_write_other by exact Hw. apply H.
Qed.

(** A level loop appends one assignment per column to the log, of its
    own dict and row; what it does, apart from the dict, does not depend
    on the dict or the log it starts from. *)
Lemma level_loop_log idx row r tn j k5 fields levels tab log lv tab' log' :
  level_loop idx row r tn j k5 fields levels tab log = Ok (lv, tab', log') ->
  exists ws, log' = log ++ ws /\
    (forall w, In w ws -> exists fld j' q v,
        In fld fields /\ py_float (tail_str fld) = Ok q /\ field idx row fld = Ok v /\
        w = (r, tn, k5 ++ [mkObj q (Made r tn j')], v)) /\
    (agrees tn tab log -> agrees tn tab' log') /\
    forall tab2 log2, exists tab2',
      level_loop idx row r tn j k5 fields levels tab2 log2 = Ok (lv, tab2', log2 ++ ws).
Proof.
  revert j levels tab log. induction fields as [|fld rest IH];
    intros j levels tab log H; simpl in H.
  - injection H as <- <- <-. exists []. rewrite app_nil_r.
    split; [reflexivity|split; [intros w []|split; [auto|]]].
    intros tab2 log2. exists tab2. rewrite app_nil_r. reflexivity.
  - inv_ok H. inv_ok H.
    destruct (IH _ _ _ _ H) as [ws [-> [Hws [Hag Hind]]]].
    exists ((r, tn, k5 ++ [mkObj a (Made r tn j)], a0) :: ws).
    split; [rewrite <- app_assoc; reflexivity|split; [|split]].
    + intros w [<-|Hw].
      * exists fld, j, a, a0. split; [left; reflexivity|auto].
      * destruct (Hws w Hw) as (fld' & j' & q & v & Hin & Hq & Hv & ->).
        exists fld', j', q, v. split; [right; exact Hin|auto].
    + intros Hag0. apply Hag. apply agrees_set. exact Hag0.
    + intros tab2 log2. simpl. rewrite E. cbn [bind]. rewrite E0. cbn [bind].
      destruct (Hind (dset key_eqb (k5 ++ [mkObj a (Made r tn j)]) a0 tab2)
                     (log2 ++ [(r, tn, k5 ++ [mkObj a (Made r tn j)], a0)])) as [t2 Ht2].
      exists t2. rewrite Ht2, <- app_assoc. reflexivity.
Qed.

End TableFacts.

(* ----------------------------------------------------------------- *)
(** ** Dense arrays *)


Module DenseFacts.
Import Py Text Views.

Lemma dense3_shape tab ds os ls :
  shape3 (dense3 tab ds os ls) (length ds) (length os) (length ls).
Proof.
  unfold shape3, dense3. rewrite length_map. split; [reflexivity|].
  apply Forall_forall. intros r Hr. apply in_map_iff in Hr. destruct Hr as [d [<- _]].
  rewrite length_map. split; [reflexivity|].
  apply Forall_forall. intros c Hc. apply in_map_iff in Hc. destruct Hc as [o [<- _]].
  apply length_map.
Qed.

Lemma dense4_shape tab ds os ls qs :
  shape4 (dense4 tab ds os ls qs) (length ds) (length os) (length ls) (length qs).
Proof.
  unfold shape4, dense4. rewrite length_map. split; [reflexivity|].
  apply Forall_forall. intros r Hr. apply in_map_iff in Hr. destruct Hr as [d [<- _]].
  rewrite length_map. split; [reflexivity|].
  apply Forall_forall. intros c Hc. apply in_map_iff in Hc. destruct Hc as [o [<- _]].
  rewrite length_map. split; [reflexivity|].
  apply Forall_forall. intros v Hv. apply in_map_iff in Hv. destruct Hv as [l [<- _]].
  apply length_map.
Qed.

Lemma dense3_cell tab ds os ls i j k d o l :
  nth_error ds i = Some d -> nth_error os j = Some o -> nth_error ls k = Some l ->
  cell3 (dense3 tab ds os ls) i j k = Some (lookup_or_nan tab (row_key d o l)).
Proof.
  intros Hd Ho Hl. unfold cell3, dense3.
  rewrite nth_error_map, Hd. simpl. rewrite nth_error_map, Ho. simpl.
  rewrite nth_error_map, Hl. reflexivity.
Qed.

Lemma dense4_cell tab ds os ls qs i j k t d o l q :
  nth_error ds i = Some d -> nth_error os j = Some o -> nth_error ls k = Some l ->
  nth_error qs t = Some q ->
  cell4 (dense4 tab ds os ls qs) i j k t = Some (lookup_or_nan tab (row_key d o l ++ [q])).
Proof.
  intros Hd Ho Hl Hq. unfold cell4, dense4.
  rewrite nth_error_map, Hd. simpl. rewrite nth_error_map, Ho. simpl.
  rewrite nth_error_map, Hl. simpl. rewrite nth_error_map, Hq. reflexivity.
Qed.

Lemma assign_ids_length L c : length (assign_ids L c) = length L.
Proof.
  revert c; induction L as [|l r IH]; intros c; simpl; [reflexivity|].
  destruct (isnan (loc_id l)); simpl; rewrite IH; reflexivity.
Qed.

Lemma iter_shift (n : nat) (f : float -> float) (x : float) :
  Nat.iter n f (f x) = f (Nat.iter n f x).
Proof. induction n; simpl; congruence. Qed.

Lemma iter_shift_add1 (n : nat) (x : float) :
  Nat.iter n (fun c => fadd c (of_Z 1)) (fadd x (of_Z 1)) =
  fadd (Nat.iter n (fun c => fadd c (of_Z 1)) x) (of_Z 1).
Proof. exact (iter_shift n (fun c => fadd c (of_Z 1)) x). Qed.

Lemma assign_ids_nth L c k l :
  nth_error L k = Some l ->
  nth_error (assign_ids L c) k =
    Some (mkLocation (loc_obj l)
            (if isnan (loc_id l)
             then Nat.iter (count_unassigned (firstn k L)) (fun x => fadd x (of_Z 1)) c
             else loc_id l)
            (loc_lat l) (loc_lon l) (loc_elev l)).
Proof.
  revert c k; induction L as [|l' r IH]; intros c k H; destruct k as [|k]; simpl in H;
    try discriminate.
  - injection H as ->. simpl. destruct (isnan (loc_id l)); [reflexivity|].
    destruct l; reflexivity.
  - unfold count_unassigned in *. simpl.
    destruct (isnan (loc_id l')) eqn:E; simpl.
    + rewrite (IH _ _ H). simpl. rewrite iter_shift_add1. reflexivity.
    + exact (IH _ _ H).
Qed.

Lemma deferred_ids_coords L k l :
  nth_error (deferred_ids L) k = Some l ->
  exists l0, nth_error L k = Some l0 /\
    loc_lat l = loc_lat l0 /\ loc_lon l = loc_lon l0 /\ loc_elev l = loc_elev l0.
Proof.
  intros H. unfold deferred_ids in H. cbv zeta in H. revert H.
  generalize (if negb (isnan (max_location_id L nan))
              then fadd (max_location_id L nan) (of_Z 1) else fzero) as c.
  intros c H.
  destruct (nth_error L k) as [l0|] eqn:E.
  - rewrite (assign_ids_nth _ _ _ _ E) in H. injection H as <-. exists l0. auto.
  - apply nth_error_None in E. rewrite <- (assign_ids_length L c) in E.
    apply nth_error_None in E. congruence.
Qed.

End DenseFacts.


(* ----------------------------------------------------------------- *)
(** ** Deferred ids *)


Module FloatOrder.
Import Py FloatRank.

Lemma lexcmp_le_trans (a b c : Z * Z * Z) :
  lexcmp a b <> Gt -> lexcmp b c <> Gt -> lexcmp a c <> Gt.
Proof.
  destruct a as [[a1 a2] a3], b as [[b1 b2] b3], c as [[c1 c2] c3]; simpl.
  intros H1 H2.
  destruct (Z.compare_spec a1 b1); destruct (Z.compare_spec b1 c1);
  try congruence;
  destruct (Z.compare_spec a1 c1); try congruence; try lia;
  destruct (Z.compare_spec a2 b2); destruct (Z.compare_spec b2 c2);
  try congruence;
  destruct (Z.compare_spec a2 c2); try congruence; try lia;
  destruct (Z.compare_spec a3 b3); destruct (Z.compare_spec b3 c3);
  try congruence;
  destruct (Z.compare_spec a3 c3); try congruence; try lia.
Qed.

Lemma fgt_false_iff (a b : float) :
  isnan a = false -> isnan b = false ->
  (fgt a b = false <-> lexcmp (rank a) (rank b) <> Gt).
Proof.
  intros Ha Hb. unfold fgt, SFltb. rewrite FloatFacts.compare_rank by assumption.
  rewrite FloatFacts.lexcmp_antisym.
  destruct (lexcmp (rank a) (rank b)); simpl; split; congruence.
Qed.

Lemma fgt_le_trans (a b c : float) :
  isnan a = false -> isnan b = false -> isnan c = false ->
  fgt a b = false -> fgt b c = false -> fgt a c = false.
Proof.
  intros Ha Hb Hc H1 H2. apply fgt_false_iff in H1, H2; auto.
  apply fgt_false_iff; auto. eapply lexcmp_le_trans; eauto.
Qed.

Lemma fgt_asym (a b : float) : fgt a b = true -> fgt b a = false.
Proof.
  unfold fgt, SFltb. intros H.
  destruct (isnan a) eqn:Ha; [destruct a; try discriminate; destruct b; discriminate|].
  destruct (isnan b) eqn:Hb; [destruct b; try discriminate; destruct a; try discriminate; discriminate H|].
  rewrite FloatFacts.compare_rank in * by assumption.
  rewrite FloatFacts.lexcmp_antisym.
  destruct (lexcmp (rank b) (rank a)); simpl; congruence.
Qed.

Lemma fgt_nan_l (a b : float) : isnan a = true -> fgt a b = false.
Proof. intros H. destruct a; try discriminate. unfold fgt, SFltb. destruct b; reflexivity. Qed.

End FloatOrder.

Module IdFacts.
Import Py Text Views.

Lemma max_from_assigned (L : list location) (m : float) :
  isnan m = false ->
  isnan (max_location_id L m) = false /\
  (max_location_id L m = m \/ In (max_location_id L m) (map loc_id L)) /\
  fgt m (max_location_id L m) = false /\
  (forall l, In l L -> isnan (loc_id l) = false -> fgt (loc_id l) (max_location_id L m) = false).
Proof.
  revert m; induction L as [|l r IH]; intros m Hm; simpl.
  - repeat split; auto using FloatFacts.fgt_irrefl. intros l [].
  - rewrite Hm.
    destruct (fgt (loc_id l) m) eqn:G.
    + assert (Hl : isnan (loc_id l) = false).
      { destruct (isnan (loc_id l)) eqn:E; [|reflexivity].
        rewrite FloatOrder.fgt_nan_l in G by exact E. discriminate. }
      destruct (IH _ Hl) as [Hn [Hin [Hge Hall]]].
      split; [exact Hn|split; [|split]].
      * right. destruct Hin as [Heq|Hin]; [left; symmetry; exact Heq|right; exact Hin].
      * eapply FloatOrder.fgt_le_trans; [exact Hm|exact Hl|exact Hn| |exact Hge].
        apply FloatOrder.fgt_asym. exact G.
      * intros l' [<-|Hl'] Hn'; [exact Hge|apply Hall; assumption].
    + destruct (IH _ Hm) as [Hn [Hin [Hge Hall]]].
      split; [exact Hn|split; [|split]].
      * destruct Hin as [Heq|Hin]; [left; exact Heq|right; right; exact Hin].
      * exact Hge.
      * intros l' [<-|Hl'] Hn'; [|apply Hall; assumption].
        eapply FloatOrder.fgt_le_trans; [exact Hn'|exact Hm|exact Hn|exact G|exact Hge].
Qed.

Lemma max_location_id_spec (L : list location) :
  (has_assigned L = false -> isnan (max_location_id L nan) = true) /\
  (has_assigned L = true ->
     isnan (max_location_id L nan) = false /\
     In (max_location_id L nan) (map loc_id L) /\
     forall l, In l L -> isnan (loc_id l) = false ->
       fgt (loc_id l) (max_location_id L nan) = false).
Proof.
  induction L as [|l r IH]; simpl.
  - split; [reflexivity|discriminate].
  - destruct (isnan (loc_id l)) eqn:E; simpl.
    + assert (En : loc_id l = nan) by (destruct (loc_id l); try discriminate; reflexivity).
      rewrite En.
      destruct IH as [IH1 IH2]. split; [exact IH1|].
      intros H. destruct (IH2 H) as [Hn [Hin Hall]].
      split; [exact Hn|split; [right; exact Hin|]].
      intros l' [<-|Hl'] Hn'; [congruence|apply Hall; assumption].
    + split; [discriminate|intros _].
      destruct (max_from_assigned r (loc_id l) E) as [Hn [Hin [Hge Hall]]].
      split; [exact Hn|split].
      * destruct Hin as [Heq|Hin]; [left; symmetry; exact Heq|right; exact Hin].
      * intros l' [<-|Hl'] Hn'; [exact Hge|apply Hall; assumption].
Qed.

End IdFacts.


(* ----------------------------------------------------------------- *)
(** ** Quantile levels *)


Module QuantFacts.
Import Py Text.

Lemma fadd_set_in q x s : In q (fadd_set x s) -> In q s \/ q = x.
Proof.
  unfold fadd_set, PySet.add. destruct (existsb _ _); [auto|].
  intros H. apply in_app_or in H. destruct H as [H|[<-|[]]]; auto.
Qed.

Lemma level_loop_levels idx row r tn j k5 fields levels tab log lv tab' log' :
  level_loop idx row r tn j k5 fields levels tab log = Ok (lv, tab', log') ->
  forall q, In q lv -> In q levels \/
    exists fld, In fld fields /\ py_float (tail_str fld) = Ok (fval q).
Proof.
  revert j levels tab log; induction fields as [|fld rest IH];
    intros j levels tab log H q Hq; simpl in H.
  - injection H as <- <- <-. auto.
  - inv_ok H. inv_ok H.
    destruct (IH _ _ _ _ H q Hq) as [Hin|[fld' [Hf Hp]]].
    + apply fadd_set_in in Hin. destruct Hin as [Hin| ->]; [left; exact Hin|].
      right. exists fld. split; [left; reflexivity|exact E].
    + right. exists fld'. split; [right; exact Hf|exact Hp].
Qed.

Lemma parse_lines_quantiles fn st lines st' :
  parse_lines fn st lines = Ok st' ->
  (s_header st = None -> s_quantiles st = []) ->
  (forall q, In q (s_quantiles st) -> exists h fld, s_header st = Some h /\
     In fld (quantile_fields h) /\ py_float (tail_str fld) = Ok (fval q)) ->
  (s_header st' = None -> s_quantiles st' = []) /\
  (forall q, In q (s_quantiles st') -> exists h fld, s_header st' = Some h /\
     In fld (quantile_fields h) /\ py_float (tail_str fld) = Ok (fval q)).
Proof.
  revert st; induction lines as [|l r IH]; intros st H H1 H2; simpl in H.
  - injection H as <-. auto.
  - inv_ok H. apply (IH a H).
    + destruct (RowFacts.process_line_cases _ _ _ _ E) as [P|[h [Hh D]]].
      * destruct P as (_ & _ & _ & _ & _ & _ & Eq & _ & _ & _ & _ & [Eh|Eh]).
        -- rewrite Eh, Eq. exact H1.
        -- rewrite Eq. intros _. exact (H1 Eh).
      * destruct (RowFacts.data_row_inv _ _ _ _ _ D) as [_ X].
        destruct X as (date & offset & id & cLat & cLon & cElev & locs & info & nobj & shown &
                       warns & out & ghost & loc & o & f & pits & lp & qs & xs & lq & ts & cdfs & lt &
                       Ed & Eo & Eid & Ela & Elo & Eel & Hr & Hloc & Eob & Efc & Epit & Eql & Etl & R).
        subst a. simpl. rewrite Hh. discriminate.
    + destruct (RowFacts.process_line_cases _ _ _ _ E) as [P|[h [Hh D]]].
      * destruct P as (_ & _ & _ & _ & _ & _ & Eq & _ & _ & _ & _ & [Eh|Eh]).
        -- rewrite Eh, Eq. exact H2.
        -- rewrite Eq, (H1 Eh). intros q [].
      * destruct (RowFacts.data_row_inv _ _ _ _ _ D) as [_ X].
        destruct X as (date & offset & id & cLat & cLon & cElev & locs & info & nobj & shown &
                       warns & out & ghost & loc & o & f & pits & lp & qs & xs & lq & ts & cdfs & lt &
                       Ed & Eo & Eid & Ela & Elo & Eel & Hr & Hloc & Eob & Efc & Epit & Eql & Etl & R).
        subst a. simpl. intros q Hq.
        destruct (level_loop_levels _ _ _ _ _ _ _ _ _ _ _ _ _ Eql q Hq) as [Hin|[fld [Hf Hp]]].
        -- exact (H2 q Hin).
        -- exists h, fld. auto.
Qed.

Lemma comps_quantile_range name q :
  Codec.comps_to_verif_quantile name = Ok (Some q) ->
  fge q fzero = true /\ fle q (of_Z 1) = true.
Proof.
  unfold Codec.comps_to_verif_quantile. intros H. inv_ok H.
  destruct a; [|discriminate H].
  destruct (Codec.is_number _); [|discriminate H].
  destruct (float_of_string _); [|discriminate H].
  destruct (fge _ fzero && fle _ (of_Z 1)) eqn:Ec; [|discriminate H].
  injection H as <-. apply andb_prop in Ec. exact Ec.
Qed.

Lemma comps_get_quantiles_range dims vars qs :
  Codec.comps_get_quantiles dims vars = Ok qs ->
  forall q, In q qs -> fge q fzero = true /\ fle q (of_Z 1) = true.
Proof.
  revert qs; induction vars as [|v r IH]; intros qs H q Hq; simpl in H.
  - injection H as <-. destruct Hq.
  - destruct (existsb _ _); [exact (IH _ H q Hq)|].
    inv_ok H. inv_ok H. injection H as <-.
    destruct a as [x|]; [destruct Hq as [<-|Hq]|].
    + exact (comps_quantile_range _ _ E).
    + exact (IH _ eq_refl q Hq).
    + exact (IH _ eq_refl q Hq).
Qed.

End QuantFacts.


(* ----------------------------------------------------------------- *)
(** ** Row arity *)


Module ArityFacts.
Import Py Text Views TextSamples.

Lemma rve_bind {A B} (r : result A) (k : A -> result B) :
  raises_verif_error r = false -> (forall a, raises_verif_error (k a) = false) ->
  raises_verif_error (bind r k) = false.
Proof. destruct r; simpl; auto. Qed.

Lemma rve_py_float s : raises_verif_error (py_float s) = false.
Proof. unfold py_float. destruct (float_of_string s); reflexivity. Qed.

Lemma rve_clean s : raises_verif_error (clean s) = false.
Proof. unfold clean. apply rve_bind; [apply rve_py_float|reflexivity]. Qed.

Lemma rve_field idx row name : raises_verif_error (field idx row name) = false.
Proof.
  unfold field. destruct (dget _ _ _); [|reflexivity].
  apply rve_bind; [unfold list_get; destruct (nth_error _ _); reflexivity|intros; apply rve_clean].
Qed.

Lemma rve_clean_obj me s : raises_verif_error (clean_obj me s) = false.
Proof. unfold clean_obj. apply rve_bind; [apply rve_py_float|reflexivity]. Qed.

Lemma rve_field_or idx r row name d : raises_verif_error (field_or idx r row name d) = false.
Proof.
  unfold field_or. destruct (dget _ _ _); [|reflexivity].
  apply rve_bind; [unfold list_get; destruct (nth_error _ _); reflexivity|intros; apply rve_clean_obj].
Qed.

Lemma rve_level_loop idx row r tn j k5 fields levels tab log :
  raises_verif_error (level_loop idx row r tn j k5 fields levels tab log) = false.
Proof.
  revert j levels tab log; induction fields as [|fld rest IH]; intros j levels tab log;
    simpl; [reflexivity|].
  apply rve_bind; [apply rve_py_float|intros q].
  apply rve_bind; [apply rve_field|intros v]. apply IH.
Qed.

Lemma data_row_no_verif_error st header rowstr row :
  int_is_not (length row) (length header) = false ->
  raises_verif_error (data_row st header rowstr row) = false.
Proof.
  intros Ear. unfold data_row. rewrite Ear. cbn [bind].
  apply rve_bind; [apply rve_field_or|intros date].
  apply rve_bind; [apply rve_field_or|intros offset].
  apply rve_bind; [apply rve_field_or|intros id].
  apply rve_bind; [apply rve_field_or|intros cLat].
  apply rve_bind; [apply rve_field_or|intros cLon].
  apply rve_bind; [apply rve_field_or|intros cElev].
  destruct (resolve_location _ _ _ _ _) as [[[locs info] nobj] [[[shown warns] out] ghost]].
  apply rve_bind; [destruct (dget _ _ _); reflexivity|intros loc].
  apply rve_bind; [apply rve_field|intros o].
  apply rve_bind; [apply rve_field|intros f].
  apply rve_bind.
  { destruct (existsb _ _); [apply rve_bind; [apply rve_field|reflexivity]|reflexivity]. }
  intros pl.
  apply rve_bind; [apply rve_level_loop|intros [[qs xs] lq]].
  apply rve_bind; [apply rve_level_loop|intros [[ts cdfs] lt]].
  reflexivity.
Qed.

Lemma parse_lines_app fn st pre post st1 :
  parse_lines fn st pre = Ok st1 ->
  parse_lines fn st (pre ++ post) = parse_lines fn st1 post.
Proof.
  revert st; induction pre as [|l r IH]; intros st H; simpl in *.
  - injection H as <-. reflexivity.
  - destruct (process_line fn st l); simpl in *; [apply IH; exact H|discriminate H].
Qed.

End ArityFacts.


(* ----------------------------------------------------------------- *)
(** ** The sparse tables hold the last assignment of the log *)

Module LogFacts.
Import Py Text Views.

Lemma agrees_skip t tab log rest :
  agrees t tab log -> Forall (fun w => w_table w <> t) rest -> agrees t tab (log ++ rest).
Proof. intros H Hr. apply TableFacts.agrees_other; assumption. Qed.

Lemma agrees_through t tab log pre r k v rest :
  agrees t tab log -> Forall (fun w => w_table w <> t) pre ->
  Forall (fun w => w_table w <> t) rest ->
  agrees t (dset key_eqb k v tab) (log ++ pre ++ (r, t, k, v) :: rest).
Proof.
  intros H Hp Hr.
  replace (log ++ pre ++ (r, t, k, v) :: rest) with (((log ++ pre) ++ [(r, t, k, v)]) ++ rest)
    by (rewrite <- !app_assoc; reflexivity).
  apply agrees_skip; [|exact Hr].
  apply TableFacts.agrees_set. apply agrees_skip; assumption.
Qed.

Ltac names := repeat constructor; unfold w_table; simpl; discriminate.

Lemma data_row_agree st header rowstr row st' :
  data_row st header rowstr row = Ok st' -> tables_agree st -> tables_agree st'.
Proof.
  intros D [Ho [Hf [Hp [Hx Hc]]]].
  destruct (RowFacts.data_row_inv _ _ _ _ _ D) as [_ X].
  destruct X as (date & offset & id & cLat & cLon & cElev & locs & info & nobj & shown &
                 warns & out & ghost & loc & o & f & pits & lp & qs & xs & lq & ts & cdfs & lt &
                 Ed & Eo & Eid & Ela & Elo & Eel & Hr & Hloc & Eob & Efc & Epit & Eql & Etl & R).
  subst st'. unfold tables_agree. cbn [s_obs s_fcst s_pit s_x s_cdf s_log].
  destruct (TableFacts.level_loop_log _ _ _ _ _ _ _ _ _ _ _ _ _ Eql)
    as [wx [Hlq [Hwx [Hagx _]]]].
  destruct (TableFacts.level_loop_log _ _ _ _ _ _ _ _ _ _ _ _ _ Etl)
    as [wc [Hlt [Hwc [Hagc _]]]].
  assert (Nx : forall t, "x"%string <> t -> Forall (fun w => w_table w <> t) wx).
  { intros t Ht. apply Forall_forall. intros w Hw.
    destruct (Hwx w Hw) as (? & ? & ? & ? & _ & _ & _ & ->). exact Ht. }
  assert (Nc : forall t, "cdf"%string <> t -> Forall (fun w => w_table w <> t) wc).
  { intros t Ht. apply Forall_forall. intros w Hw.
    destruct (Hwc w Hw) as (? & ? & ? & ? & _ & _ & _ & ->). exact Ht. }
  set (k5 := [date; offset; loc_lat loc; loc_lon loc; loc_elev loc]) in *.
  set (O := (s_row st, "obs"%string, k5, o)) in *.
  set (F := (s_row st, "fcst"%string, k5, f)) in *.
  destruct (existsb _ _).
  - destruct Epit as [p [Ep [-> ->]]].
    set (P := (s_row st, "pit"%string, k5, p)) in *.
    assert (El : lt = s_log st ++ O :: F :: P :: wx ++ wc)
      by (rewrite Hlt, Hlq, <- !app_assoc; reflexivity).
    split; [|split; [|split; [|split]]].
    + rewrite El. apply (agrees_through _ _ _ []); [exact Ho|constructor|].
      constructor; [unfold w_table; simpl; discriminate|].
      constructor; [unfold w_table; simpl; discriminate|].
      apply Forall_app; split; [apply Nx|apply Nc]; discriminate.
    + rewrite El. apply (agrees_through _ _ _ [O]); [exact Hf|names|].
      constructor; [unfold w_table; simpl; discriminate|].
      apply Forall_app; split; [apply Nx|apply Nc]; discriminate.
    + rewrite El. apply (agrees_through _ _ _ [O; F]); [exact Hp|names|].
      apply Forall_app; split; [apply Nx|apply Nc]; discriminate.
    + rewrite Hlt. apply agrees_skip; [|apply Nc; discriminate].
      apply Hagx. apply agrees_skip; [exact Hx|names].
    + apply Hagc. rewrite Hlq. apply agrees_skip; [|apply Nx; discriminate].
      apply agrees_skip; [exact Hc|names].
  - destruct Epit as [-> ->].
    assert (El : lt = s_log st ++ O :: F :: wx ++ wc)
      by (rewrite Hlt, Hlq, <- !app_assoc; reflexivity).
    split; [|split; [|split; [|split]]].
    + rewrite El. apply (agrees_through _ _ _ []); [exact Ho|constructor|].
      constructor; [unfold w_table; simpl; discriminate|].
      apply Forall_app; split; [apply Nx|apply Nc]; discriminate.
    + rewrite El. apply (agrees_through _ _ _ [O]); [exact Hf|names|].
      apply Forall_app; split; [apply Nx|apply Nc]; discriminate.
    + rewrite El. apply agrees_skip; [exact Hp|].
      constructor; [unfold w_table; simpl; discriminate|].
      constructor; [unfold w_table; simpl; discriminate|].
      apply Forall_app; split; [apply Nx|apply Nc]; discriminate.
    + rewrite Hlt. apply agrees_skip; [|apply Nc; discriminate].
      apply Hagx. apply agrees_skip; [exact Hx|names].
    + apply Hagc. rewrite Hlq. apply agrees_skip; [|apply Nx; discriminate].
      apply agrees_skip; [exact Hc|names].
Qed.

Lemma process_line_tables fn st l st' :
  process_line fn st l = Ok st' ->
  (s_obs st' = s_obs st /\ s_fcst st' = s_fcst st /\ s_pit st' = s_pit st /\
   s_x st' = s_x st /\ s_cdf st' = s_cdf st /\ s_log st' = s_log st /\
   s_row st' = s_row st /\ s_seen_dates st' = s_seen_dates st /\
   s_seen_offsets st' = s_seen_offsets st /\ s_seen_locs st' = s_seen_locs st)
  \/ (exists header, s_header st = Some header /\ data_row st header l (split l) = Ok st').
Proof.
  intros H. unfold process_line in H. inv_ok H.
  destruct (Ascii.eqb a "#").
  - inv_ok H.
    destruct (String.eqb a0 "variable:"); [injection H as <-; left; simpl; tauto|].
    destruct (String.eqb a0 "units:").
    + inv_ok H. injection H as <-; left; simpl; tauto.
    + injection H as <-. left; simpl. tauto.
  - destruct (s_header st) as [header|] eqn:Eh.
    + right. exists header. auto.
    + inv_ok H.
      destruct (in_indices _ "obs"); unfold util_error in E0; [|discriminate E0].
      inv_ok H.
      destruct (in_indices _ "fcst"); unfold util_error in E1; [|discriminate E1].
      injection H as <-. left; simpl. tauto.
Qed.

Lemma parse_lines_agree fn st lines st' :
  parse_lines fn st lines = Ok st' -> tables_agree st -> tables_agree st'.
Proof.
  revert st; induction lines as [|l r IH]; intros st H Ha; simpl in H.
  - injection H as <-. exact Ha.
  - inv_ok H. apply (IH a H).
    destruct (process_line_tables _ _ _ _ E) as [(E1 & E2 & E3 & E4 & E5 & E6 & _)|[h [_ D]]].
    + unfold tables_agree. rewrite E1, E2, E3, E4, E5, E6. exact Ha.
    + exact (data_row_agree _ _ _ _ _ D Ha).
Qed.

Lemma nth_error_snoc_old {A} (l : list A) x n :
  (n < length l)%nat -> nth_error (l ++ [x]) n = nth_error l n.
Proof. intros H. apply nth_error_app1. exact H. Qed.

Lemma nth_error_snoc_new {A} (l : list A) x : nth_error (l ++ [x]) (length l) = Some x.
Proof. rewrite nth_error_app2, Nat.sub_diag by lia. reflexivity. Qed.

Lemma data_row_rows st header rowstr row st' :
  data_row st header rowstr row = Ok st' -> rows_inv st -> rows_inv st'.
Proof.
  intros D (Ld & Lo & Ll & Hw).
  destruct (RowFacts.data_row_inv _ _ _ _ _ D) as [_ X].
  destruct X as (date & offset & id & cLat & cLon & cElev & locs & info & nobj & shown &
                 warns & out & ghost & loc & o & f & pits & lp & qs & xs & lq & ts & cdfs & lt &
                 Ed & Eo & Eid & Ela & Elo & Eel & Hr & Hloc & Eob & Efc & Epit & Eql & Etl & R).
  subst st'. unfold rows_inv. cbn [s_seen_dates s_seen_offsets s_seen_locs s_row s_log].
  rewrite !length_app, Ld, Lo, Ll. simpl. rewrite Nat.add_1_r.
  split; [reflexivity|split; [reflexivity|split; [reflexivity|]]].
  destruct (TableFacts.level_loop_log _ _ _ _ _ _ _ _ _ _ _ _ _ Eql)
    as [wx [Hlq [Hwx _]]].
  destruct (TableFacts.level_loop_log _ _ _ _ _ _ _ _ _ _ _ _ _ Etl)
    as [wc [Hlt [Hwc _]]].
  (* the assignments of this row *)
  assert (New : forall w, w_row w = s_row st -> (exists rest, w_key w = row_key date offset loc ++ rest) ->
            exists d o l rest,
              nth_error (s_seen_dates st ++ [date]) (w_row w) = Some d /\
              nth_error (s_seen_offsets st ++ [offset]) (w_row w) = Some o /\
              nth_error (s_seen_locs st ++ [loc]) (w_row w) = Some l /\
              w_key w = row_key d o l ++ rest).
  { intros w Hr' [rest Hk]. rewrite Hr'. exists date, offset, loc, rest.
    rewrite <- Ld, nth_error_snoc_new.
    rewrite Ld, <- Lo, nth_error_snoc_new.
    rewrite Lo, <- Ll, nth_error_snoc_new. auto. }
  assert (Old : forall w, In w (s_log st) ->
            exists d o l rest,
              nth_error (s_seen_dates st ++ [date]) (w_row w) = Some d /\
              nth_error (s_seen_offsets st ++ [offset]) (w_row w) = Some o /\
              nth_error (s_seen_locs st ++ [loc]) (w_row w) = Some l /\
              w_key w = row_key d o l ++ rest).
  { intros w Hin. destruct (Hw w Hin) as (d & o' & l & rest & H1 & H2 & H3 & H4).
    assert (Hlt' : (w_row w < s_row st)%nat).
    { rewrite <- Ld. apply nth_error_Some. congruence. }
    exists d, o', l, rest.
    rewrite !nth_error_snoc_old by lia. auto. }
  assert (Lv : forall w ws tn, (forall w, In w ws -> exists fld j' q v,
        In fld (if String.eqb tn "x" then quantile_fields header else threshold_fields header) /\
        py_float (tail_str fld) = Ok q /\ field (s_indices st) row fld = Ok v /\
        w = (s_row st, tn, [date; offset; loc_lat loc; loc_lon loc; loc_elev loc] ++
                           [mkObj q (Made (s_row st) tn j')], v)) -> In w ws ->
        w_row w = s_row st /\ exists rest, w_key w = row_key date offset loc ++ rest).
  { intros w0 ws tn Hws Hin. destruct (Hws w0 Hin) as (? & j' & q & v & _ & _ & _ & ->).
    split; [reflexivity|]. eexists. reflexivity. }
  intros w Hin. rewrite Hlt, Hlq in Hin.
  apply in_app_or in Hin. destruct Hin as [Hin|Hin].
  2:{ destruct (Lv w wc "cdf"%string Hwc Hin) as [H1 H2]. apply New; assumption. }
  apply in_app_or in Hin. destruct Hin as [Hin|Hin].
  2:{ destruct (Lv w wx "x"%string Hwx Hin) as [H1 H2]. apply New; assumption. }
  destruct (existsb _ _); [destruct Epit as [p [_ [_ ->]]]|destruct Epit as [_ ->]];
    repeat (apply in_app_or in Hin; destruct Hin as [Hin|Hin]); try (exact (Old w Hin));
    simpl in Hin; repeat destruct Hin as [<-|Hin]; try destruct Hin;
    apply New; try reflexivity; exists []; rewrite app_nil_r; reflexivity.
Qed.

Lemma parse_lines_rows fn st lines st' :
  parse_lines fn st lines = Ok st' -> rows_inv st -> rows_inv st'.
Proof.
  revert st; induction lines as [|l r IH]; intros st H Ha; simpl in H.
  - injection H as <-. exact Ha.
  - inv_ok H. apply (IH a H).
    destruct (process_line_tables _ _ _ _ E)
      as [(_ & _ & _ & _ & _ & E6 & E7 & E8 & E9 & E10)|[h [_ D]]].
    + unfold rows_inv. rewrite E6, E7, E8, E9, E10. exact Ha.
    + exact (data_row_rows _ _ _ _ _ D Ha).
Qed.

Lemma init_rows : rows_inv init.
Proof. repeat split. intros w []. Qed.

Lemma init_agree : tables_agree init.
Proof. repeat split; intros k; reflexivity. Qed.

Lemma lookup_logged t tab log k :
  agrees t tab log -> lookup_or_nan tab k = logged t k log.
Proof. intros H. unfold lookup_or_nan, logged. rewrite H. reflexivity. Qed.

Lemma key_eqb_app (a b c d : key) :
  length a = length c -> key_eqb (a ++ b) (c ++ d) = key_eqb a c && key_eqb b d.
Proof.
  revert c; induction a as [|x a IH]; intros [|y c] H; simpl in *; try discriminate; auto.
  rewrite IH by lia. apply andb_assoc.
Qed.

Lemma last_write_absent t k log acc :
  (forall w, In w log -> key_eqb (w_key w) k = false) -> last_write t k log acc = acc.
Proof.
  revert acc; induction log as [|[[[r t'] k'] v] log IH]; intros acc H; simpl; [reflexivity|].
  pose proof (H _ (or_introl eq_refl)) as Hk. unfold w_key in Hk. simpl in Hk.
  rewrite Hk, andb_false_r. apply IH. intros w Hw. apply H. right. exact Hw.
Qed.

(** A combination absent from the rows read was never assigned: its
    cells, with or without a level, are NaN. *)
Lemma absent_nan st d o l extra t :
  rows_inv st -> row_absent st d o l -> logged t (row_key d o l ++ extra) (s_log st) = nan.
Proof.
  intros (_ & _ & _ & Hw) Ha. unfold logged. rewrite last_write_absent; [reflexivity|].
  intros w Hin. destruct (Hw w Hin) as (d' & o' & l' & rest & H1 & H2 & H3 & ->).
  rewrite key_eqb_app by reflexivity. rewrite (Ha _ _ _ _ H1 H2 H3). reflexivity.
Qed.

(** The cells of the snapshot hold the logged values of their keys. *)
Lemma finish_cells st :
  tables_agree st ->
  forall i j k d o l,
    nth_error (fset_list (s_dates st)) i = Some d ->
    nth_error (fset_list (s_offsets st)) j = Some o ->
    nth_error (locations (finish st)) k = Some l ->
    cell3 (obs (finish st)) i j k = Some (logged "obs" (row_key d o l) (s_log st)) /\
    cell3 (deterministic (finish st)) i j k = Some (logged "fcst" (row_key d o l) (s_log st)) /\
    (forall P, pit (finish st) = Some P ->
       cell3 P i j k = Some (logged "pit" (row_key d o l) (s_log st))) /\
    (forall t q, nth_error (fset_list (s_thresholds st)) t = Some q ->
       cell4 (threshold_scores (finish st)) i j k t =
         Some (logged "cdf" (row_key d o l ++ [q]) (s_log st))) /\
    (forall t q, nth_error (fset_list (s_quantiles st)) t = Some q ->
       cell4 (quantile_scores (finish st)) i j k t =
         Some (logged "x" (row_key d o l ++ [q]) (s_log st))).
Proof.
  intros (Ao & Af & Ap & Ax & Ac) i j k d o l Hd Ho Hl.
  unfold finish in Hl |- *. cbn [obs deterministic pit threshold_scores quantile_scores locations] in *.
  destruct (DenseFacts.deferred_ids_coords _ _ _ Hl) as [l0 [Hl0 [E1 [E2 E3]]]].
  assert (Ek : row_key d o l = row_key d o l0) by (unfold row_key; congruence).
  rewrite Ek.
  split; [rewrite (DenseFacts.dense3_cell _ _ _ _ _ _ _ _ _ _ Hd Ho Hl0), (lookup_logged _ _ _ _ Ao);
          reflexivity|].
  split; [rewrite (DenseFacts.dense3_cell _ _ _ _ _ _ _ _ _ _ Hd Ho Hl0), (lookup_logged _ _ _ _ Af);
          reflexivity|].
  split; [|split].
  - intros P HP. destruct (s_pit st); [discriminate HP|]. injection HP as <-.
    rewrite (DenseFacts.dense3_cell _ _ _ _ _ _ _ _ _ _ Hd Ho Hl0), (lookup_logged _ _ _ _ Ap).
    reflexivity.
  - intros t q Hq. rewrite (DenseFacts.dense4_cell _ _ _ _ _ _ _ _ _ _ _ _ _ Hd Ho Hl0 Hq).
    unfold row_key. rewrite <- E1, <- E2, <- E3. fold (row_key d o l).
    rewrite (lookup_logged _ _ _ _ Ac). reflexivity.
  - intros t q Hq. rewrite (DenseFacts.dense4_cell _ _ _ _ _ _ _ _ _ _ _ _ _ Hd Ho Hl0 Hq).
    unfold row_key. rewrite <- E1, <- E2, <- E3. fold (row_key d o l).
    rewrite (lookup_logged _ _ _ _ Ax). reflexivity.
Qed.

End LogFacts.

(* ----------------------------------------------------------------- *)
(** ** Dense assembly of the text snapshot *)

Module DenseAssembly.
Import Py Text Views TextSamples.

(** C4 (corrected).  After a successful text load, the coordinates are
    the values of the objects of the frozen sets, [obs] and
    [deterministic] (and [pit] when present) have shape (number of dates,
    offsets, locations), and [threshold_scores] and [quantile_scores]
    have one more axis, of the thresholds and the quantiles.  The cell of
    date [d], offset [o] and location [l] (and level [q]) holds the value
    of the last assignment to the sparse dict under a key equal to
    [(d, o, lat, lon, elev)] of [l] (with [q]), and not-a-number when
    there is none.  Every assignment is made by a data row under a key
    that starts with that row's date, offset and Location coordinates, so
    a combination whose key matches no data row's key holds NaN in every
    array.  The key carries the coordinates, not the id: two locations
    with the same coordinates share their cells. *)
Theorem text_dense_assembly (fn : string) (lines : list string) (s : snapshot) :
  load fn lines = Ok s ->
  exists st, parse_lines fn init lines = Ok st /\ s = finish st /\
    dates s = map fval (fset_list (s_dates st)) /\
    offsets s = map fval (fset_list (s_offsets st)) /\
    thresholds s = map fval (fset_list (s_thresholds st)) /\
    quantiles s = map fval (fset_list (s_quantiles st)) /\
    shape3 (obs s) (length (dates s)) (length (offsets s)) (length (locations s)) /\
    shape3 (deterministic s) (length (dates s)) (length (offsets s)) (length (locations s)) /\
    (forall P, pit s = Some P ->
       shape3 P (length (dates s)) (length (offsets s)) (length (locations s))) /\
    shape4 (threshold_scores s) (length (dates s)) (length (offsets s))
           (length (locations s)) (length (thresholds s)) /\
    shape4 (quantile_scores s) (length (dates s)) (length (offsets s))
           (length (locations s)) (length (quantiles s)) /\
    rows_inv st /\
    forall i j k d o l,
      nth_error (fset_list (s_dates st)) i = Some d ->
      nth_error (fset_list (s_offsets st)) j = Some o ->
      nth_error (locations s) k = Some l ->
      (cell3 (obs s) i j k = Some (logged "obs" (row_key d o l) (s_log st)) /\
       cell3 (deterministic s) i j k = Some (logged "fcst" (row_key d o l) (s_log st)) /\
       (forall P, pit s = Some P ->
          cell3 P i j k = Some (logged "pit" (row_key d o l) (s_log st))) /\
       (forall t q, nth_error (fset_list (s_thresholds st)) t = Some q ->
          cell4 (threshold_scores s) i j k t = Some (logged "cdf" (row_key d o l ++ [q]) (s_log st))) /\
       (forall t q, nth_error (fset_list (s_quantiles st)) t = Some q ->
          cell4 (quantile_scores s) i j k t = Some (logged "x" (row_key d o l ++ [q]) (s_log st)))) /\
      (row_absent st d o l ->
       cell3 (obs s) i j k = Some nan /\ cell3 (deterministic s) i j k = Some nan /\
       (forall P, pit s = Some P -> cell3 P i j k = Some nan) /\
       (forall t, (t < length (thresholds s))%nat -> cell4 (threshold_scores s) i j k t = Some nan) /\
       (forall t, (t < length (quantiles s))%nat -> cell4 (quantile_scores s) i j k t = Some nan)).
Proof.
  intros H. destruct (RowFacts.load_inv _ _ _ H) as [st [Hp ->]].
  pose proof (LogFacts.parse_lines_agree _ _ _ _ Hp LogFacts.init_agree) as Ha.
  pose proof (LogFacts.parse_lines_rows _ _ _ _ Hp LogFacts.init_rows) as Hr.
  exists st. split; [exact Hp|split; [reflexivity|]].
  split; [reflexivity|split; [reflexivity|split; [reflexivity|split; [reflexivity|]]]].
  assert (Lens : length (dates (finish st)) = length (fset_list (s_dates st)) /\
                 length (offsets (finish st)) = length (fset_list (s_offsets st)) /\
                 length (locations (finish st)) = length (loc_list (s_locations st)) /\
                 length (thresholds (finish st)) = length (fset_list (s_thresholds st)) /\
                 length (quantiles (finish st)) = length (fset_list (s_quantiles st))).
  { unfold finish, deferred_ids. simpl. rewrite !length_map, DenseFacts.assign_ids_length. auto. }
  destruct Lens as (L1 & L2 & L3 & L4 & L5). rewrite L1, L2, L3, L4, L5.
  split; [apply DenseFacts.dense3_shape|].
  split; [apply DenseFacts.dense3_shape|].
  split; [intros P HP; unfold finish in HP; simpl in HP; destruct (s_pit st); [discriminate HP|];
          injection HP as <-; apply DenseFacts.dense3_shape|].
  split; [apply DenseFacts.dense4_shape|].
  split; [apply DenseFacts.dense4_shape|].
  split; [exact Hr|].
  intros i j k d o l Hd Ho Hl.
  destruct (LogFacts.finish_cells st Ha i j k d o l Hd Ho Hl) as (C1 & C2 & C3 & C4 & C5).
  split; [auto|].
  intros Hab.
  rewrite C1, C2, <- (app_nil_r (row_key d o l)), !(LogFacts.absent_nan st d o l [] _ Hr Hab).
  split; [reflexivity|split; [reflexivity|split; [|split]]].
  - intros P HP. rewrite (C3 P HP), <- (app_nil_r (row_key d o l)).
    rewrite (LogFacts.absent_nan st d o l [] _ Hr Hab). reflexivity.
  - intros t Ht.
    destruct (nth_error (fset_list (s_thresholds st)) t) as [q|] eqn:Eq;
      [|apply nth_error_None in Eq; lia].
    rewrite (C4 t q Eq), (LogFacts.absent_nan st d o l [q] _ Hr Hab). reflexivity.
  - intros t Ht.
    destruct (nth_error (fset_list (s_quantiles st)) t) as [q|] eqn:Eq;
      [|apply nth_error_None in Eq; lia].
    rewrite (C5 t q Eq), (LogFacts.absent_nan st d o l [q] _ Hr Hab). reflexivity.
Qed.

(** A witness: the sample is loaded and the theorem applies to it. *)
Lemma text_dense_assembly_witness :
  let fn := "f"%string in let lines := sample_shared_coords in
  let s := snapshot_of (load fn lines) in
  load fn lines = Ok s /\
  exists st, parse_lines fn init lines = Ok st /\ s = finish st /\
    dates s = map fval (fset_list (s_dates st)) /\
    offsets s = map fval (fset_list (s_offsets st)) /\
    thresholds s = map fval (fset_list (s_thresholds st)) /\
    quantiles s = map fval (fset_list (s_quantiles st)) /\
    shape3 (obs s) (length (dates s)) (length (offsets s)) (length (locations s)) /\
    shape3 (deterministic s) (length (dates s)) (length (offsets s)) (length (locations s)) /\
    (forall P, pit s = Some P ->
       shape3 P (length (dates s)) (length (offsets s)) (length (locations s))) /\
    shape4 (threshold_scores s) (length (dates s)) (length (offsets s))
           (length (locations s)) (length (thresholds s)) /\
    shape4 (quantile_scores s) (length (dates s)) (length (offsets s))
           (length (locations s)) (length (quantiles s)) /\
    rows_inv st /\
    forall i j k d o l,
      nth_error (fset_list (s_dates st)) i = Some d ->
      nth_error (fset_list (s_offsets st)) j = Some o ->
      nth_error (locations s) k = Some l ->
      (cell3 (obs s) i j k = Some (logged "obs" (row_key d o l) (s_log st)) /\
       cell3 (deterministic s) i j k = Some (logged "fcst" (row_key d o l) (s_log st)) /\
       (forall P, pit s = Some P ->
          cell3 P i j k = Some (logged "pit" (row_key d o l) (s_log st))) /\
       (forall t q, nth_error (fset_list (s_thresholds st)) t = Some q ->
          cell4 (threshold_scores s) i j k t = Some (logged "cdf" (row_key d o l ++ [q]) (s_log st))) /\
       (forall t q, nth_error (fset_list (s_quantiles st)) t = Some q ->
          cell4 (quantile_scores s) i j k t = Some (logged "x" (row_key d o l ++ [q]) (s_log st)))) /\
      (row_absent st d o l ->
       cell3 (obs s) i j k = Some nan /\ cell3 (deterministic s) i j k = Some nan /\
       (forall P, pit s = Some P -> cell3 P i j k = Some nan) /\
       (forall t, (t < length (thresholds s))%nat -> cell4 (threshold_scores s) i j k t = Some nan) /\
       (forall t, (t < length (quantiles s))%nat -> cell4 (quantile_scores s) i j k t = Some nan)).
Proof.
  intros fn lines s.
  assert (H : load fn lines = Ok s) by (vm_compute; reflexivity).
  split; [exact H|exact (text_dense_assembly fn lines s H)].
Defined.

(** Counterexample to C4: locations 1 and 2 both have the default
    coordinates.  No row has date 1 at location 2, yet that cell holds 5,
    the value of location 1 at date 1. *)
Lemma text_dense_assembly_counterexample :
  match load "f"%string sample_shared_coords with
  | Ok s =>
      map loc_id (locations s) = [lit "1"; lit "2"] /\ dates s = [lit "1"; lit "2"] /\
      obs s = [[[lit "5"; lit "5"]]; [[lit "6"; lit "6"]]]
  | Raise _ => False
  end.
Proof. vm_compute. repeat split. Qed.
End DenseAssembly.

(* ----------------------------------------------------------------- *)
(** ** Quantile coordinates *)

Module QuantileRange.
Import Py Text Views TextSamples.

(** C5 (corrected).  The quantile levels decoded from COMPS variable
    names lie in [[0, 1]].  A text header's quantile column [qX] gives the
    level [float(X)], unchecked, so the text quantile coordinates are
    exactly such values, which need not lie in [[0, 1]].  The NetCDF-CF
    decoder returns the stored [quantiles] array cleaned, without any
    range check: each coordinate is a stored value or NaN. *)
Theorem quantile_coordinates_range :
  (forall dims vars qs q,
     Codec.comps_get_quantiles dims vars = Ok qs -> In q qs ->
     fge q fzero = true /\ fle q (of_Z 1) = true) /\
  (forall fn lines s q,
     load fn lines = Ok s -> In q (quantiles s) ->
     exists st h fld, parse_lines fn init lines = Ok st /\ s_header st = Some h /\
       In fld (quantile_fields h) /\ py_float (tail_str fld) = Ok q) /\
  (forall vars qs,
     NetcdfCf.get_quantiles vars = Ok qs ->
     exists stored, NetcdfCf.variable vars "quantiles" = Ok stored /\
       qs = NetcdfCf.util_clean stored /\
       forall q, In q qs -> isnan q = true \/ (In q stored /\ feq q (of_Z (-999)) = false)).
Proof.
  split; [|split].
  - intros dims vars qs q H Hq. exact (QuantFacts.comps_get_quantiles_range _ _ _ H q Hq).
  - intros fn lines s q H Hq. destruct (RowFacts.load_inv _ _ _ H) as [st [Hp ->]].
    destruct (QuantFacts.parse_lines_quantiles _ _ _ _ Hp (fun _ => eq_refl)
                (fun q (F : In q []) => match F with end)) as [_ Hall].
    simpl in Hq. apply in_map_iff in Hq. destruct Hq as [qo [<- Hq]].
    assert (Hq' : In qo (s_quantiles st)).
    { eapply Permutation_in; [apply PySetFacts.to_list_perm|exact Hq]. }
    destruct (Hall qo Hq') as [h [fld [Hh [Hf Hv]]]].
    exists st, h, fld. auto.
  - intros vars qs H. unfold NetcdfCf.get_quantiles in H. inv_ok H. injection H as <-.
    exists a. split; [reflexivity|split; [reflexivity|]].
    intros q Hq. unfold NetcdfCf.util_clean in Hq. apply in_map_iff in Hq.
    destruct Hq as [x [<- Hx]].
    destruct (feq x (of_Z (-999))) eqn:Ex; [left; reflexivity|right; auto].
Qed.

(** A witness: the COMPS name [q30], the text sample with a [q50]
    column, and a NetCDF-CF file storing the quantile 50. *)
Lemma quantile_coordinates_range_witness :
  let s := snapshot_of (load "f"%string sample_quantile) in
  (fge (lit "0.3") fzero = true /\ fle (lit "0.3") (of_Z 1) = true) /\
  (exists st h fld, parse_lines "f"%string init sample_quantile = Ok st /\ s_header st = Some h /\
    In fld (quantile_fields h) /\ py_float (tail_str fld) = Ok (lit "50")) /\
  (exists stored, NetcdfCf.variable [("quantiles"%string, [lit "50"])] "quantiles" = Ok stored /\
     [lit "50"] = NetcdfCf.util_clean stored /\
     forall q, In q [lit "50"] -> isnan q = true \/ (In q stored /\ feq q (of_Z (-999)) = false)).
Proof.
  intros s. split; [|split].
  - apply (proj1 quantile_coordinates_range [] ["q30"%string; "obs"%string]
             [lit "0.3"] (lit "0.3")); [vm_compute; reflexivity|left; reflexivity].
  - apply (proj1 (proj2 quantile_coordinates_range) "f"%string sample_quantile s (lit "50"));
      [vm_compute; reflexivity|vm_compute; left; reflexivity].
  - apply (proj2 (proj2 quantile_coordinates_range) [("quantiles"%string, [lit "50"])]).
    vm_compute. reflexivity.
Defined.

(** Counterexample to C5: the text header column [q50] gives the quantile
    coordinate 50, and so does a NetCDF-CF file whose [quantiles] array
    holds 50. *)
Lemma quantile_coordinates_range_counterexample :
  match load "f"%string sample_quantile with
  | Ok s => quantiles s = [lit "50"] /\ fle (lit "50") (of_Z 1) = false
  | Raise _ => False
  end /\
  NetcdfCf.get_quantiles [("quantiles"%string, [lit "50"])] = Ok [lit "50"].
Proof. vm_compute. repeat split. Qed.
End QuantileRange.

(* ----------------------------------------------------------------- *)
(** ** Deferred location ids *)

Module DeferredIds.
Import Py Text Views TextSamples.

(** C6 (corrected).  After a text load, the locations come in the order
    of [list(set)] of the location objects.  Along that order, a location
    that already had an id keeps it, and the k-th location without one gets
    [start + k], where [start] is one above the maximum assigned id, or 0
    when no location had an id.  The order is the set's slot order, which
    is not the order in which the locations were first met. *)
Theorem text_deferred_ids (fn : string) (lines : list string) (s : snapshot) :
  load fn lines = Ok s ->
  exists st, parse_lines fn init lines = Ok st /\
    let L := loc_list (s_locations st) in
    let M := max_location_id L nan in
    let start := if has_assigned L then fadd M (of_Z 1) else fzero in
    Permutation L (s_locations st) /\
    length (locations s) = length L /\
    (forall k l, nth_error L k = Some l ->
       nth_error (locations s) k =
         Some (mkLocation (loc_obj l)
                 (if isnan (loc_id l)
                  then Nat.iter (count_unassigned (firstn k L)) (fun c => fadd c (of_Z 1)) start
                  else loc_id l)
                 (loc_lat l) (loc_lon l) (loc_elev l))) /\
    (has_assigned L = true ->
       isnan M = false /\ In M (map loc_id L) /\
       forall l, In l L -> isnan (loc_id l) = false -> fgt (loc_id l) M = false).
Proof.
  intros H. destruct (RowFacts.load_inv _ _ _ H) as [st [Hp ->]].
  exists st. split; [exact Hp|]. cbv zeta. unfold finish, locations.
  set (L := loc_list (s_locations st)).
  destruct (IdFacts.max_location_id_spec L) as [S1 S2].
  assert (Hc : (if negb (isnan (max_location_id L nan))
                then fadd (max_location_id L nan) (of_Z 1) else fzero) =
               (if has_assigned L then fadd (max_location_id L nan) (of_Z 1) else fzero)).
  { destruct (has_assigned L) eqn:E.
    - destruct (S2 eq_refl) as [-> _]. reflexivity.
    - rewrite (S1 eq_refl). reflexivity. }
  split; [apply PySetFacts.to_list_perm|].
  unfold deferred_ids. cbv zeta. rewrite Hc.
  split; [apply DenseFacts.assign_ids_length|].
  split; [intros k l Hk; apply DenseFacts.assign_ids_nth; exact Hk|exact S2].
Qed.

(** A witness: the sample is loaded and the theorem applies to it. *)
Lemma text_deferred_ids_witness :
  let fn := "f"%string in let lines := sample_no_ids in
  let s := snapshot_of (load fn lines) in
  load fn lines = Ok s /\
  exists st, parse_lines fn init lines = Ok st /\
    let L := loc_list (s_locations st) in
    let M := max_location_id L nan in
    let start := if has_assigned L then fadd M (of_Z 1) else fzero in
    Permutation L (s_locations st) /\
    length (locations s) = length L /\
    (forall k l, nth_error L k = Some l ->
       nth_error (locations s) k =
         Some (mkLocation (loc_obj l)
                 (if isnan (loc_id l)
                  then Nat.iter (count_unassigned (firstn k L)) (fun c => fadd c (of_Z 1)) start
                  else loc_id l)
                 (loc_lat l) (loc_lon l) (loc_elev l))) /\
    (has_assigned L = true ->
       isnan M = false /\ In M (map loc_id L) /\
       forall l, In l L -> isnan (loc_id l) = false -> fgt (loc_id l) M = false).
Proof.
  intros fn lines s.
  assert (H : load fn lines = Ok s) by (vm_compute; reflexivity).
  split; [exact H|exact (text_deferred_ids fn lines s H)].
Defined.

(** Counterexample to C6: five locations without ids, met in the order of
    their objects 0 to 4.  The fifth one met (object 4) comes third in the
    set order and gets id 2, not 4. *)
Lemma text_deferred_ids_counterexample :
  match load "f"%string sample_no_ids with
  | Ok s =>
      map loc_obj (locations s) = [0; 1; 4; 2; 3]%nat /\
      map loc_id (locations s) = map of_Z [0; 1; 2; 3; 4]
  | Raise _ => False
  end.
Proof. vm_compute. repeat split. Qed.
End DeferredIds.

(* ----------------------------------------------------------------- *)
(** ** Dates and offsets *)

Module Coordinates.
Import Py Text Views TextSamples CoordFacts.


Lemma set_of_listing s seen :
  set_of s seen ->
  distinct_values (fset_list s) /\
  (forall d, In d (fset_list s) -> In d seen) /\
  (forall d, In d seen -> exists d', In d' (fset_list s) /\ key_eq d d' = true).
Proof.
  intros [Hd [Hin Hcov]].
  pose proof (PySetFacts.to_list_perm (fun x => hash_float (fval x)) s) as P.
  fold (fset_list s) in P.
  split; [|split].
  - eapply distinct_perm; [apply Permutation_sym; exact P|exact Hd].
  - intros d Hdi. apply Hin. eapply Permutation_in; [exact P|exact Hdi].
  - intros d Hds. destruct (Hcov d Hds) as [y [Hy Hdy]]. exists y. split; [|exact Hdy].
    eapply Permutation_in; [apply Permutation_sym; exact P|exact Hy].
Qed.

Lemma distinct_nth (l : list fobj) i j a b :
  distinct_values l -> i <> j -> nth_error l i = Some a -> nth_error l j = Some b ->
  feq (fval a) (fval b) = false.
Proof.
  intros [Hnd Hk] Hij Ha Hb. destruct (feq (fval a) (fval b)) eqn:E; [|reflexivity].
  exfalso. assert (Hab : a = b).
  { apply Hk; [eapply nth_error_In; exact Ha|eapply nth_error_In; exact Hb|].
    unfold key_eq. rewrite E. reflexivity. }
  subst b. apply Hij. eapply NoDup_nth_error; [exact Hnd| |congruence].
  apply nth_error_Some. congruence.
Qed.

(** C7 (corrected).  After a text load, [dates] and [offsets] are the
    values of the objects of the frozen sets.  The objects are pairwise
    distinct set elements: no two are the same object or [==].  Each was
    passed to [add] by a data row, and each object passed is the same
    object as, or [==] to, one of them; no two entries of [dates] (or of
    [offsets]) are [==].  Their order is the iteration order of a Python
    [set], which is not the order of first occurrence in the file. *)
Theorem text_coordinates_distinct_seen (fn : string) (lines : list string) (s : snapshot) :
  load fn lines = Ok s ->
  exists st, parse_lines fn init lines = Ok st /\
    dates s = map fval (fset_list (s_dates st)) /\
    offsets s = map fval (fset_list (s_offsets st)) /\
    distinct_values (fset_list (s_dates st)) /\
    (forall d, In d (fset_list (s_dates st)) -> In d (s_seen_dates st)) /\
    (forall d, In d (s_seen_dates st) ->
       exists d', In d' (fset_list (s_dates st)) /\ key_eq d d' = true) /\
    distinct_values (fset_list (s_offsets st)) /\
    (forall o, In o (fset_list (s_offsets st)) -> In o (s_seen_offsets st)) /\
    (forall o, In o (s_seen_offsets st) ->
       exists o', In o' (fset_list (s_offsets st)) /\ key_eq o o' = true) /\
    (forall i j x y, i <> j -> nth_error (dates s) i = Some x -> nth_error (dates s) j = Some y ->
       feq x y = false) /\
    (forall i j x y, i <> j -> nth_error (offsets s) i = Some x -> nth_error (offsets s) j = Some y ->
       feq x y = false).
Proof.
  intros H. destruct (RowFacts.load_inv _ _ _ H) as [st [Hp ->]].
  exists st. split; [exact Hp|].
  destruct (parse_lines_coords _ _ _ _ Hp set_of_nil set_of_nil) as [Hd Ho].
  apply set_of_listing in Hd, Ho.
  destruct Hd as (Dd & Id & Cd), Ho as (Do & Io & Co).
  unfold finish; cbn [dates offsets]. repeat (split; [first [reflexivity | assumption]|]).
  split; intros i j x y Hij Hx Hy; rewrite nth_error_map in Hx, Hy;
    [ destruct (nth_error (fset_list (s_dates st)) i) as [a|] eqn:Ea; [|discriminate Hx];
      destruct (nth_error (fset_list (s_dates st)) j) as [b|] eqn:Eb; [|discriminate Hy]
    | destruct (nth_error (fset_list (s_offsets st)) i) as [a|] eqn:Ea; [|discriminate Hx];
      destruct (nth_error (fset_list (s_offsets st)) j) as [b|] eqn:Eb; [|discriminate Hy] ];
    simpl in Hx, Hy; injection Hx as <-; injection Hy as <-;
    (eapply distinct_nth; [| exact Hij | exact Ea | exact Eb]); assumption.
Qed.

(** A witness: the sample is loaded and the theorem applies to it. *)
Lemma text_coordinates_distinct_seen_witness :
  let fn := "f"%string in let lines := sample_dates in
  let s := snapshot_of (load fn lines) in
  load fn lines = Ok s /\
  exists st, parse_lines fn init lines = Ok st /\
    dates s = map fval (fset_list (s_dates st)) /\
    offsets s = map fval (fset_list (s_offsets st)) /\
    distinct_values (fset_list (s_dates st)) /\
    (forall d, In d (fset_list (s_dates st)) -> In d (s_seen_dates st)) /\
    (forall d, In d (s_seen_dates st) ->
       exists d', In d' (fset_list (s_dates st)) /\ key_eq d d' = true) /\
    distinct_values (fset_list (s_offsets st)) /\
    (forall o, In o (fset_list (s_offsets st)) -> In o (s_seen_offsets st)) /\
    (forall o, In o (s_seen_offsets st) ->
       exists o', In o' (fset_list (s_offsets st)) /\ key_eq o o' = true) /\
    (forall i j x y, i <> j -> nth_error (dates s) i = Some x -> nth_error (dates s) j = Some y ->
       feq x y = false) /\
    (forall i j x y, i <> j -> nth_error (offsets s) i = Some x -> nth_error (offsets s) j = Some y ->
       feq x y = false).
Proof.
  intros fn lines s.
  assert (H : load fn lines = Ok s) by (vm_compute; reflexivity).
  split; [exact H|exact (text_coordinates_distinct_seen fn lines s H)].
Defined.

(** Counterexample to C7: the file gives date 2 before date 1, and the
    snapshot lists 1 before 2.  Each text [nan] is a new NaN object, so
    two rows dated [nan] give two dates; the sentinel -999 is replaced by
    the one object [np.nan], so two rows dated -999 give one. *)
Lemma text_coordinates_distinct_seen_counterexample :
  match load "f"%string sample_dates with
  | Ok s => dates s = [lit "1"; lit "2"]
  | Raise _ => False
  end /\
  match load "f"%string sample_nan_dates with
  | Ok s => dates s = [nan; nan]
  | Raise _ => False
  end /\
  match load "f"%string (lines_of ["date obs fcst"; "-999 1 1"; "-999 2 2"]%string) with
  | Ok s => dates s = [nan]
  | Raise _ => False
  end.
Proof. vm_compute. repeat split. Qed.
End Coordinates.

(* ----------------------------------------------------------------- *)
(** ** Conflicting locations *)


Module ConflictWarnings.
Import Py Text Views TextSamples.

(** C8.  During a text load, the number of conflict warnings emitted is
    1 if at least one conflict was detected and 0 otherwise.  A registered
    location identity is never replaced.  A data row whose id names a
    registered location [L] leaves the locations unchanged, and stores its
    [obs] under the key built from [L]'s stored lat, lon and elevation. *)
Theorem text_conflict_warning_once :
  (forall fn lines st,
     parse_lines fn init lines = Ok st ->
     count_conflict_warnings (s_warnings st) = (if (0 <? s_conflicts st)%nat then 1 else 0)%nat) /\
  (forall fn st lines st' i L,
     parse_lines fn st lines = Ok st' ->
     isnan (fval i) = false -> dget key_eq i (s_location_info st) = Some L ->
     dget key_eq i (s_location_info st') = Some L) /\
  (forall st header rowstr row st' i L o,
     data_row st header rowstr row = Ok st' ->
     field_or (s_indices st) (s_row st) row "id" np_nan = Ok i -> isnan (fval i) = false ->
     dget key_eq i (s_location_info st) = Some L ->
     field (s_indices st) row "obs" = Ok o ->
     s_locations st' = s_locations st /\ s_location_info st' = s_location_info st /\
     dget key_eqb [s_date st'; s_offset st'; loc_lat L; loc_lon L; loc_elev L] (s_obs st')
       = Some o).
Proof.
  split; [|split].
  - intros fn lines st H.
    destruct (LocFacts.parse_lines_warnings _ _ _ _ H eq_refl eq_refl) as [Hs Hc].
    rewrite Hc, Hs. reflexivity.
  - intros. eapply LocFacts.parse_lines_info_keep; eauto.
  - intros st header rowstr row st' i L o H Hid Hi HL Ho.
    destruct (RowFacts.data_row_inv _ _ _ _ _ H) as [_ X].
    destruct X as (date & offset & id & cLat & cLon & cElev & locs & info & nobj & shown &
                   warns & out & ghost & loc & o' & f & pits & lp & qs & xs & lq & ts & cdfs & lt &
                   Ed & Eo & Eid & Ela & Elo & Eel & Hr & Hloc & Eob & Efc & Epit & Eq & Et & ->).
    rewrite Hid in Eid. injection Eid as <-.
    rewrite Ho in Eob. injection Eob as <-.
    destruct (LocFacts.resolve_known _ _ _ _ _ _ _ _ _ _ Hr Hi HL) as [-> ->].
    rewrite HL in Hloc. injection Hloc as <-.
    simpl. split; [reflexivity|split; [reflexivity|]].
    apply DictFacts.dget_dset_same.
    + exact DictFacts.key_eqb_sym.
    + exact DictFacts.key_eqb_trans.
    + apply DictFacts.key_eqb_refl.
Qed.

(** A witness: the sample with two conflicting rows of location 1. *)
Lemma text_conflict_warning_once_witness :
  let st := state_of (parse_lines "f"%string init sample_conflicts) in
  let st1 := prefix_state sample_conflicts 2 in
  let i := mkObj (lit "1") (Made 1 "id" 0) in
  let L := registered st1 i in
  let st2 := row_state sample_conflicts 2 in
  (count_conflict_warnings (s_warnings st) = (if (0 <? s_conflicts st)%nat then 1 else 0)%nat /\
   s_conflicts st = 2%nat) /\
  dget key_eq i (s_location_info st) = Some L /\
  (s_locations st2 = s_locations st1 /\ s_location_info st2 = s_location_info st1 /\
   dget key_eqb [s_date st2; s_offset st2; loc_lat L; loc_lon L; loc_elev L] (s_obs st2)
     = Some (lit "2")).
Proof.
  intros st st1 i L st2. split; [split|split].
  - apply (proj1 text_conflict_warning_once "f"%string sample_conflicts st). vm_compute. reflexivity.
  - vm_compute. reflexivity.
  - apply (proj1 (proj2 text_conflict_warning_once) "f"%string st1 (skipn 2 sample_conflicts) st
             i L); vm_compute; reflexivity.
  - apply (proj2 (proj2 text_conflict_warning_once) st1 (header_of st1)
             (row_line sample_conflicts 2) (split (row_line sample_conflicts 2)) st2
             i L (lit "2")); vm_compute; reflexivity.
Defined.
End ConflictWarnings.

(* ----------------------------------------------------------------- *)
(** ** Row arity check *)

Module RowArity.
Import Py Text Views TextSamples.

(** C9 (code_bug).  A data row whose field count differs from the
    header's raises [verif.util.error].  The comparison is an identity
    test on ints, [len(row) is not len(header)], so equal counts pass only
    below 257, where CPython caches small ints.  At those counts the row
    raises no [verif.util.error].  An exception raised by a row aborts the
    whole load.  Two more cases are computed: a 257-field row under a
    257-column header is rejected, and a non-numeric field also aborts the
    load, with a [ValueError]. *)
Theorem text_row_arity_check :
  (forall st header rowstr row,
     length row <> length header ->
     data_row st header rowstr row =
       Raise (VerifError ("Incorrect number of columns (expecting "
                          ++ str_Z (Z.of_nat (length header)) ++ ") in row '"
                          ++ strip rowstr ++ "'"))) /\
  (forall st header rowstr row,
     length row = length header -> (length header <= 256)%nat ->
     raises_verif_error (data_row st header rowstr row) = false) /\
  (forall fn st pre l post st1 e,
     parse_lines fn st pre = Ok st1 -> process_line fn st1 l = Raise e ->
     parse_lines fn st (pre ++ l :: post) = Raise e) /\
  (length (split wide_header) = 257%nat /\ length (split wide_row) = 257%nat /\
   load "f"%string sample_wide =
     Raise (VerifError ("Incorrect number of columns (expecting 257) in row '"
                        ++ strip wide_row ++ "'"))) /\
  load "f"%string sample_bad_value = Raise ValueError.
Proof.
  split; [|split; [|split; [|split]]].
  - intros st header rowstr row Hne. unfold data_row.
    assert (E : int_is_not (length row) (length header) = true).
    { unfold int_is_not. apply Nat.eqb_neq in Hne. rewrite Hne. reflexivity. }
    rewrite E. reflexivity.
  - intros st header rowstr row Heq Hle. apply ArityFacts.data_row_no_verif_error.
    unfold int_is_not. rewrite Heq, Nat.eqb_refl.
    assert (Hlt : (length header <? 257)%nat = true) by (apply Nat.ltb_lt; lia).
    rewrite Hlt. reflexivity.
  - intros fn st pre l post st1 e H1 H2.
    rewrite (ArityFacts.parse_lines_app _ _ _ _ _ H1). simpl. rewrite H2. reflexivity.
  - vm_compute. repeat split.
  - vm_compute. reflexivity.
Qed.

(** A witness: a one-field row under a two-column header, a good row, and
    a row with a non-numeric field after the header. *)
Lemma text_row_arity_check_witness :
  let st := prefix_state sample_bad_value 1 in
  data_row st ["obs"; "fcst"]%string "1"%string ["1"]%string =
    Raise (VerifError "Incorrect number of columns (expecting 2) in row '1'"%string) /\
  raises_verif_error (data_row st ["obs"; "fcst"]%string "1 1"%string ["1"; "1"]%string) = false /\
  parse_lines "f"%string init (firstn 1 sample_bad_value ++ [row_line sample_bad_value 1])
    = Raise ValueError.
Proof.
  intros st. split; [|split].
  - rewrite (proj1 text_row_arity_check st ["obs"; "fcst"]%string "1"%string ["1"]%string);
      [vm_compute; reflexivity|simpl; lia].
  - apply (proj1 (proj2 text_row_arity_check)); simpl; lia.
  - apply (proj1 (proj2 (proj2 text_row_arity_check)) "f"%string init (firstn 1 sample_bad_value)
             (row_line sample_bad_value 1) [] st ValueError); vm_compute; reflexivity.
Defined.
End RowArity.

(* ----------------------------------------------------------------- *)
(** ** Duplicate sparse keys *)


Module OverwriteFacts.
Import Py Text Views.

Lemma key_eqb_length (a b : key) : key_eqb a b = true -> length a = length b.
Proof.
  revert b; induction a as [|x a IH]; intros [|y b] H; simpl in *; try discriminate; auto.
  apply andb_prop in H. destruct H as [_ H]. rewrite (IH b H). reflexivity.
Qed.

Lemma nth_error_mid {A} (l r : list A) x : nth_error (l ++ x :: r) (length l) = Some x.
Proof. rewrite nth_error_app2, Nat.sub_diag by lia. reflexivity. Qed.

(** The level loop assigns every one of its columns. *)
Lemma level_loop_complete idx row r tn j k5 fields levels tab log lv tab' log' :
  level_loop idx row r tn j k5 fields levels tab log = Ok (lv, tab', log') ->
  exists ws, log' = log ++ ws /\
  forall fld q, In fld fields -> py_float (tail_str fld) = Ok q ->
    exists j' v, field idx row fld = Ok v /\ In (r, tn, k5 ++ [mkObj q (Made r tn j')], v) ws.
Proof.
  revert j levels tab log. induction fields as [|fld0 rest IH];
    intros j levels tab log H; simpl in H.
  - injection H as <- <- <-. exists []. rewrite app_nil_r. split; [reflexivity|]. intros fld q [].
  - inv_ok H. inv_ok H.
    destruct (IH _ _ _ _ H) as [ws [-> Hc]].
    exists ((r, tn, k5 ++ [mkObj a (Made r tn j)], a0) :: ws).
    split; [rewrite <- app_assoc; reflexivity|].
    intros fld q [<-|Hin] Hq.
    + rewrite Hq in E. injection E as <-. exists j, a0. split; [exact E0|left; reflexivity].
    + destruct (Hc fld q Hin Hq) as (j' & v & Hv & Hw).
      exists j', v. split; [exact Hv|right; exact Hw].
Qed.

(** The assignments of one data row, and its independence from what the
    sparse tables held before. *)
Lemma data_row_writes st header rowstr row st' :
  data_row st header rowstr row = Ok st' ->
  s_row st' = S (s_row st) /\
  exists date offset loc o f pw lw,
    s_seen_dates st' = s_seen_dates st ++ [date] /\
    s_seen_offsets st' = s_seen_offsets st ++ [offset] /\
    s_seen_locs st' = s_seen_locs st ++ [loc] /\
    field (s_indices st) row "obs" = Ok o /\
    field (s_indices st) row "fcst" = Ok f /\
    s_log st' = s_log st ++ (s_row st, "obs"%string, row_key date offset loc, o)
                          :: (s_row st, "fcst"%string, row_key date offset loc, f) :: pw ++ lw /\
    (if existsb (fun kv => String.eqb (fst kv) "pit") (s_indices st)
     then exists p, field (s_indices st) row "pit" = Ok p /\
                    pw = [(s_row st, "pit"%string, row_key date offset loc, p)]
     else pw = []) /\
    (forall w, In w lw ->
       (exists fld j q v, In fld (quantile_fields header) /\ py_float (tail_str fld) = Ok q /\
          field (s_indices st) row fld = Ok v /\
          w = (s_row st, "x"%string, row_key date offset loc ++ [mkObj q (Made (s_row st) "x" j)], v)) \/
       (exists fld j q v, In fld (threshold_fields header) /\ py_float (tail_str fld) = Ok q /\
          field (s_indices st) row fld = Ok v /\
          w = (s_row st, "cdf"%string, row_key date offset loc ++ [mkObj q (Made (s_row st) "cdf" j)], v))) /\
    (forall fld q, In fld (quantile_fields header) -> py_float (tail_str fld) = Ok q ->
       exists j v, field (s_indices st) row fld = Ok v /\
         In (s_row st, "x"%string, row_key date offset loc ++ [mkObj q (Made (s_row st) "x" j)], v) lw) /\
    (forall fld q, In fld (threshold_fields header) -> py_float (tail_str fld) = Ok q ->
       exists j v, field (s_indices st) row fld = Ok v /\
         In (s_row st, "cdf"%string, row_key date offset loc ++ [mkObj q (Made (s_row st) "cdf" j)], v) lw) /\
    (forall o2 f2 c2 p2 x2 log2, exists st'',
       data_row (with_tables st o2 f2 c2 p2 x2 log2) header rowstr row = Ok st'' /\
       with_tables st'' (s_obs st') (s_fcst st') (s_cdf st') (s_pit st') (s_x st') (s_log st') = st').
Proof.
  intros D.
  destruct (RowFacts.data_row_inv _ _ _ _ _ D) as [Ear X].
  destruct X as (date & offset & id & cLat & cLon & cElev & locs & info & nobj & shown &
                 warns & out & ghost & loc & o & f & pits & lp & qs & xs & lq & ts & cdfs & lt &
                 Ed & Eo & Eid & Ela & Elo & Eel & Hr & Hloc & Eob & Efc & Epit & Eql & Etl & R).
  destruct (TableFacts.level_loop_log _ _ _ _ _ _ _ _ _ _ _ _ _ Eql) as [wx [Hlq [Hwx [_ Ix]]]].
  destruct (TableFacts.level_loop_log _ _ _ _ _ _ _ _ _ _ _ _ _ Etl) as [wc [Hlt [Hwc [_ Ic]]]].
  destruct (level_loop_complete _ _ _ _ _ _ _ _ _ _ _ _ _ Eql) as [wx' [Hlq' Cx]].
  destruct (level_loop_complete _ _ _ _ _ _ _ _ _ _ _ _ _ Etl) as [wc' [Hlt' Cc]].
  rewrite Hlq in Hlq'. apply app_inv_head in Hlq'. subst wx'.
  rewrite Hlt in Hlt'. apply app_inv_head in Hlt'. subst wc'.
  assert (Ind : forall o2 f2 c2 p2 x2 log2, exists st'',
       data_row (with_tables st o2 f2 c2 p2 x2 log2) header rowstr row = Ok st'' /\
       with_tables st'' (s_obs st') (s_fcst st') (s_cdf st') (s_pit st') (s_x st') (s_log st') = st').
  { intros o2 f2 c2 p2 x2 log2. unfold data_row.
    cbn [with_tables s_units s_variable s_dates s_offsets s_locations s_quantiles
         s_thresholds s_obs s_fcst s_cdf s_pit s_x s_indices s_header s_date s_offset
         s_location_info s_shown s_warnings s_stdout s_next_obj s_row s_conflicts
         s_seen_dates s_seen_offsets s_seen_locs s_log].
    rewrite Ear. cbn [bind]. rewrite Ed. cbn [bind]. rewrite Eo. cbn [bind].
    rewrite Eid. cbn [bind]. rewrite Ela. cbn [bind]. rewrite Elo. cbn [bind].
    rewrite Eel. cbn [bind].
    replace (resolve_location _ id cLat cLon cElev) with (locs, info, nobj, (shown, warns, out, ghost))
      by (rewrite <- Hr; reflexivity).
    cbn iota. rewrite Hloc. cbn [bind].
    rewrite Eob. cbn [bind]. rewrite Efc. cbn [bind].
    destruct (existsb _ _).
    - destruct Epit as [p [Ep [-> ->]]]. rewrite Ep. cbn [bind fst snd].
      match goal with |- context [level_loop _ _ _ "x"%string _ _ _ _ x2 ?lg] =>
        destruct (Ix x2 lg) as [xs2 Ex2]; rewrite Ex2 end.
      cbn [bind].
      match goal with |- context [level_loop _ _ _ "cdf"%string _ _ _ _ c2 ?lg] =>
        destruct (Ic c2 lg) as [cs2 Ec2]; rewrite Ec2 end.
      cbn [bind]. eexists. split; [reflexivity|]. subst st'. reflexivity.
    - destruct Epit as [-> ->]. cbn [bind fst snd].
      match goal with |- context [level_loop _ _ _ "x"%string _ _ _ _ x2 ?lg] =>
        destruct (Ix x2 lg) as [xs2 Ex2]; rewrite Ex2 end.
      cbn [bind].
      match goal with |- context [level_loop _ _ _ "cdf"%string _ _ _ _ c2 ?lg] =>
        destruct (Ic c2 lg) as [cs2 Ec2]; rewrite Ec2 end.
      cbn [bind]. eexists. split; [reflexivity|]. subst st'. reflexivity. }
  set (pw := if existsb (fun kv => String.eqb (fst kv) "pit") (s_indices st)
             then [(s_row st, "pit"%string, row_key date offset loc,
                    match field (s_indices st) row "pit" with Ok p => p | Raise _ => nan end)]
             else []).
  assert (Elp : lp = s_log st ++ (s_row st, "obs"%string, row_key date offset loc, o)
                                :: (s_row st, "fcst"%string, row_key date offset loc, f) :: pw).
  { unfold pw. destruct (existsb _ _).
    - destruct Epit as [p [Ep [_ ->]]]. rewrite Ep. reflexivity.
    - destruct Epit as [_ ->]. reflexivity. }
  split; [subst st'; reflexivity|].
  exists date, offset, loc, o, f, pw, (wx ++ wc).
  split; [subst st'; reflexivity|]. split; [subst st'; reflexivity|].
  split; [subst st'; reflexivity|].
  split; [exact Eob|split; [exact Efc|split]].
  { subst st'. cbn [s_log]. rewrite Hlt, Hlq, Elp, <- !app_assoc. reflexivity. }
  split; [|split; [|split; [|split; [|exact Ind]]]].
  - unfold pw. destruct (existsb _ _); [|reflexivity].
    destruct Epit as [p [Ep _]]. exists p. rewrite Ep. auto.
  - intros w Hin. apply in_app_or in Hin. destruct Hin as [Hin|Hin].
    + left. exact (Hwx w Hin).
    + right. exact (Hwc w Hin).
  - intros fld q Hin Hq. destruct (Cx fld q Hin Hq) as (j & v & Hv & Hw).
    exists j, v. split; [exact Hv|apply in_or_app; left; exact Hw].
  - intros fld q Hin Hq. destruct (Cc fld q Hin Hq) as (j & v & Hv & Hw).
    exists j, v. split; [exact Hv|apply in_or_app; right; exact Hw].
Qed.

(** A line that starts a new data row is handled by [data_row], in any
    state with the same header. *)
Lemma process_line_data fn st l st' :
  process_line fn st l = Ok st' -> s_row st' = S (s_row st) ->
  exists header, s_header st = Some header /\ data_row st header l (split l) = Ok st' /\
    forall st0, s_header st0 = Some header -> process_line fn st0 l = data_row st0 header l (split l).
Proof.
  intros H Hs. unfold process_line in H. inv_ok H.
  destruct (Ascii.eqb a "#") eqn:Ec.
  - exfalso. inv_ok H.
    destruct (String.eqb a0 "variable:"); [injection H as <-; simpl in Hs; lia|].
    destruct (String.eqb a0 "units:").
    + inv_ok H. injection H as <-. simpl in Hs. lia.
    + injection H as <-. simpl in Hs. lia.
  - destruct (s_header st) as [header|] eqn:Eh.
    + exists header. split; [reflexivity|split; [exact H|]].
      intros st0 Eh0. unfold process_line. rewrite E. cbn [bind]. rewrite Ec, Eh0. reflexivity.
    + exfalso. inv_ok H.
      destruct (in_indices _ "obs"); unfold util_error in E0; [|discriminate E0].
      inv_ok H.
      destruct (in_indices _ "fcst"); unfold util_error in E1; [|discriminate E1].
      injection H as <-. simpl in Hs. lia.
Qed.

(** Reading more lines only appends to the rows seen and to the log, and
    the new assignments belong to the new rows. *)
Lemma parse_lines_grow fn st lines st' :
  parse_lines fn st lines = Ok st' ->
  (s_row st <= s_row st')%nat /\
  (exists a, s_seen_dates st' = s_seen_dates st ++ a) /\
  (exists a, s_seen_offsets st' = s_seen_offsets st ++ a) /\
  (exists a, s_seen_locs st' = s_seen_locs st ++ a) /\
  exists ws, s_log st' = s_log st ++ ws /\ forall w, In w ws -> (s_row st <= w_row w)%nat.
Proof.
  revert st; induction lines as [|l r IH]; intros st H; simpl in H.
  - injection H as <-. split; [lia|].
    split; [exists []; rewrite app_nil_r; reflexivity|].
    split; [exists []; rewrite app_nil_r; reflexivity|].
    split; [exists []; rewrite app_nil_r; reflexivity|].
    exists []. rewrite app_nil_r. split; [reflexivity|intros w []].
  - inv_ok H. destruct (IH a H) as (Hr & [a1 E1] & [a2 E2] & [a3 E3] & [ws [E4 Hw]]).
    assert (Step : (s_row st <= s_row a)%nat /\
        (exists b, s_seen_dates a = s_seen_dates st ++ b) /\
        (exists b, s_seen_offsets a = s_seen_offsets st ++ b) /\
        (exists b, s_seen_locs a = s_seen_locs st ++ b) /\
        exists ws', s_log a = s_log st ++ ws' /\ forall w, In w ws' -> (s_row st <= w_row w)%nat).
    { destruct (LogFacts.process_line_tables _ _ _ _ E)
        as [(_ & _ & _ & _ & _ & F6 & F7 & F8 & F9 & F10)|[h [_ D]]].
      - rewrite F6, F7, F8, F9, F10. split; [lia|].
        split; [exists []; rewrite app_nil_r; reflexivity|].
        split; [exists []; rewrite app_nil_r; reflexivity|].
        split; [exists []; rewrite app_nil_r; reflexivity|].
        exists []. rewrite app_nil_r. split; [reflexivity|intros w []].
      - destruct (data_row_writes _ _ _ _ _ D)
          as [Sr (date & offset & loc & o & f & pw & lw & Sd & So & Sl & _ & _ & Elog & Epw & Hlw & _)].
        rewrite Sr. split; [lia|].
        split; [eexists; exact Sd|]. split; [eexists; exact So|]. split; [eexists; exact Sl|].
        eexists. split; [exact Elog|].
        intros w Hin. destruct Hin as [<-|[<-|Hin]]; [unfold w_row; simpl; lia|unfold w_row; simpl; lia|].
        apply in_app_or in Hin. destruct Hin as [Hin|Hin].
        + destruct (existsb _ _); [destruct Epw as [p [_ ->]]|subst pw];
            [destruct Hin as [<-|[]]; unfold w_row; simpl; lia|destruct Hin].
        + destruct (Hlw w Hin) as [(fld & j & q & v & _ & _ & _ & ->)|(fld & j & q & v & _ & _ & _ & ->)];
            unfold w_row; simpl; lia. }
    destruct Step as (Sr & [b1 F1] & [b2 F2] & [b3 F3] & [ws' [F4 Fw]]).
    split; [lia|].
    split; [exists (b1 ++ a1); rewrite E1, F1, app_assoc; reflexivity|].
    split; [exists (b2 ++ a2); rewrite E2, F2, app_assoc; reflexivity|].
    split; [exists (b3 ++ a3); rewrite E3, F3, app_assoc; reflexivity|].
    exists (ws' ++ ws). split; [rewrite E4, F4, app_assoc; reflexivity|].
    intros w Hin. apply in_app_or in Hin. destruct Hin as [Hin|Hin];
      [apply Fw; exact Hin|specialize (Hw w Hin); lia].
Qed.

(** Assignments of rows whose key differs from [K] miss every key equal
    to [K], with or without a level. *)
Lemma later_absent st r0 d0 o0 l0 ws :
  rows_inv st ->
  (forall w, In w ws -> In w (s_log st) /\ (r0 <= w_row w)%nat) ->
  (forall r d o l, (r0 <= r)%nat -> nth_error (s_seen_dates st) r = Some d ->
     nth_error (s_seen_offsets st) r = Some o -> nth_error (s_seen_locs st) r = Some l ->
     key_eqb (row_key d o l) (row_key d0 o0 l0) = false) ->
  forall Kq t extra acc, key_eqb Kq (row_key d0 o0 l0) = true ->
    last_write t (Kq ++ extra) ws acc = acc.
Proof.
  intros (_ & _ & _ & Hw) Hws Hno Kq t extra acc Hk.
  apply LogFacts.last_write_absent. intros w Hin.
  destruct (Hws w Hin) as [Hl Hr].
  destruct (Hw w Hl) as (d & o & l & rest & H1 & H2 & H3 & ->).
  pose proof (key_eqb_length _ _ Hk) as Lk.
  rewrite LogFacts.key_eqb_app by (rewrite Lk; reflexivity).
  destruct (key_eqb (row_key d o l) Kq) eqn:E; [|reflexivity].
  pose proof (Hno _ _ _ _ Hr H1 H2 H3) as Hc.
  rewrite (DictFacts.key_eqb_trans _ _ _ E Hk) in Hc. discriminate Hc.
Qed.

Lemma last_write_hit t k ws w acc acc' :
  In w ws -> w_table w = t -> key_eqb (w_key w) k = true ->
  last_write t k ws acc = last_write t k ws acc'.
Proof.
  revert acc acc'; induction ws as [|[[[r t'] k'] v] ws IH]; intros acc acc' Hin Ht Hk;
    [destruct Hin|].
  simpl. destruct Hin as [<-|Hin].
  - unfold w_table, w_key in Ht, Hk; simpl in Ht, Hk. subst t'.
    rewrite String.eqb_refl, Hk. reflexivity.
  - apply IH; assumption.
Qed.

Lemma level_key_hit (K Kq : key) q i (Q : fobj) :
  key_eqb Kq K = true -> feq q (fval Q) = true -> key_eqb (K ++ [mkObj q i]) (Kq ++ [Q]) = true.
Proof.
  intros Hk Hq.
  rewrite LogFacts.key_eqb_app by (symmetry; apply key_eqb_length; exact Hk).
  rewrite DictFacts.key_eqb_sym in Hk. rewrite Hk. simpl.
  rewrite FloatFacts.key_eq_num by (simpl; apply FloatFacts.feq_rank in Hq; tauto).
  simpl. rewrite Hq. reflexivity.
Qed.

End OverwriteFacts.

Module DuplicateKeys.
Import Py Text Views TextSamples.

(** C10 (corrected).  Take a load whose lines are [pre], then a data row [l], then
    [post].  The row is read as it would be with any other contents of
    the sparse tables.  So, with the warnings and errors it produces, it
    does not depend on an earlier row having the same key.  Its key is
    (date, offset, lat, lon, elev) for the date, offset and location
    recorded for it.  Suppose no later row has a key equal to it, where
    items compare by identity or [==].  Then every snapshot cell whose
    key equals it holds this row's [obs], [fcst] and [pit].  Its level
    cells hold what this row assigned, [ws], at an equal level: the value
    of one of its own columns.  So an earlier row with the same key is
    silently overwritten. *)
Theorem text_duplicate_key_overwrites fn pre l post st1 st2 st :
  parse_lines fn init pre = Ok st1 ->
  process_line fn st1 l = Ok st2 ->
  s_row st2 = S (s_row st1) ->
  parse_lines fn st2 post = Ok st ->
  parse_lines fn init (pre ++ l :: post) = Ok st /\
  (forall o2 f2 c2 p2 x2 log2, exists st2',
     process_line fn (with_tables st1 o2 f2 c2 p2 x2 log2) l = Ok st2' /\
     with_tables st2' (s_obs st2) (s_fcst st2) (s_cdf st2) (s_pit st2) (s_x st2) (s_log st2)
       = st2) /\
  exists header date offset loc o f ws,
    s_header st1 = Some header /\
    nth_error (s_seen_dates st) (s_row st1) = Some date /\
    nth_error (s_seen_offsets st) (s_row st1) = Some offset /\
    nth_error (s_seen_locs st) (s_row st1) = Some loc /\
    field (s_indices st1) (split l) "obs" = Ok o /\
    field (s_indices st1) (split l) "fcst" = Ok f /\
    s_log st2 = s_log st1 ++ ws /\
    (forall w, In w ws -> w_table w = "x"%string ->
       exists fld j q v, In fld (quantile_fields header) /\ py_float (tail_str fld) = Ok q /\
         field (s_indices st1) (split l) fld = Ok v /\
         w = (s_row st1, "x"%string, row_key date offset loc ++ [mkObj q (Made (s_row st1) "x" j)], v)) /\
    (forall w, In w ws -> w_table w = "cdf"%string ->
       exists fld j q v, In fld (threshold_fields header) /\ py_float (tail_str fld) = Ok q /\
         field (s_indices st1) (split l) fld = Ok v /\
         w = (s_row st1, "cdf"%string, row_key date offset loc ++ [mkObj q (Made (s_row st1) "cdf" j)], v)) /\
    ((forall r d' o' l', (s_row st2 <= r)%nat -> nth_error (s_seen_dates st) r = Some d' ->
        nth_error (s_seen_offsets st) r = Some o' -> nth_error (s_seen_locs st) r = Some l' ->
        key_eqb (row_key d' o' l') (row_key date offset loc) = false) ->
     forall i j k d o' l',
       nth_error (fset_list (s_dates st)) i = Some d ->
       nth_error (fset_list (s_offsets st)) j = Some o' ->
       nth_error (locations (finish st)) k = Some l' ->
       key_eqb (row_key d o' l') (row_key date offset loc) = true ->
       cell3 (obs (finish st)) i j k = Some o /\
       cell3 (deterministic (finish st)) i j k = Some f /\
       (existsb (fun kv => String.eqb (fst kv) "pit") (s_indices st1) = true ->
        exists p, field (s_indices st1) (split l) "pit" = Ok p /\
          forall P, pit (finish st) = Some P -> cell3 P i j k = Some p) /\
       (forall t Q fld q, nth_error (fset_list (s_thresholds st)) t = Some Q ->
          In fld (threshold_fields header) -> py_float (tail_str fld) = Ok q ->
          feq q (fval Q) = true ->
          cell4 (threshold_scores (finish st)) i j k t
            = Some (logged "cdf" (row_key d o' l' ++ [Q]) ws)) /\
       (forall t Q fld q, nth_error (fset_list (s_quantiles st)) t = Some Q ->
          In fld (quantile_fields header) -> py_float (tail_str fld) = Ok q ->
          feq q (fval Q) = true ->
          cell4 (quantile_scores (finish st)) i j k t
            = Some (logged "x" (row_key d o' l' ++ [Q]) ws))).
Proof.
  intros H1 H2 Hs H3.
  assert (Hfull : parse_lines fn init (pre ++ l :: post) = Ok st).
  { rewrite (ArityFacts.parse_lines_app _ _ _ _ _ H1). simpl. rewrite H2. exact H3. }
  destruct (OverwriteFacts.process_line_data _ _ _ _ H2 Hs) as [header [Eh [D Hpl]]].
  destruct (OverwriteFacts.data_row_writes _ _ _ _ _ D)
    as [_ (date & offset & loc & o & f & pw & lw & Sd & So & Sl & Eob & Efc & Elog & Epw &
           Hlw & Cx & Cc & Ind)].
  split; [exact Hfull|split].
  { intros o2 f2 c2 p2 x2 log2. destruct (Ind o2 f2 c2 p2 x2 log2) as [st'' [E1 E2]].
    exists st''. split; [|exact E2].
    rewrite (Hpl (with_tables st1 o2 f2 c2 p2 x2 log2) Eh). exact E1. }
  set (K := row_key date offset loc) in *.
  set (ws := (s_row st1, "obs"%string, K, o) :: (s_row st1, "fcst"%string, K, f) :: pw ++ lw).
  (* the assignments of the row other than obs and fcst *)
  assert (Tw : forall w, In w (pw ++ lw) ->
             w_table w = "pit"%string \/ w_table w = "x"%string \/ w_table w = "cdf"%string).
  { intros w Hin. apply in_app_or in Hin. destruct Hin as [Hin|Hin].
    - destruct (existsb _ _); [destruct Epw as [p [_ ->]]|subst pw];
        [destruct Hin as [<-|[]]; left; reflexivity|destruct Hin].
    - destruct (Hlw w Hin) as [(fld & j & q & v & _ & _ & _ & ->)|(fld & j & q & v & _ & _ & _ & ->)];
        [right; left|right; right]; reflexivity. }
  assert (Other : forall t, t <> "pit"%string -> t <> "x"%string -> t <> "cdf"%string ->
             Forall (fun w => w_table w <> t) (pw ++ lw)).
  { intros t N1 N2 N3. apply Forall_forall. intros w Hin.
    destruct (Tw w Hin) as [E|[E|E]]; rewrite E; congruence. }
  exists header, date, offset, loc, o, f, ws.
  assert (R1 : rows_inv st1) by exact (LogFacts.parse_lines_rows _ _ _ _ H1 LogFacts.init_rows).
  assert (R : rows_inv st) by exact (LogFacts.parse_lines_rows _ _ _ _ Hfull LogFacts.init_rows).
  assert (A : tables_agree st) by exact (LogFacts.parse_lines_agree _ _ _ _ Hfull LogFacts.init_agree).
  destruct R1 as (Ld & Lo & Ll & _).
  destruct (OverwriteFacts.parse_lines_grow _ _ _ _ H3)
    as (_ & [ad Gd] & [ao Go] & [al Gl] & [wp [Glog Gw]]).
  split; [exact Eh|].
  split; [rewrite Gd, Sd, <- app_assoc, <- Ld; apply OverwriteFacts.nth_error_mid|].
  split; [rewrite Go, So, <- app_assoc, <- Lo; apply OverwriteFacts.nth_error_mid|].
  split; [rewrite Gl, Sl, <- app_assoc, <- Ll; apply OverwriteFacts.nth_error_mid|].
  split; [exact Eob|split; [exact Efc|split; [exact Elog|]]].
  split; [|split].
  - intros w Hin Ht. destruct Hin as [<-|[<-|Hin]]; [discriminate Ht|discriminate Ht|].
    destruct (Tw w Hin) as [E|[E|E]]; rewrite E in Ht; try discriminate Ht.
    apply in_app_or in Hin. destruct Hin as [Hin|Hin].
    + destruct (existsb _ _); [destruct Epw as [p [_ ->]]|subst pw];
        [destruct Hin as [<-|[]]; discriminate E|destruct Hin].
    + destruct (Hlw w Hin) as [Hx|(fld & j & q & v & _ & _ & _ & ->)]; [exact Hx|discriminate E].
  - intros w Hin Ht. destruct Hin as [<-|[<-|Hin]]; [discriminate Ht|discriminate Ht|].
    destruct (Tw w Hin) as [E|[E|E]]; rewrite E in Ht; try discriminate Ht.
    apply in_app_or in Hin. destruct Hin as [Hin|Hin].
    + destruct (existsb _ _); [destruct Epw as [p [_ ->]]|subst pw];
        [destruct Hin as [<-|[]]; discriminate E|destruct Hin].
    + destruct (Hlw w Hin) as [(fld & j & q & v & _ & _ & _ & ->)|Hc]; [discriminate E|exact Hc].
  - intros NoLater i j k d o' l' Hd Ho Hl Hk.
    destruct (LogFacts.finish_cells st A i j k d o' l' Hd Ho Hl) as (C1 & C2 & C3 & C4 & C5).
    assert (Lk : forall t extra acc, last_write t (row_key d o' l' ++ extra) wp acc = acc).
    { intros t extra acc. apply (OverwriteFacts.later_absent st (s_row st2) date offset loc);
        [exact R| |exact NoLater|exact Hk].
      intros w Hin. split; [rewrite Glog; apply in_or_app; right; exact Hin|exact (Gw w Hin)]. }
    assert (Lk0 : forall t acc, last_write t (row_key d o' l') wp acc = acc).
    { intros t acc. rewrite <- (app_nil_r (row_key d o' l')). apply Lk. }
    assert (Ek : key_eqb K (row_key d o' l') = true) by (rewrite DictFacts.key_eqb_sym; exact Hk).
    assert (Es : forall t kq, (forall acc, last_write t kq wp acc = acc) ->
               logged t kq (s_log st) =
               match last_write t kq ws (last_write t kq (s_log st1) None) with
               | Some v => v | None => nan end).
    { intros t kq Hp. unfold logged. rewrite Glog, Elog, !TableFacts.last_write_app, Hp.
      reflexivity. }
    split; [|split; [|split; [|split]]].
    + rewrite C1, (Es _ _ (Lk0 _)). unfold ws. cbn [last_write].
      rewrite String.eqb_refl, Ek. simpl.
      rewrite TableFacts.last_write_other by (apply Other; discriminate). reflexivity.
    + rewrite C2, (Es _ _ (Lk0 _)). unfold ws. cbn [last_write].
      rewrite String.eqb_refl, Ek. simpl.
      rewrite TableFacts.last_write_other by (apply Other; discriminate). reflexivity.
    + intros Hp. rewrite Hp in Epw. destruct Epw as [p [Ep Epw]].
      exists p. split; [exact Ep|]. intros P HP.
      rewrite (C3 P HP), (Es _ _ (Lk0 _)). unfold ws. rewrite Epw. cbn [last_write app].
      rewrite String.eqb_refl, Ek. simpl.
      rewrite TableFacts.last_write_other; [reflexivity|].
      apply Forall_forall. intros w Hin.
      destruct (Hlw w Hin) as [(fld & j' & q & v & _ & _ & _ & ->)|(fld & j' & q & v & _ & _ & _ & ->)];
        unfold w_table; simpl; discriminate.
    + intros t Q fld q HQ Hin Hq Hf.
      rewrite (C4 t Q HQ), (Es _ _ (Lk _ _)). unfold logged.
      destruct (Cc fld q Hin Hq) as (j' & v & _ & Hw).
      assert (Hh : forall acc, last_write "cdf" (row_key d o' l' ++ [Q]) ws acc =
                               last_write "cdf" (row_key d o' l' ++ [Q]) ws None).
      { intros acc.
        apply (OverwriteFacts.last_write_hit _ _ _ _ _ _
                 (in_cons _ _ _ (in_cons _ _ _ (in_or_app _ _ _ (or_intror Hw))))).
        - reflexivity.
        - apply OverwriteFacts.level_key_hit; assumption. }
      rewrite Hh. reflexivity.
    + intros t Q fld q HQ Hin Hq Hf.
      rewrite (C5 t Q HQ), (Es _ _ (Lk _ _)). unfold logged.
      destruct (Cx fld q Hin Hq) as (j' & v & _ & Hw).
      assert (Hh : forall acc, last_write "x" (row_key d o' l' ++ [Q]) ws acc =
                               last_write "x" (row_key d o' l' ++ [Q]) ws None).
      { intros acc.
        apply (OverwriteFacts.last_write_hit _ _ _ _ _ _
                 (in_cons _ _ _ (in_cons _ _ _ (in_or_app _ _ _ (or_intror Hw))))).
        - reflexivity.
        - apply OverwriteFacts.level_key_hit; assumption. }
      rewrite Hh. reflexivity.
Qed.

(** A witness: a sample whose two rows share their key.  After the
    first row the obs cell holds 1; after the second it holds 2, and no
    warning was emitted. *)
Lemma text_duplicate_key_overwrites_witness :
  let ls := sample_duplicate in
  let st1 := prefix_state ls 2 in
  let st2 := prefix_state ls 3 in
  cell3 (obs (finish st1)) 0 0 0 = Some (lit "1") /\
  cell3 (obs (finish st2)) 0 0 0 = Some (lit "2") /\
  cell3 (deterministic (finish st2)) 0 0 0 = Some (lit "2") /\
  s_warnings st2 = [].
Proof.
  intros ls st1 st2.
  assert (H1 : parse_lines "f" init (firstn 2 ls) = Ok st1) by (vm_compute; reflexivity).
  assert (H2 : process_line "f" st1 (row_line ls 2) = Ok st2) by (vm_compute; reflexivity).
  assert (H3 : s_row st2 = S (s_row st1)) by (vm_compute; reflexivity).
  assert (H4 : parse_lines "f" st2 [] = Ok st2) by reflexivity.
  destruct (text_duplicate_key_overwrites _ _ _ _ _ _ _ H1 H2 H3 H4)
    as [_ [_ (header & date & offset & loc & o & f & ws & Eh & Sd & So & Sl & Eo & Ef & _ & _ & _ & C)]].
  vm_compute in Sd, So, Sl. injection Sd as Sd. injection So as So. injection Sl as Sl.
  subst date offset loc.
  destruct (nth_error (fset_list (s_dates st2)) 0) as [d|] eqn:Hd;
    [|vm_compute in Hd; discriminate Hd].
  destruct (nth_error (fset_list (s_offsets st2)) 0) as [o'|] eqn:Ho;
    [|vm_compute in Ho; discriminate Ho].
  destruct (nth_error (locations (finish st2)) 0) as [l'|] eqn:Hl;
    [|vm_compute in Hl; discriminate Hl].
  assert (NoLater : forall K r d' o'' l'', (s_row st2 <= r)%nat ->
            nth_error (s_seen_dates st2) r = Some d' ->
            nth_error (s_seen_offsets st2) r = Some o'' ->
            nth_error (s_seen_locs st2) r = Some l'' ->
            key_eqb (row_key d' o'' l'') K = false).
  { intros K r d' o'' l'' Hr Hd'. exfalso.
    assert (Hn : nth_error (s_seen_dates st2) r = None).
    { apply nth_error_None. vm_compute in Hr |- *. lia. }
    congruence. }
  vm_compute in Hd, Ho, Hl. injection Hd as Hd. injection Ho as Ho. injection Hl as Hl.
  subst d o' l'.
  destruct (C (NoLater _) 0%nat 0%nat 0%nat _ _ _ eq_refl eq_refl eq_refl) as (Co & Cf & _);
    [vm_compute; reflexivity|].
  split; [vm_compute; reflexivity|].
  vm_compute in Eo, Ef. injection Eo as Eo. injection Ef as Ef. subst o f.
  split; [exact Co|split; [exact Cf|vm_compute; reflexivity]].
Defined.

(** Counterexample to C10: the two rows have no id, so each creates a
    location with the default coordinates, and both rows share the key
    (1, 0, 0, 0, 0).  The [obs] of the second row replaces the first
    one's.  But each row reads its own NaN level object from [qnan], so
    there are two quantile coordinates, and the first row's quantile
    value 7 is still in the snapshot, under its own level. *)
Lemma text_duplicate_key_overwrites_counterexample :
  match load "f"%string sample_nan_level with
  | Ok s =>
      dates s = [lit "1"] /\ quantiles s = [nan; nan] /\
      obs s = [[[lit "2"; lit "2"]]] /\
      quantile_scores s = [[[[lit "7"; lit "8"]; [lit "7"; lit "8"]]]]
  | Raise _ => False
  end.
Proof. vm_compute. repeat split. Qed.
End DuplicateKeys.


(* ----------------------------------------------------------------- *)
(** ** Further facts of the decoders *)

Module NameFacts.
Import Py InputNames Views.



Lemma rfind_from_spec c s : forall i f,
  (~ has_char c s /\ rfind_from c s i f = f) \/
  (exists a b, s = (a ++ String c b)%string /\ ~ has_char c b /\
               rfind_from c s i f = i + Z.of_nat (String.length a)).
Proof.
  induction s as [|c' r IH]; intros i f; simpl.
  - left. split; [intros []|reflexivity].
  - destruct (IH (i + 1) (if (c =? c')%char then i else f)) as [[Hn Hr]|(a & b & -> & Hb & Hr)].
    + destruct (Ascii.eqb_spec c c') as [<-|Hne].
      * right. exists EmptyString, r. split; [reflexivity|]. split; [exact Hn|].
        rewrite Hr. simpl. lia.
      * left. split; [|exact Hr]. unfold has_char. simpl. intros [E|E]; [congruence|exact (Hn E)].
    + right. exists (String c' a), b. split; [reflexivity|]. split; [exact Hb|].
      rewrite Hr. simpl. lia.
Qed.

Lemma rfind_spec c s :
  (~ has_char c s /\ rfind c s = -1) \/
  (exists a b, s = (a ++ String c b)%string /\ ~ has_char c b /\
               rfind c s = Z.of_nat (String.length a)).
Proof. unfold rfind. destruct (rfind_from_spec c s 0 (-1)) as [H|(a & b & H)]; [left; exact H|right; exists a, b; destruct H as (H1 & H2 & H3); split; [exact H1|split; [exact H2|lia]]]. Qed.

Lemma substring_all s : String.substring 0 (String.length s) s = s.
Proof. induction s; simpl; congruence. Qed.

Lemma substring_prefix a b : String.substring 0 (String.length a) (a ++ b) = a.
Proof. induction a; simpl; [destruct b; reflexivity|congruence]. Qed.

Lemma substring_suffix a b :
  String.substring (String.length a) (String.length (a ++ b) - String.length a) (a ++ b) = b.
Proof.
  induction a; simpl.
  - rewrite Nat.sub_0_r. apply substring_all.
  - exact IHa.
Qed.

Lemma str_length_app a b : String.length (a ++ b) = (String.length a + String.length b)%nat.
Proof. induction a; simpl; congruence. Qed.

Lemma has_char_app c a b : has_char c (a ++ b) <-> has_char c a \/ has_char c b.
Proof. unfold has_char. induction a; simpl; [tauto|]. rewrite IHa. tauto. Qed.

Lemma has_char_b c s :
  has_char c s <-> existsb (Ascii.eqb c) (list_ascii_of_string s) = true.
Proof.
  unfold has_char. rewrite existsb_exists. split.
  - intros H. exists c. split; [exact H|apply Ascii.eqb_refl].
  - intros [x [Hx E]]. apply Ascii.eqb_eq in E. subst x. exact Hx.
Qed.

Lemma str_app_assoc (a b c : string) : ((a ++ b) ++ c)%string = (a ++ (b ++ c))%string.
Proof. induction a; simpl; congruence. Qed.

Lemma name_split fullname :
  exists dir, fullname = (dir ++ input_name fullname)%string /\
    (dir = EmptyString \/ exists d, dir = (d ++ "/")%string) /\
    ~ has_char "/" (input_name fullname).
Proof.
  unfold input_name, slice_from.
  destruct (rfind_spec "/" fullname) as [[Hn ->]|(a & b & -> & Hb & ->)].
  - assert (E : slice_bound (-1 + 1) (String.length fullname) = 0%nat).
    { unfold slice_bound. simpl. lia. }
    rewrite E, Nat.sub_0_r, substring_all. exists EmptyString. auto.
  - assert (E : slice_bound (Z.of_nat (String.length a) + 1) (String.length (a ++ String "/" b))
                = String.length (a ++ "/")).
    { unfold slice_bound. rewrite !str_length_app. simpl. 
      destruct (Z.ltb_spec (Z.of_nat (String.length a) + 1) 0); [lia|]. lia. }
    rewrite E.
    replace (a ++ String "/" b)%string with ((a ++ "/") ++ b)%string
      by (rewrite str_app_assoc; reflexivity).
    rewrite substring_suffix. exists (a ++ "/")%string. split; [reflexivity|].
    split; [right; eauto|exact Hb].
Qed.

Lemma drop_last nm : nm <> EmptyString ->
  exists c, nm = (String.substring 0 (String.length nm - 1) nm ++ String c EmptyString)%string.
Proof.
  induction nm as [|c r IH]; intros Hne; [congruence|].
  destruct r as [|c' r'].
  - exists c. reflexivity.
  - destruct IH as [c0 Hc0]; [discriminate|].
    exists c0. 
    replace (String.length (String c (String c' r')) - 1)%nat
      with (S (String.length (String c' r') - 1)) by (simpl; lia).
    simpl String.substring. rewrite Hc0 at 1. reflexivity.
Qed.

Lemma shortname_split fullname :
  let nm := input_name fullname in
  (has_char "." nm ->
     exists ext, nm = (input_shortname fullname ++ "." ++ ext)%string /\ ~ has_char "." ext) /\
  (~ has_char "." nm -> nm <> EmptyString ->
     exists c, nm = (input_shortname fullname ++ String c EmptyString)%string).
Proof.
  cbv zeta. unfold input_shortname. generalize (input_name fullname) as nm. intros nm.
  unfold slice_to.
  destruct (rfind_spec "." nm) as [[Hn ->]|(a & b & -> & Hb & ->)].
  - split; [intros H; contradiction|]. intros _ Hne.
    assert (Hl : slice_bound (-1) (String.length nm) = (String.length nm - 1)%nat).
    { unfold slice_bound. simpl. lia. }
    rewrite Hl. apply drop_last. exact Hne.
  - split.
    + intros _. exists b.
      assert (E : slice_bound (Z.of_nat (String.length a)) (String.length (a ++ String "." b))
                  = String.length a).
      { unfold slice_bound. rewrite str_length_app. simpl.
        destruct (Z.ltb_spec (Z.of_nat (String.length a)) 0); [lia|]. lia. }
      rewrite E, substring_prefix. split; [reflexivity|exact Hb].
    + intros H. exfalso. apply H. apply has_char_app. right. left. reflexivity.
Qed.

End NameFacts.


Module LineFacts.
Import Py Text Views.

(** What one line does: a comment changes only the metadata and the
    warnings, the first other line sets the header, later ones are data
    rows. *)
Lemma process_line_kinds fn st l st' :
  process_line fn st l = Ok st' ->
  (is_comment l = true /\
   exists u v ws, st' = mkState u v (s_dates st) (s_offsets st)
            (s_locations st) (s_quantiles st) (s_thresholds st) (s_obs st) (s_fcst st)
            (s_cdf st) (s_pit st) (s_x st) (s_indices st) (s_header st) (s_date st)
            (s_offset st) (s_location_info st) (s_shown st) ws
            (s_stdout st) (s_next_obj st) (s_row st) (s_conflicts st)
            (s_seen_dates st) (s_seen_offsets st) (s_seen_locs st) (s_log st)) \/
  (is_comment l = false /\ s_header st = None /\
   in_indices (header_indices (split l)) "obs" = true /\
   in_indices (header_indices (split l)) "fcst" = true /\
   st' = mkState (s_units st) (s_variable st) (s_dates st) (s_offsets st)
            (s_locations st) (s_quantiles st) (s_thresholds st) (s_obs st) (s_fcst st)
            (s_cdf st) (s_pit st) (s_x st) (header_indices (split l)) (Some (split l))
            (s_date st) (s_offset st) (s_location_info st) (s_shown st) (s_warnings st)
            (s_stdout st) (s_next_obj st) (s_row st) (s_conflicts st)
            (s_seen_dates st) (s_seen_offsets st) (s_seen_locs st) (s_log st)) \/
  (is_comment l = false /\ exists h, s_header st = Some h /\ data_row st h l (split l) = Ok st').
Proof.
  intros H. unfold process_line in H.
  destruct (char_at l 0) as [c|e] eqn:Ec; cbn [bind] in H; [|discriminate H].
  assert (Hc : is_comment l = Ascii.eqb c "#").
  { unfold char_at in Ec. destruct l as [|c0 r]; [discriminate Ec|].
    simpl in Ec. injection Ec as ->. reflexivity. }
  destruct (Ascii.eqb c "#") eqn:Eh.
  - left. split; [exact Hc|].
    destruct (list_get _ 0) as [w|e] eqn:Ew; cbn [bind] in H; [|discriminate H].
    destruct (String.eqb w "variable:").
    + injection H as <-. eauto.
    + destruct (String.eqb w "units:").
      * destruct (list_get _ 1) as [u|e]; cbn [bind] in H; [|discriminate H].
        injection H as <-. eauto.
      * injection H as <-. eauto.
  - right. destruct (s_header st) as [h|] eqn:Es.
    + right. split; [exact Hc|]. exists h. auto.
    + left. split; [exact Hc|]. split; [reflexivity|].
      destruct (in_indices _ "obs") eqn:Eo; cbn [bind] in H;
        [|unfold util_error in H; discriminate H].
      destruct (in_indices _ "fcst") eqn:Ef; cbn [bind] in H;
        [|unfold util_error in H; discriminate H].
      injection H as <-. auto.
Qed.

Section Invariant.
Variable fn : string.
Variable P : tstate -> Prop.
Hypothesis step : forall st l st', P st -> process_line fn st l = Ok st' -> P st'.

Lemma parse_lines_inv lines : forall st st',
  P st -> parse_lines fn st lines = Ok st' -> P st'.
Proof.
  induction lines as [|l r IH]; intros st st' Hp H; simpl in H.
  - injection H as <-. exact Hp.
  - destruct (process_line fn st l) as [s1|e] eqn:E; cbn [bind] in H; [|discriminate H].
    exact (IH s1 st' (step _ _ _ Hp E) H).
Qed.
End Invariant.

(** The header of the state is the first non-comment line, and every
    later non-comment line is one data row. *)
Lemma parse_lines_header fn lines : forall st st',
  parse_lines fn st lines = Ok st' ->
  s_header st' = match s_header st with Some h => Some h | None => first_header lines end /\
  length (s_seen_dates st') =
    (length (s_seen_dates st) +
     data_lines (match s_header st with Some _ => true | None => false end) lines)%nat.
Proof.
  induction lines as [|l r IH]; intros st st' H; simpl in H.
  - injection H as <-. destruct (s_header st); simpl; split; auto; lia.
  - destruct (process_line fn st l) as [s1|e] eqn:E; cbn [bind] in H; [|discriminate H].
    destruct (IH _ _ H) as [H1 H2]. rewrite H1, H2. clear IH H H1 H2.
    destruct (process_line_kinds _ _ _ _ E)
      as [[Hc (u & v & ws & ->)]|[[Hc [Hn [_ [_ ->]]]]|[Hc [h [Hh Hd]]]]]; simpl; rewrite Hc.
    + destruct (s_header st); split; reflexivity.
    + rewrite Hn. split; reflexivity.
    + destruct (RowFacts.data_row_inv _ _ _ _ _ Hd) as [_ X].
      destruct X as (date & offset & id & cLat & cLon & cElev & locs & info & nobj & shown &
                     warns & out & ghost & loc & o & f & pits & lp & qs & xs & lq & ts & cdfs & lt &
                     Ed & Eo & Eid & Ela & Elo & Eel & Hr & Hloc & Eob & Efc & Epit & Eq & Et & ->).
      simpl. rewrite Hh, length_app. simpl. split; [reflexivity|lia].
Qed.

End LineFacts.


Module HeaderFacts.
Import Py Text Views.

Lemma combine_app_single {A B} (a : list A) (b : list B) x y :
  length a = length b -> combine (a ++ [x]) (b ++ [y]) = combine a b ++ [(x, y)].
Proof.
  revert b. induction a as [|u a IH]; intros [|v b] Hl; simpl in *; try discriminate; auto.
  rewrite IH by lia. reflexivity.
Qed.

Lemma header_indices_snoc h x :
  header_indices (h ++ [x]) = dset String.eqb x (length h) (header_indices h).
Proof.
  unfold header_indices. rewrite length_app. simpl. rewrite Nat.add_1_r, seq_S.
  rewrite combine_app_single by (rewrite length_seq; reflexivity).
  rewrite fold_left_app. reflexivity.
Qed.

Lemma dget_dset_str name x n (A : list (string * nat)) :
  dget String.eqb name (dset String.eqb x n A) =
  if String.eqb name x then Some n else dget String.eqb name A.
Proof.
  destruct (String.eqb name x) eqn:E.
  - apply DictFacts.dget_dset_same; [exact String.eqb_sym|exact DictFacts.string_eqb_trans|exact E].
  - apply DictFacts.dget_dset_other; [exact String.eqb_sym|exact DictFacts.string_eqb_trans|exact E].
Qed.

Lemma header_indices_none h name :
  dget String.eqb name (header_indices h) = None <-> ~ In name h.
Proof.
  induction h as [|x h IH] using rev_ind.
  - simpl. tauto.
  - rewrite header_indices_snoc, dget_dset_str, in_app_iff.
    destruct (String.eqb_spec name x) as [->|Hne].
    + split; [discriminate|]. intros H. exfalso. apply H. right. left. reflexivity.
    + rewrite IH. simpl. split; [intros H [H1|[H1|[]]]; [exact (H H1)|congruence]|].
      intros H H1. apply H. left. exact H1.
Qed.

Lemma header_indices_get h name i :
  dget String.eqb name (header_indices h) = Some i <->
  nth_error h i = Some name /\ forall j, (i < j)%nat -> nth_error h j <> Some name.
Proof.
  revert i. induction h as [|x h IH] using rev_ind; intros i.
  - simpl. split; [discriminate|]. intros [H _]. destruct i; discriminate H.
  - rewrite header_indices_snoc, dget_dset_str.
    destruct (String.eqb_spec name x) as [->|Hne].
    + split.
      * intros H. injection H as <-. split.
        -- rewrite nth_error_app2 by lia. rewrite Nat.sub_diag. reflexivity.
        -- intros j Hj. rewrite nth_error_app2 by lia.
           rewrite (proj2 (nth_error_None [x] (j - length h))) by (simpl; lia). discriminate.
      * intros [H1 H2]. f_equal.
        destruct (Nat.lt_trichotomy i (length h)) as [Hlt|[Heq|Hgt]].
        -- exfalso. apply (H2 (length h) Hlt). rewrite nth_error_app2 by lia.
           rewrite Nat.sub_diag. reflexivity.
        -- symmetry. exact Heq.
        -- rewrite nth_error_app2 in H1 by lia.
           rewrite (proj2 (nth_error_None [x] (i - length h))) in H1 by (simpl; lia). discriminate.
    + rewrite IH. split.
      * intros [H1 H2].
        assert (Hi : (i < length h)%nat) by (apply nth_error_Some; congruence).
        split; [rewrite nth_error_app1 by exact Hi; exact H1|].
        intros j Hj. destruct (Nat.lt_ge_cases j (length h)) as [Hj'|Hj'].
        -- rewrite nth_error_app1 by exact Hj'. exact (H2 j Hj).
        -- rewrite nth_error_app2 by exact Hj'.
           destruct (j - length h)%nat as [|k] eqn:Ek; simpl.
           ++ congruence.
           ++ destruct k; discriminate.
      * intros [H1 H2].
        assert (Hi : (i < length h)%nat).
        { destruct (Nat.lt_ge_cases i (length h)) as [Hi|Hi]; [exact Hi|].
          rewrite nth_error_app2 in H1 by exact Hi.
          destruct (i - length h)%nat as [|k]; simpl in H1.
          - congruence.
          - destruct k; discriminate. }
        rewrite nth_error_app1 in H1 by exact Hi. split; [exact H1|].
        intros j Hj Hjn. apply (H2 j Hj).
        rewrite nth_error_app1; [exact Hjn|]. apply nth_error_Some. congruence.
Qed.

Lemma in_indices_header h name : in_indices (header_indices h) name = true <-> In name h.
Proof.
  unfold in_indices. pose proof (header_indices_none h name) as H.
  destruct (dget String.eqb name (header_indices h)) as [i|] eqn:E; split; intros X.
  - destruct (In_dec String.string_dec name h) as [I|I]; [exact I|].
    apply H in I. discriminate.
  - reflexivity.
  - discriminate X.
  - exfalso. exact (proj1 H eq_refl X).
Qed.

Lemma existsb_pit_header h :
  existsb (fun kv => String.eqb (fst kv) "pit") (header_indices h) = true <-> In "pit"%string h.
Proof.
  rewrite <- in_indices_header. unfold in_indices. generalize (header_indices h) as l. intros l.
  induction l as [|[k v] r IH]; simpl; [split; discriminate|].
  rewrite String.eqb_sym. destruct (String.eqb "pit" k); [split; reflexivity|exact IH].
Qed.

End HeaderFacts.


Module RegFacts.
Import Py Text Views.

Lemma kdget_compat (a b : fobj) (d : list (fobj * location)) :
  key_eq a b = true -> dget key_eq a d = dget key_eq b d.
Proof. apply DictFacts.dget_compat; [exact FloatFacts.key_eq_sym|exact FloatFacts.key_eq_trans]. Qed.

Lemma feq_key_eq (a b : fobj) : feq (fval a) (fval b) = true -> key_eq a b = true.
Proof.
  intros H. rewrite FloatFacts.key_eq_num; [exact H|].
  apply FloatFacts.feq_rank in H. tauto.
Qed.

Lemma key_eq_nan_l (a b : fobj) :
  isnan (fval a) = true -> isnan (fval b) = false -> key_eq a b = false.
Proof.
  intros Ha Hb. destruct (key_eq a b) eqn:E; [|reflexivity].
  apply FloatFacts.key_eq_rank in E. destruct E as [E|E]; destruct E as [E1 [E2 _]]; congruence.
Qed.

Lemma key_eq_nan_r (a b : fobj) :
  isnan (fval a) = false -> isnan (fval b) = true -> key_eq a b = false.
Proof. intros Ha Hb. rewrite FloatFacts.key_eq_sym. apply key_eq_nan_l; assumption. Qed.

Lemma feq_nonnan_l a b : feq a b = true -> isnan a = false.
Proof. destruct a; intro H; first [reflexivity | discriminate H]. Qed.

Lemma feq_self a : isnan a = false -> feq a a = true.
Proof. intros H. apply FloatFacts.feq_rank. auto. Qed.

Lemma key_eq_feq (a b : fobj) : isnan (fval a) = false -> key_eq a b = feq (fval a) (fval b).
Proof. exact (FloatFacts.key_eq_num a b). Qed.

Lemma isnan_nonan_default (x : fobj) :
  isnan (fval (if isnan (fval x) then int_zero else x)) = false.
Proof. destruct (isnan (fval x)) eqn:E; [reflexivity|exact E]. Qed.

(** The registration step keeps the invariant; a row whose id is not a
    registered one adds a location. *)
Lemma resolve_inv st id cLat cLon cElev locs info nobj rest :
  resolve_location st id cLat cLon cElev = (locs, info, nobj, rest) ->
  loc_inv (s_locations st) (s_location_info st) (s_next_obj st) ->
  loc_inv locs info nobj /\
  (isnan (fval id) = true -> length locs = S (length (s_locations st))).
Proof.
  intros H [Hall Hnd]. unfold resolve_location in H. cbv zeta in H.
  destruct (if isnan (fval id) then None else dget key_eq id (s_location_info st))
    as [stored|] eqn:Ek.
  - destruct (negb (s_shown st) && _); injection H as <- <- <- _;
      (split; [split; assumption|intros Hn; rewrite Hn in Ek; discriminate]).
  - injection H as <- <- <- _.
    set (location := mkLocation (s_next_obj st) (fval id)
                      (if isnan (fval cLat) then int_zero else cLat)
                      (if isnan (fval cLon) then int_zero else cLon)
                      (if isnan (fval cElev) then int_zero else cElev)).
    (* no registered location matches the new one *)
    assert (Hfresh : forall y, In y (s_locations st) ->
              isnan (loc_id y) = false -> feq (loc_id y) (fval id) = false).
    { intros y Hy Hyn. destruct (feq (loc_id y) (fval id)) eqn:E; [|reflexivity].
      destruct (isnan (fval id)) eqn:Ei.
      - apply FloatFacts.feq_rank in E. destruct E as [_ [E _]]. congruence.
      - destruct (Hall y Hy) as (_ & _ & _ & _ & Hget).
        assert (Hk : key_eq (mkObj (loc_id y) NpNan) id = true) by (apply feq_key_eq; exact E).
        rewrite <- (kdget_compat _ _ _ Hk), (Hget Hyn (mkObj (loc_id y) NpNan) eq_refl) in Ek.
        discriminate. }
    assert (Hno : existsb (fun y => location_eq y location) (s_locations st) = false).
    { apply not_true_iff_false. intros Hex. apply existsb_exists in Hex.
      destruct Hex as [y [Hy Heq]]. unfold location_eq in Heq. simpl in Heq.
      destruct (Hall y Hy) as (Hlt & _).
      apply Bool.orb_true_iff in Heq. destruct Heq as [Heq|Heq].
      - apply Nat.eqb_eq in Heq. lia.
      - assert (Hyn : isnan (loc_id y) = false) by exact (feq_nonnan_l _ _ Heq).
        pose proof (Hfresh y Hy Hyn) as Hf. congruence. }
    assert (Hadd : loc_add location (s_locations st) = s_locations st ++ [location]).
    { unfold loc_add, PySet.add. rewrite Hno. reflexivity. }
    rewrite Hadd. split; [split|].
    + intros l Hl. apply in_app_or in Hl. destruct Hl as [Hl|[<-|[]]].
      * destruct (Hall l Hl) as (Hlt & Ha & Hb & Hc & Hget).
        split; [lia|]. split; [exact Ha|]. split; [exact Hb|]. split; [exact Hc|].
        intros Hn i Hi. rewrite DictFacts.dget_dset_other;
          [exact (Hget Hn i Hi)|exact FloatFacts.key_eq_sym|exact FloatFacts.key_eq_trans|].
        rewrite key_eq_feq by congruence. rewrite Hi. exact (Hfresh l Hl Hn).
      * simpl. split; [lia|]. split; [apply isnan_nonan_default|].
        split; [apply isnan_nonan_default|]. split; [apply isnan_nonan_default|].
        intros Hn i Hi. apply DictFacts.dget_dset_same;
          [exact FloatFacts.key_eq_sym|exact FloatFacts.key_eq_trans|].
        rewrite key_eq_feq by congruence. rewrite Hi. apply feq_self. exact Hn.
    + rewrite map_app. apply NoDup_app; [exact Hnd|constructor; [intros []|constructor]|].
      intros x Hx [Hy|[]]. simpl in Hy. subst x.
      apply in_map_iff in Hx. destruct Hx as [y [Hy Hin]].
      destruct (Hall y Hin) as (Hlt & _). lia.
    + intros _. rewrite length_app. simpl. lia.
Qed.

End RegFacts.


Module FAddFacts.
Import Py.

Open Scope Z_scope.
Lemma shr_1_nonneg r : 0 <= shr_m r -> 0 <= shr_m (shr_1 r).
Proof. destruct r as [m r s]; simpl; destruct m as [|[p|p|]|p]; simpl; lia. Qed.

Lemma iter_shr_1_nonneg p : forall r, 0 <= shr_m r -> 0 <= shr_m (iter_pos shr_1 p r).
Proof.
  induction p as [p IH|p IH|]; intros r H; simpl; auto using shr_1_nonneg.
Qed.

Lemma shr_fexp_nonneg m e l s e' :
  0 <= m -> shr_fexp prec emax m e l = (s, e') -> 0 <= shr_m s.
Proof.
  intros Hm. unfold shr_fexp, shr.
  assert (Hr : 0 <= shr_m (shr_record_of_loc m l)) by (destruct l as [|[| |]]; exact Hm).
  destruct (_ - e); intros H; injection H as <- _; auto using iter_shr_1_nonneg.
Qed.

Lemma round_nearest_even_nonneg m l : 0 <= m -> 0 <= round_nearest_even m l.
Proof. intros H; destruct l as [|[| |]]; simpl; try destruct (Z.even m); lia. Qed.

Lemma fadd_nonnan a b : isnan a = false -> isnan b = false ->
  (a = S754_infinity true -> b <> S754_infinity false) ->
  (a = S754_infinity false -> b <> S754_infinity true) ->
  isnan (fadd a b) = false.
Proof.
  intros Ha Hb H1 H2. unfold fadd, SFadd.
  destruct a as [sa|sa| |sa ma ea], b as [sb|sb| |sb mb eb]; try discriminate;
  unfold binary_normalize, binary_round, binary_round_aux;
  repeat (match goal with |- context [match ?x with _ => _ end] => destruct x eqn:? end);
  try reflexivity.
  all: try (destruct sa, sb; simpl in *; try discriminate;
            exfalso; first [exact (H1 eq_refl eq_refl) | exact (H2 eq_refl eq_refl)]).
  all: exfalso;
    match goal with
    | E1 : shr_fexp _ _ (Z.pos _) _ _ = (?s, _),
      E2 : shr_fexp _ _ (round_nearest_even (shr_m ?s) _) _ _ = (?s0, _),
      E3 : shr_m ?s0 = Z.neg _ |- _ =>
        pose proof (shr_fexp_nonneg _ _ _ _ _ (Zle_0_pos _) E1) as N1;
        pose proof (shr_fexp_nonneg _ _ _ _ _ (round_nearest_even_nonneg _ _ N1) E2); lia
    end.
Qed.

End FAddFacts.


Module TextInvFacts.
Import Py Text Views RegFacts.

Lemma field_or_absent h r row name d :
  ~ In name h -> field_or (header_indices h) r row name d = Ok d.
Proof.
  intros H. unfold field_or. apply HeaderFacts.header_indices_none in H. rewrite H. reflexivity.
Qed.

Lemma dset_not_nil {K V} (keq : K -> K -> bool) k (v : V) d : dset keq k v d <> [].
Proof. destruct d as [|[k' v'] r]; simpl; [discriminate|destruct (keq k' k); discriminate]. Qed.

Lemma level_loop_parse idx row r tn j k5 fields levels tab log res :
  level_loop idx row r tn j k5 fields levels tab log = Ok res ->
  forall fld, In fld fields -> float_of_string (tail_str fld) <> None.
Proof.
  revert j levels tab log; induction fields as [|f rest IH]; intros j levels tab log H fld Hin;
    simpl in H; [destruct Hin|].
  inv_ok H. destruct Hin as [<-|Hin].
  - unfold py_float in E. destruct (float_of_string (tail_str f)); discriminate.
  - exact (IH _ _ _ _ H fld Hin).
Qed.

Lemma data_row_bad st h l row st' fld :
  data_row st h l row = Ok st' -> bad_level_column h fld -> False.
Proof.
  intros Hd [Hin Hb]. destruct (RowFacts.data_row_inv _ _ _ _ _ Hd) as [_ X].
  destruct X as (date & offset & id & cLat & cLon & cElev & locs & info & nobj & shown &
                 warns & out & ghost & loc & o & f & pits & lp & qs & xs & lq & ts & cdfs & lt &
                 Ed & Eo & Eid & Ela & Elo & Eel & Hr & Hloc & Eob & Efc & Epit & Eq & Et & _).
  destruct Hin as [Hin|Hin].
  - exact (level_loop_parse _ _ _ _ _ _ _ _ _ _ _ Eq fld Hin Hb).
  - exact (level_loop_parse _ _ _ _ _ _ _ _ _ _ _ Et fld Hin Hb).
Qed.

Lemma text_inv_init : text_inv init.
Proof.
  split; [split; [intros l []|constructor]|].
  split; [intros _; repeat split|]. simpl. repeat split.
Qed.

Lemma text_inv_step fn st l st' :
  text_inv st -> process_line fn st l = Ok st' -> text_inv st'.
Proof.
  intros [Hloc [Hseen Hh]] E.
  destruct (LineFacts.process_line_kinds _ _ _ _ E)
    as [[Hc (u & v & ws & ->)]|[[Hc [Hn [Ho [Hf ->]]]]|[Hc [h [Hs Hd]]]]].
  - split; [exact Hloc|]; split; [exact Hseen|exact Hh].
  - rewrite Hn in Hh. destruct Hh as (Hsn & Hdt & Hof).
    destruct (Hseen Hsn) as (Hds & Hos & Hls & Hps).
    split; [exact Hloc|]. split; [exact Hseen|]. simpl.
    apply HeaderFacts.in_indices_header in Ho, Hf.
    rewrite Hsn, Hds, Hos, Hls, Hps, Hdt, Hof.
    repeat split; auto; try (intros x []); try (intros _ X; exfalso; apply X; reflexivity).
  - rewrite Hs in Hh.
    destruct Hh as (Hidx & Ho & Hf & Hdate & Hoff & Hnopit & Hpit & Hnoid & Hbad).
    destruct (RowFacts.data_row_inv _ _ _ _ _ Hd) as [_ X].
    destruct X as (date & offset & id & cLat & cLon & cElev & locs & info & nobj & shown &
                   warns & out & ghost & loc & o & f & pits & lp & qs & xs & lq & ts & cdfs & lt &
                   Ed & Eo & Eid & Ela & Elo & Eel & Hr & Hl & Eob & Efc & Epit & Eq & Et & ->).
    rewrite Hidx in Ed, Eo, Eid, Epit.
    destruct (resolve_inv _ _ _ _ _ _ _ _ _ Hr Hloc) as [Hloc' Hlen].
    split; [exact Hloc'|]. simpl.
    split; [intros N; exfalso; destruct (s_seen_dates st); discriminate N|].
    rewrite Hs. split; [exact Hidx|]. split; [exact Ho|]. split; [exact Hf|].
    split; [|split; [|split; [|split; [|split]]]].
    + intros Hn. rewrite (field_or_absent _ _ _ _ _ Hn) in Ed. injection Ed as <-.
      destruct (Hdate Hn) as [Hz Hall]. split; [exact Hz|].
      intros d Hin. apply QuantFacts.fadd_set_in in Hin.
      destruct Hin as [Hin| ->]; [exact (Hall d Hin)|exact Hz].
    + intros Hn. rewrite (field_or_absent _ _ _ _ _ Hn) in Eo. injection Eo as <-.
      destruct (Hoff Hn) as [Hz Hall]. split; [exact Hz|].
      intros d Hin. apply QuantFacts.fadd_set_in in Hin.
      destruct Hin as [Hin| ->]; [exact (Hall d Hin)|exact Hz].
    + intros Hn. destruct (existsb _ (header_indices h)) eqn:Ep.
      * apply HeaderFacts.existsb_pit_header in Ep. contradiction.
      * destruct Epit as [-> _]. exact (Hnopit Hn).
    + intros Hn _. destruct (existsb _ (header_indices h)) eqn:Ep.
      * destruct Epit as [p [_ [-> _]]]. apply dset_not_nil.
      * apply not_true_iff_false in Ep. exfalso. apply Ep.
        apply HeaderFacts.existsb_pit_header. exact Hn.
    + intros Hn. rewrite (field_or_absent _ _ _ _ _ Hn) in Eid. injection Eid as <-.
      rewrite (Hlen eq_refl), length_app, (Hnoid Hn). simpl. lia.
    + intros fld Hb. exfalso. exact (data_row_bad _ _ _ _ _ _ Hd Hb).
Qed.

Lemma parse_lines_text_inv fn lines st :
  parse_lines fn init lines = Ok st -> text_inv st.
Proof.
  intros H. exact (LineFacts.parse_lines_inv fn text_inv (text_inv_step fn) lines init st
                     text_inv_init H).
Qed.

End TextInvFacts.


Module LoadFacts.
Import Py Text Views FAddFacts TextInvFacts.

Lemma load_state fn lines s :
  load fn lines = Ok s ->
  exists st, parse_lines fn init lines = Ok st /\ s = finish st /\ text_inv st /\
    s_header st = first_header lines /\ length (s_seen_dates st) = data_lines false lines.
Proof.
  intros H. destruct (RowFacts.load_inv _ _ _ H) as [st [Hp ->]].
  destruct (LineFacts.parse_lines_header _ _ _ _ Hp) as [H1 H2].
  exists st. split; [exact Hp|]. split; [reflexivity|].
  split; [exact (parse_lines_text_inv _ _ _ Hp)|]. split; [exact H1|exact H2].
Qed.

Lemma perm_nil_r {A} (l : list A) : Permutation l [] -> l = [].
Proof. intros H. apply Permutation_nil. apply Permutation_sym. exact H. Qed.

Lemma in_fset_list x s : In x (fset_list s) -> In x s.
Proof. apply Permutation_in. apply PySetFacts.to_list_perm. Qed.

Lemma in_loc_list x s : In x (loc_list s) -> In x s.
Proof. apply Permutation_in. apply PySetFacts.to_list_perm. Qed.

Lemma fset_list_nil : fset_list [] = [].
Proof. apply perm_nil_r. apply PySetFacts.to_list_perm. Qed.

Lemma loc_list_nil : loc_list [] = [].
Proof. apply perm_nil_r. apply PySetFacts.to_list_perm. Qed.

Lemma locations_length st : length (locations (finish st)) = length (s_locations st).
Proof.
  unfold finish, locations, deferred_ids. cbv zeta. rewrite DenseFacts.assign_ids_length.
  apply Permutation_length. apply PySetFacts.to_list_perm.
Qed.

Lemma of_Z_1_finite : of_Z 1 = S754_finite false 4503599627370496 (-52).
Proof. vm_compute. reflexivity. Qed.

Lemma add1_nonnan c : isnan c = false -> isnan (fadd c (of_Z 1)) = false.
Proof.
  intros H. rewrite of_Z_1_finite. apply fadd_nonnan; [exact H|reflexivity|intros _; discriminate|intros _; discriminate].
Qed.

Lemma iter_add1_nonnan n c : isnan c = false ->
  isnan (Nat.iter n (fun x => fadd x (of_Z 1)) c) = false.
Proof. intros H. induction n; simpl; [exact H|apply add1_nonnan; exact IHn]. Qed.

Lemma assign_ids_nonnan L : forall c l,
  isnan c = false -> In l (assign_ids L c) -> isnan (loc_id l) = false.
Proof.
  induction L as [|l0 r IH]; intros c l Hc Hin; simpl in Hin; [destruct Hin|].
  destruct (isnan (loc_id l0)) eqn:E; destruct Hin as [<-|Hin].
  - exact Hc.
  - exact (IH _ _ (add1_nonnan _ Hc) Hin).
  - exact E.
  - exact (IH _ _ Hc Hin).
Qed.

Lemma deferred_ids_nonnan L l :
  In l (deferred_ids L) -> isnan (loc_id l) = false.
Proof.
  unfold deferred_ids. cbv zeta. apply assign_ids_nonnan.
  destruct (isnan (max_location_id L nan)) eqn:E; simpl; [reflexivity|].
  apply add1_nonnan. exact E.
Qed.

End LoadFacts.


Module MetaFacts.
Import Py Text Views.

Lemma process_line_meta fn st l st' accv accu :
  process_line fn st l = Ok st' ->
  s_variable st = variable_view accv -> s_units st = units_view accu -> accu <> Some [] ->
  let accv' := if is_comment l then
           match split (tail_str l) with
           | w :: ws => if String.eqb w "variable:" then Some ws else accv
           | [] => accv
           end else accv in
  let accu' := if is_comment l then
           match split (tail_str l) with
           | w :: ws => if String.eqb w "units:" then Some ws else accu
           | [] => accu
           end else accu in
  s_variable st' = variable_view accv' /\ s_units st' = units_view accu' /\ accu' <> Some [].
Proof.
  intros H Hv Hu Hn. cbv zeta.
  destruct (is_comment l) eqn:Hc.
  - destruct l as [|c r]; [discriminate Hc|].
    unfold process_line, char_at in H. cbn [String.get bind] in H. simpl in Hc. rewrite Hc in H.
    destruct (split (tail_str (String c r))) as [|w ws]; unfold list_get in H; simpl in H;
      [discriminate H|].
    destruct (String.eqb w "variable:") eqn:Ev.
    + apply String.eqb_eq in Ev. subst w. injection H as <-. simpl.
      split; [reflexivity|split; assumption].
    + destruct (String.eqb w "units:") eqn:Eu.
      * apply String.eqb_eq in Eu. subst w.
        destruct ws as [|u ws]; simpl in H; [discriminate H|].
        injection H as <-. simpl. split; [exact Hv|split; [reflexivity|discriminate]].
      * injection H as <-. simpl. split; [exact Hv|split; assumption].
  - destruct (LineFacts.process_line_kinds _ _ _ _ H)
      as [[Hc' _]|[[_ [_ [_ [_ ->]]]]|[_ [h [_ Hd]]]]].
    + congruence.
    + simpl. split; [exact Hv|split; assumption].
    + destruct (RowFacts.data_row_inv _ _ _ _ _ Hd) as [_ X].
      destruct X as (date & offset & id & cLat & cLon & cElev & locs & info & nobj & shown &
                     warns & out & ghost & loc & o & f & pits & lp & qs & xs & lq & ts & cdfs & lt &
                     Ed & Eo & Eid & Ela & Elo & Eel & Hr & Hl & Eob & Efc & Epit & Eq & Et & ->).
      simpl. split; [exact Hv|split; assumption].
Qed.

Lemma parse_lines_meta fn lines : forall st st' accv accu,
  parse_lines fn st lines = Ok st' ->
  s_variable st = variable_view accv -> s_units st = units_view accu -> accu <> Some [] ->
  s_variable st' = variable_view (last_words "variable:" lines accv) /\
  s_units st' = units_view (last_words "units:" lines accu).
Proof.
  induction lines as [|l r IH]; intros st st' accv accu H Hv Hu Hn; simpl in H.
  - injection H as <-. auto.
  - inv_ok H. destruct (process_line_meta _ _ _ _ _ _ E Hv Hu Hn) as (Hv' & Hu' & Hn').
    exact (IH _ _ _ _ H Hv' Hu' Hn').
Qed.

End MetaFacts.


Module ReplaceFacts.
Import Py Codec Views.

Lemma replace_aux_absent c0 rest new s :
  ~ has_char c0 s -> replace_aux (String c0 rest) new 0 s = s.
Proof.
  induction s as [|c r IH]; intros H; simpl; [reflexivity|].
  destruct (ascii_dec c0 c) as [<-|Hne].
  - exfalso. apply H. left. reflexivity.
  - rewrite IH; [reflexivity|]. intros X. apply H. right. exact X.
Qed.

Lemma replace_absent c0 rest new s :
  ~ has_char c0 s -> replace (String c0 rest) new s = s.
Proof. intros H. unfold replace. simpl. apply replace_aux_absent. exact H. Qed.

End ReplaceFacts.


(* ----------------------------------------------------------------- *)
(** ** Further properties of the decoders *)

Module DatasetNames.
Import Py InputNames Views.

(** [Input.name] is the part of the full name after its last '/': the
    full name is a directory part followed by the name, the directory
    part is empty or ends in '/', and the name has no '/'. *)
Theorem input_name_split (fullname : string) :
  exists dir, fullname = (dir ++ input_name fullname)%string /\
    (dir = EmptyString \/ exists d, dir = (d ++ "/")%string) /\
    ~ has_char "/" (input_name fullname).
Proof. exact (NameFacts.name_split fullname). Qed.

(** [Input.shortname] cuts [Input.name] before its last '.': when the
    name has a '.', the name is the short name, a '.' and an extension
    without '.'.  When the name has no '.', [rfind] gives -1 and the slice
    [name[:-1]] drops the last character of a non-empty name. *)
Theorem input_shortname_split (fullname : string) :
  let nm := input_name fullname in
  (has_char "." nm ->
     exists ext, nm = (input_shortname fullname ++ "." ++ ext)%string /\ ~ has_char "." ext) /\
  (~ has_char "." nm -> nm <> EmptyString ->
     exists c, nm = (input_shortname fullname ++ String c EmptyString)%string).
Proof. exact (NameFacts.shortname_split fullname). Qed.

(** A witness: "data/obs.txt" has the short name "obs", and "data/obs",
    without an extension, the short name "ob". *)
Lemma input_shortname_split_witness :
  let n1 := "data/obs.txt"%string in let n2 := "data/obs"%string in
  has_char "." (input_name n1) /\ ~ has_char "." (input_name n2) /\
  input_name n2 <> EmptyString /\
  input_shortname n1 = "obs"%string /\ input_shortname n2 = "ob"%string /\
  (exists ext, input_name n1 = (input_shortname n1 ++ "." ++ ext)%string /\ ~ has_char "." ext) /\
  (exists c, input_name n2 = (input_shortname n2 ++ String c EmptyString)%string).
Proof.
  intros n1 n2.
  assert (H1 : has_char "." (input_name n1)).
  { apply NameFacts.has_char_b. vm_compute. reflexivity. }
  assert (H2 : ~ has_char "." (input_name n2)).
  { intros X. apply NameFacts.has_char_b in X. vm_compute in X. discriminate X. }
  assert (H3 : input_name n2 <> EmptyString) by (vm_compute; discriminate).
  split; [exact H1|]. split; [exact H2|]. split; [exact H3|].
  split; [vm_compute; reflexivity|]. split; [vm_compute; reflexivity|].
  split; [exact (proj1 (input_shortname_split n1) H1)|].
  exact (proj2 (input_shortname_split n2) H2 H3).
Defined.

End DatasetNames.

Module HeaderColumns.
Import Py Text.

(** The header loop stores [indices[att] = i] for every column, so a
    column name maps to its last position in the header, and a name that
    is not a column has no index. *)
Theorem text_header_last_index (h : list string) (name : string) (i : nat) :
  (dget String.eqb name (header_indices h) = Some i <->
     nth_error h i = Some name /\ forall j, (i < j)%nat -> nth_error h j <> Some name) /\
  (dget String.eqb name (header_indices h) = None <-> ~ In name h).
Proof. split; [apply HeaderFacts.header_indices_get|apply HeaderFacts.header_indices_none]. Qed.

End HeaderColumns.


Module TextLoadExtras.
Import Py Text Views TextSamples LoadFacts.

(** Without a [date] column every row takes the default date 0, so every
    date of the result is 0; likewise without an [offset] column every
    offset is 0. *)
Theorem text_default_dates_offsets (fn : string) (lines : list string) (s : snapshot) :
  load fn lines = Ok s ->
  ((forall h, first_header lines = Some h -> ~ In "date"%string h) ->
     forall d, In d (dates s) -> d = fzero) /\
  ((forall h, first_header lines = Some h -> ~ In "offset"%string h) ->
     forall o, In o (offsets s) -> o = fzero).
Proof.
  intros H. destruct (load_state _ _ _ H) as (st & _ & -> & [_ [Hseen Hh]] & Hhead & _).
  rewrite <- Hhead. unfold finish, dates, offsets. cbv zeta.
  destruct (s_header st) as [h|] eqn:Es.
  - destruct Hh as (_ & _ & _ & Hd & Ho & _).
    split; intros Hn x Hx; apply in_map_iff in Hx; destruct Hx as [y [<- Hy]];
      apply in_fset_list in Hy.
    + rewrite (proj2 (Hd (Hn h eq_refl)) y Hy). reflexivity.
    + rewrite (proj2 (Ho (Hn h eq_refl)) y Hy). reflexivity.
  - destruct Hh as (Hs & _). destruct (Hseen Hs) as (Hd & Ho & _).
    rewrite Hd, Ho, fset_list_nil. split; intros _ x [].
Qed.

(** A witness: the sample without date and offset columns. *)
Lemma text_default_dates_offsets_witness :
  let fn := "f"%string in let lines := sample_no_ids in
  let s := snapshot_of (load fn lines) in
  load fn lines = Ok s /\
  (forall h, first_header lines = Some h -> ~ In "date"%string h) /\
  (forall h, first_header lines = Some h -> ~ In "offset"%string h) /\
  (forall d, In d (dates s) -> d = fzero) /\ (forall o, In o (offsets s) -> o = fzero).
Proof.
  intros fn lines s.
  assert (H : load fn lines = Ok s) by (vm_compute; reflexivity).
  assert (Hd : forall h, first_header lines = Some h -> ~ In "date"%string h).
  { intros h E. vm_compute in E. injection E as <-. simpl. intuition discriminate. }
  assert (Ho : forall h, first_header lines = Some h -> ~ In "offset"%string h).
  { intros h E. vm_compute in E. injection E as <-. simpl. intuition discriminate. }
  destruct (text_default_dates_offsets fn lines s H) as [A B].
  split; [exact H|split; [exact Hd|split; [exact Ho|split; [exact (A Hd)|exact (B Ho)]]]].
Defined.

(** The result has no pit array ([self._pit] stays [None]) exactly when
    the header has no [pit] column or the file has no data row. *)
Theorem text_pit_none (fn : string) (lines : list string) (s : snapshot) :
  load fn lines = Ok s ->
  (pit s = None <->
   (forall h, first_header lines = Some h -> ~ In "pit"%string h) \/ data_lines false lines = 0%nat).
Proof.
  intros H. destruct (load_state _ _ _ H) as (st & _ & -> & [_ [Hseen Hh]] & Hhead & Hlen).
  rewrite <- Hhead, <- Hlen. unfold finish, pit. cbv zeta.
  assert (Hp : match s_pit st with [] => None | _ => Some (dense3 (s_pit st)
                 (fset_list (s_dates st)) (fset_list (s_offsets st)) (loc_list (s_locations st))) end
               = None <-> s_pit st = []).
  { destruct (s_pit st); split; intros X; reflexivity || discriminate X. }
  rewrite Hp. clear Hp.
  destruct (s_header st) as [h|] eqn:Es.
  - destruct Hh as (_ & _ & _ & _ & _ & Hno & Hyes & _).
    destruct (in_dec string_dec "pit"%string h) as [I|I].
    + destruct (s_seen_dates st) as [|x r] eqn:Esd.
      * split; [intros _; right; reflexivity|intros _; exact (proj2 (proj2 (proj2 (Hseen eq_refl))))].
      * split; [intros X; exfalso; exact (Hyes I ltac:(discriminate) X)|].
        intros [X|X]; [exfalso; exact (X h eq_refl I)|discriminate X].
    + split; [intros _; left; intros h' E; injection E as <-; exact I|intros _; exact (Hno I)].
  - destruct Hh as (Hs & _). rewrite Hs. split; [intros _; right; reflexivity|].
    intros _. exact (proj2 (proj2 (proj2 (Hseen Hs)))).
Qed.

(** A witness: a file with a [pit] column and one row has a pit array. *)
Lemma text_pit_none_witness :
  let fn := "f"%string in let lines := sample_pit in
  let s := snapshot_of (load fn lines) in
  load fn lines = Ok s /\ pit s <> None /\
  (pit s = None <->
   (forall h, first_header lines = Some h -> ~ In "pit"%string h) \/ data_lines false lines = 0%nat).
Proof.
  intros fn lines s.
  assert (H : load fn lines = Ok s) by (vm_compute; reflexivity).
  split; [exact H|]. split; [vm_compute; discriminate|].
  exact (text_pit_none fn lines s H).
Defined.

(** Without an [id] column every data row creates a new location: the
    result has as many locations as the file has data rows. *)
Theorem text_no_id_locations (fn : string) (lines : list string) (s : snapshot) :
  load fn lines = Ok s ->
  (forall h, first_header lines = Some h -> ~ In "id"%string h) ->
  length (locations s) = data_lines false lines.
Proof.
  intros H Hn. destruct (load_state _ _ _ H) as (st & _ & -> & [_ [Hseen Hh]] & Hhead & Hlen).
  rewrite <- Hlen, locations_length. rewrite <- Hhead in Hn.
  destruct (s_header st) as [h|] eqn:Es.
  - destruct Hh as (_ & _ & _ & _ & _ & _ & _ & Hid & _). exact (Hid (Hn h eq_refl)).
  - destruct Hh as (Hs & _). destruct (Hseen Hs) as (_ & _ & Hl & _). rewrite Hl, Hs. reflexivity.
Qed.

(** A witness: five rows without ids, five locations. *)
Lemma text_no_id_locations_witness :
  let fn := "f"%string in let lines := sample_no_ids in
  let s := snapshot_of (load fn lines) in
  load fn lines = Ok s /\
  (forall h, first_header lines = Some h -> ~ In "id"%string h) /\
  length (locations s) = data_lines false lines /\ data_lines false lines = 5%nat.
Proof.
  intros fn lines s.
  assert (H : load fn lines = Ok s) by (vm_compute; reflexivity).
  assert (Hi : forall h, first_header lines = Some h -> ~ In "id"%string h).
  { intros h E. vm_compute in E. injection E as <-. simpl. intuition discriminate. }
  split; [exact H|]. split; [exact Hi|]. split; [exact (text_no_id_locations fn lines s H Hi)|].
  vm_compute. reflexivity.
Defined.

(** Every location of the result has a number, not NaN, as id, latitude,
    longitude and elevation: a missing coordinate of a new location
    becomes 0 and a missing id is assigned after the reading loop. *)
Theorem text_location_numbers (fn : string) (lines : list string) (s : snapshot) :
  load fn lines = Ok s ->
  forall l, In l (locations s) ->
    isnan (loc_id l) = false /\ isnan (fval (loc_lat l)) = false /\
    isnan (fval (loc_lon l)) = false /\ isnan (fval (loc_elev l)) = false.
Proof.
  intros H l Hin. destruct (load_state _ _ _ H) as (st & _ & -> & [[Hall _] _] & _).
  unfold finish, locations in Hin. cbv zeta in Hin.
  split; [exact (deferred_ids_nonnan _ _ Hin)|].
  apply In_nth_error in Hin. destruct Hin as [k Hk].
  destruct (DenseFacts.deferred_ids_coords _ _ _ Hk) as (l0 & E0 & -> & -> & ->).
  apply nth_error_In, in_loc_list in E0.
  destruct (Hall l0 E0) as (_ & Ha & Hb & Hc & _). auto.
Qed.

(** A witness: two locations with ids and default coordinates. *)
Lemma text_location_numbers_witness :
  let fn := "f"%string in let lines := sample_shared_coords in
  let s := snapshot_of (load fn lines) in
  load fn lines = Ok s /\ length (locations s) = 2%nat /\
  forall l, In l (locations s) ->
    isnan (loc_id l) = false /\ isnan (fval (loc_lat l)) = false /\
    isnan (fval (loc_lon l)) = false /\ isnan (fval (loc_elev l)) = false.
Proof.
  intros fn lines s.
  assert (H : load fn lines = Ok s) by (vm_compute; reflexivity).
  split; [exact H|]. split; [vm_compute; reflexivity|].
  exact (text_location_numbers fn lines s H).
Defined.

(** A [q] or [p] column (other than [pit]) whose name after its first
    letter is not a number makes every data row raise.  A load that
    succeeds then reads no data row, and has no dates, offsets or
    locations. *)
Theorem text_bad_level_column (fn : string) (lines : list string) (s : snapshot)
  (h : list string) (fld : string) :
  load fn lines = Ok s -> first_header lines = Some h -> bad_level_column h fld ->
  data_lines false lines = 0%nat /\ dates s = [] /\ offsets s = [] /\ locations s = [].
Proof.
  intros H Hf Hb. destruct (load_state _ _ _ H) as (st & _ & -> & [_ [Hseen Hh]] & Hhead & Hlen).
  rewrite Hf in Hhead. rewrite Hhead in Hh.
  destruct Hh as (_ & _ & _ & _ & _ & _ & _ & _ & Hbad).
  pose proof (Hbad fld Hb) as Hs. destruct (Hseen Hs) as (Hd & Ho & Hl & _).
  rewrite <- Hlen, Hs. unfold finish, dates, offsets, locations. cbv zeta.
  rewrite Hd, Ho, Hl, fset_list_nil, loc_list_nil. repeat split.
Qed.

(** A witness: a header with the column [qx] and no rows. *)
Lemma text_bad_level_column_witness :
  let fn := "f"%string in let lines := sample_bad_level in
  let s := snapshot_of (load fn lines) in
  let h := ["obs"; "fcst"; "qx"]%string in
  load fn lines = Ok s /\ first_header lines = Some h /\ bad_level_column h "qx"%string /\
  data_lines false lines = 0%nat /\ dates s = [] /\ offsets s = [] /\ locations s = [].
Proof.
  intros fn lines s h.
  assert (H : load fn lines = Ok s) by (vm_compute; reflexivity).
  assert (Hf : first_header lines = Some h) by (vm_compute; reflexivity).
  assert (Hb : bad_level_column h "qx"%string).
  { split; [left; vm_compute; left; reflexivity|vm_compute; reflexivity]. }
  split; [exact H|]. split; [exact Hf|]. split; [exact Hb|].
  exact (text_bad_level_column fn lines s h "qx"%string H Hf Hb).
Defined.

End TextLoadExtras.


Module TextErrors.
Import Py Text Views TextSamples.

Lemma load_app fn pre l post st :
  parse_lines fn init pre = Ok st ->
  load fn (pre ++ l :: post) =
    (st' <- process_line fn st l ;; st'' <- parse_lines fn st' post ;; Ok (finish st'')).
Proof.
  intros H. unfold load. rewrite (ArityFacts.parse_lines_app _ _ _ _ _ H). simpl.
  destruct (process_line fn st l); reflexivity.
Qed.

(** The first line that is not a comment is the header.  When it has no
    [obs] column the load raises [verif.util.error] with the message
    "Could not parse <file>: Missing column 'obs'"; when it has [obs] but
    no [fcst], the same error for [fcst].  A blank line before the header
    is such a header. *)
Theorem text_missing_column (fn : string) (pre : list string) (l : string)
  (post : list string) (st : tstate) :
  parse_lines fn init pre = Ok st -> first_header pre = None ->
  is_comment l = false -> l <> ""%string ->
  (~ In "obs"%string (split l) ->
     load fn (pre ++ l :: post) =
       Raise (VerifError ("Could not parse " ++ fn ++ ": Missing column 'obs'"))) /\
  (In "obs"%string (split l) -> ~ In "fcst"%string (split l) ->
     load fn (pre ++ l :: post) =
       Raise (VerifError ("Could not parse " ++ fn ++ ": Missing column 'fcst'"))).
Proof.
  intros Hp Hf Hc Hl.
  destruct (LineFacts.parse_lines_header _ _ _ _ Hp) as [Hh _]. simpl in Hh.
  rewrite Hf in Hh.
  rewrite (load_app _ _ _ _ _ Hp).
  destruct l as [|c r]; [contradiction|].
  unfold process_line, char_at. cbn [String.get bind]. simpl in Hc. rewrite Hc, Hh.
  split.
  - intros Ho. rewrite <- HeaderFacts.in_indices_header in Ho.
    apply not_true_iff_false in Ho. rewrite Ho. reflexivity.
  - intros Ho Hn. rewrite <- HeaderFacts.in_indices_header in Ho, Hn.
    apply not_true_iff_false in Hn. rewrite Ho, Hn. reflexivity.
Qed.

(** A witness: a header without [obs], and one with [obs] but without [fcst]. *)
Lemma text_missing_column_witness :
  let fn := "f"%string in let pre := lines_of ["# variable: T"]%string in
  let l1 := ("date fcst" ++ nl)%string in let l2 := ("obs date" ++ nl)%string in
  let st := state_of (parse_lines fn init pre) in
  parse_lines fn init pre = Ok st /\ first_header pre = None /\
  load fn (pre ++ [l1]) = Raise (VerifError ("Could not parse " ++ fn ++ ": Missing column 'obs'")) /\
  load fn (pre ++ [l2]) = Raise (VerifError ("Could not parse " ++ fn ++ ": Missing column 'fcst'")).
Proof.
  intros fn pre l1 l2 st.
  assert (Hp : parse_lines fn init pre = Ok st) by (vm_compute; reflexivity).
  assert (Hf : first_header pre = None) by (vm_compute; reflexivity).
  split; [exact Hp|]. split; [exact Hf|]. split.
  - refine (proj1 (text_missing_column fn pre l1 [] st Hp Hf _ _) _).
    + vm_compute. reflexivity.
    + vm_compute. discriminate.
    + vm_compute. intuition discriminate.
  - refine (proj2 (text_missing_column fn pre l2 [] st Hp Hf _ _) _ _).
    + vm_compute. reflexivity.
    + vm_compute. discriminate.
    + vm_compute. left. reflexivity.
    + vm_compute. intuition discriminate.
Defined.

(** A comment line with no word after its '#', or whose only word is
    [units:], raises [IndexError], which aborts the load. *)
Theorem text_comment_index_error (fn : string) (pre : list string) (l : string)
  (post : list string) (st : tstate) :
  parse_lines fn init pre = Ok st -> is_comment l = true ->
  split (tail_str l) = [] \/ split (tail_str l) = ["units:"%string] ->
  load fn (pre ++ l :: post) = Raise IndexError.
Proof.
  intros Hp Hc Hw. rewrite (load_app _ _ _ _ _ Hp).
  destruct l as [|c r]; [discriminate Hc|].
  unfold process_line, char_at. cbn [String.get bind]. simpl in Hc. rewrite Hc.
  destruct Hw as [Hw|Hw]; rewrite Hw; reflexivity.
Qed.

(** A witness: the comments "#" and "# units:" after a header. *)
Lemma text_comment_index_error_witness :
  let fn := "f"%string in let pre := lines_of ["obs fcst"]%string in
  let l1 := ("#" ++ nl)%string in let l2 := ("# units:" ++ nl)%string in
  let st := state_of (parse_lines fn init pre) in
  parse_lines fn init pre = Ok st /\
  load fn (pre ++ [l1]) = Raise IndexError /\ load fn (pre ++ [l2]) = Raise IndexError.
Proof.
  intros fn pre l1 l2 st.
  assert (Hp : parse_lines fn init pre = Ok st) by (vm_compute; reflexivity).
  split; [exact Hp|]. split.
  - apply (text_comment_index_error fn pre l1 [] st Hp); [vm_compute; reflexivity|].
    left. vm_compute. reflexivity.
  - apply (text_comment_index_error fn pre l2 [] st Hp); [vm_compute; reflexivity|].
    right. vm_compute. reflexivity.
Defined.

End TextErrors.


Module TextMetadata.
Import Py Text Views TextSamples.

(** The variable name is the words of the last [variable:] comment
    joined by single spaces, by default "Unknown".  The units are only the
    first word of the last [units:] comment, by default "Unknown units". *)
Theorem text_variable_units (fn : string) (lines : list string) (s : snapshot) :
  load fn lines = Ok s ->
  variable s = (variable_view (last_words "variable:" lines None),
                units_view (last_words "units:" lines None)).
Proof.
  intros H. destruct (RowFacts.load_inv _ _ _ H) as [st [Hp ->]].
  destruct (MetaFacts.parse_lines_meta _ _ _ _ None None Hp eq_refl eq_refl ltac:(discriminate)) as [Hv Hu].
  unfold finish, variable. simpl. rewrite Hv, Hu. reflexivity.
Qed.

(** A witness: the units "m s-1" are read as "m". *)
Lemma text_variable_units_witness :
  let fn := "f"%string in let lines := sample_meta in
  let s := snapshot_of (load fn lines) in
  load fn lines = Ok s /\
  variable s = (variable_view (last_words "variable:" lines None),
                units_view (last_words "units:" lines None)) /\
  variable s = ("Air temperature"%string, "m"%string).
Proof.
  intros fn lines s.
  assert (H : load fn lines = Ok s) by (vm_compute; reflexivity).
  split; [exact H|]. split; [exact (text_variable_units fn lines s H)|].
  vm_compute. reflexivity.
Defined.

End TextMetadata.


Module CompsNames.
Import Py Codec Views.

(** A COMPS variable whose name is a number of at least two characters
    without 'm', 'p' or 'q' is read both as the threshold of that value and,
    when the value divided by 100 is in [0, 1], as that quantile. *)
Theorem comps_numeric_name (name : string) (f : float) :
  float_of_string name = Some f -> (2 <= String.length name)%nat ->
  ~ has_char "m" name -> ~ has_char "p" name -> ~ has_char "q" name ->
  comps_to_verif_threshold name = Ok (Some f) /\
  comps_to_verif_quantile name =
    Ok (let temp := fdiv f (of_Z 100) in
        if fge temp fzero && fle temp (of_Z 1) then Some temp else None).
Proof.
  intros Hf Hl Hm Hp Hq.
  assert (Hg : forall c, guard c name = Ok true).
  { intros c. unfold guard. apply Nat.leb_le in Hl. rewrite Hl. reflexivity. }
  unfold comps_to_verif_threshold, comps_to_verif_quantile. rewrite !Hg. cbn [bind].
  rewrite (ReplaceFacts.replace_absent "m" "" "-" name Hm), (ReplaceFacts.replace_absent "p" "0" "0." name Hp),
    (ReplaceFacts.replace_absent "p" "" "" name Hp), (ReplaceFacts.replace_absent "q" "0" "0." name Hq),
    (ReplaceFacts.replace_absent "q" "" "" name Hq).
  unfold is_number. rewrite Hf. split; [reflexivity|]. cbv zeta. destruct (_ && _); reflexivity.
Qed.

(** A witness: the variable "50" is the threshold 50 and the quantile 0.5. *)
Lemma comps_numeric_name_witness :
  let name := "50"%string in
  float_of_string name = Some (of_Z 50) /\
  comps_to_verif_threshold name = Ok (Some (of_Z 50)) /\
  comps_to_verif_quantile name = Ok (Some (lit "0.5")).
Proof.
  intros name.
  assert (Hf : float_of_string name = Some (of_Z 50)) by (vm_compute; reflexivity).
  assert (Hm : ~ has_char "m" name).
  { intros X. apply NameFacts.has_char_b in X. vm_compute in X. discriminate X. }
  assert (Hp : ~ has_char "p" name).
  { intros X. apply NameFacts.has_char_b in X. vm_compute in X. discriminate X. }
  assert (Hq : ~ has_char "q" name).
  { intros X. apply NameFacts.has_char_b in X. vm_compute in X. discriminate X. }
  destruct (comps_numeric_name name (of_Z 50) Hf ltac:(vm_compute; lia) Hm Hp Hq) as [A B].
  split; [exact Hf|]. split; [exact A|]. rewrite B. vm_compute. reflexivity.
Defined.

End CompsNames.
